(** * Mandelbrot.js: a shallow embedding of the rendering core

    The development follows [lib/Mandelbrot.js].  JavaScript numbers are kept
    behind a small interface ([Number], over a carrier type), so that every
    function of the class is transcribed once and can then be read either
    over IEEE 754 binary64 (module [F64]: the primitive doubles, executable,
    and specified operation by operation for the statements about all doubles)
    or over exact reals extended with the IEEE special values (module [XR],
    the idealised reading).  Integer-valued quantities of the source (pixel
    indices, image sizes, the iteration counter, shader mode tags) are kept in
    [Z]. *)

From Stdlib Require Import ZArith List Bool String Lia.
From Stdlib Require Import Floats.
From Stdlib Require Import Reals Lra.
Import ListNotations.

Open Scope Z_scope.

(** ** JavaScript numbers *)

Class Number (num : Type) : Type := {
  add  : num -> num -> num;
  sub  : num -> num -> num;
  mul  : num -> num -> num;
  div  : num -> num -> num;
  rem  : num -> num -> num;        (* the [%] operator *)
  ltb  : num -> num -> bool;
  leb  : num -> num -> bool;
  of_Z : Z -> num                  (* an integer literal or integer value *)
}.

(** [Math.log].  ECMA-262 leaves its precision to the implementation, so it
    is a parameter of its own. *)
Class MathLib (num : Type) : Type := {
  Math_log : num -> num
}.

Declare Scope js_scope.
Delimit Scope js_scope with js.
Infix "+"   := add : js_scope.
Infix "-"   := sub : js_scope.
Infix "*"   := mul : js_scope.
Infix "/"   := div : js_scope.
Infix "%%"  := rem (at level 40, left associativity) : js_scope.
Infix "<?"  := ltb : js_scope.
Infix "<=?" := leb : js_scope.

(** A decimal literal with [k] digits after the point: [lit 35 1] is [3.5].
    Mantissa and power of ten are exact and the quotient is rounded once, which
    is the value the literal denotes. *)
Definition lit {num : Type} {N : Number num} (m : Z) (k : nat) : num :=
  (of_Z m / of_Z (10 ^ Z.of_nat k))%js.

(** *** binary64 *)

Module F64.

(** The double nearest to the integer [z].  Below [2^63] in magnitude the
    conversion of the machine integer is used; from there on the integer is
    rounded as a mantissa at exponent 0. *)
Definition of_int (z : Z) : float :=
  if Z.abs z <? 2 ^ 63 then
    if z <? 0 then PrimFloat.opp (PrimFloat.of_uint63 (Uint63.of_Z (- z)))
    else PrimFloat.of_uint63 (Uint63.of_Z z)
  else SF2Prim (binary_normalize prec emax z 0 false).

(** [a % b] on doubles: the remainder of the truncating division, computed
    exactly on the integer mantissas at the smaller of the two exponents. *)
Definition fmod (a b : float) : float :=
  match Prim2SF a, Prim2SF b with
  | S754_nan, _ | _, S754_nan => PrimFloat.nan
  | S754_infinity _, _ => PrimFloat.nan
  | _, S754_zero _ => PrimFloat.nan
  | S754_zero _, _ => a
  | S754_finite _ _ _, S754_infinity _ => a
  | S754_finite sa ma ea, S754_finite _ mb eb =>
      let e := Z.min ea eb in
      let A := Z.pos ma * 2 ^ (ea - e) in
      let B := Z.pos mb * 2 ^ (eb - e) in
      match A mod B with
      | Z.pos r => SF2Prim (S754_finite sa r e)
      | _ => if sa then PrimFloat.neg_zero else PrimFloat.zero
      end
  end.

#[global] Instance number : Number float := {|
  add  := PrimFloat.add;
  sub  := PrimFloat.sub;
  mul  := PrimFloat.mul;
  div  := PrimFloat.div;
  rem  := fmod;
  ltb  := PrimFloat.ltb;
  leb  := PrimFloat.leb;
  of_Z := of_int
|}.

Definition math (log : float -> float) : MathLib float :=
{| Math_log := log |}.

End F64.

(** *** Exact reals with the IEEE special values

    Rounding, overflow and the sign of zero are not represented: a zero
    divisor is read as [+0]. *)

Module XR.

Inductive xreal : Type :=
| Fin (r : R)
| PInf
| NInf
| NaN.

Definition sgn (r : R) : comparison :=
  match total_order_T 0 r with
  | inleft (left _)  => Gt      (* 0 < r *)
  | inleft (right _) => Eq
  | inright _        => Lt      (* r < 0 *)
  end.

Definition inf_of (c : comparison) : xreal :=
  match c with Gt => PInf | Lt => NInf | Eq => NaN end.

Definition flip (c : comparison) : comparison := CompOpp c.

Definition xopp (a : xreal) : xreal :=
  match a with
  | Fin r => Fin (- r)
  | PInf => NInf
  | NInf => PInf
  | NaN => NaN
  end.

Definition xadd (a b : xreal) : xreal :=
  match a, b with
  | NaN, _ | _, NaN => NaN
  | Fin r, Fin s => Fin (r + s)
  | PInf, NInf | NInf, PInf => NaN
  | PInf, _ | _, PInf => PInf
  | NInf, _ | _, NInf => NInf
  end.

Definition xsub (a b : xreal) : xreal := xadd a (xopp b).

Definition xmul (a b : xreal) : xreal :=
  match a, b with
  | NaN, _ | _, NaN => NaN
  | Fin r, Fin s => Fin (r * s)
  | PInf, Fin s | Fin s, PInf => inf_of (sgn s)
  | NInf, Fin s | Fin s, NInf => inf_of (flip (sgn s))
  | PInf, PInf | NInf, NInf => PInf
  | PInf, NInf | NInf, PInf => NInf
  end.

Definition xdiv (a b : xreal) : xreal :=
  match a, b with
  | NaN, _ | _, NaN => NaN
  | Fin r, Fin s =>
      match sgn s with
      | Eq => inf_of (sgn r)
      | _ => Fin (r / s)
      end
  | Fin _, (PInf | NInf) => Fin 0
  | PInf, Fin s => match sgn s with Lt => NInf | _ => PInf end
  | NInf, Fin s => match sgn s with Lt => PInf | _ => NInf end
  | (PInf | NInf), (PInf | NInf) => NaN
  end.

(** Truncation toward zero, as an integer. *)
Definition trunc (q : R) : Z :=
  match sgn q with
  | Lt => - Int_part (- q)
  | _ => Int_part q
  end.

Definition xrem (a b : xreal) : xreal :=
  match a, b with
  | NaN, _ | _, NaN => NaN
  | (PInf | NInf), _ => NaN
  | Fin r, (PInf | NInf) => Fin r
  | Fin r, Fin s =>
      match sgn s with
      | Eq => NaN
      | _ => Fin (r - s * IZR (trunc (r / s)))
      end
  end.

Definition xltb (a b : xreal) : bool :=
  match a, b with
  | NaN, _ | _, NaN => false
  | Fin r, Fin s => if Rlt_dec r s then true else false
  | NInf, (Fin _ | PInf) => true
  | Fin _, PInf => true
  | _, _ => false
  end.

Definition xleb (a b : xreal) : bool :=
  match a, b with
  | NaN, _ | _, NaN => false
  | Fin r, Fin s => if Rle_dec r s then true else false
  | NInf, _ => true
  | _, PInf => true
  | _, _ => false
  end.

Definition xlog (a : xreal) : xreal :=
  match a with
  | Fin r =>
      match sgn r with
      | Gt => Fin (ln r)
      | Eq => NInf
      | Lt => NaN
      end
  | PInf => PInf
  | NInf | NaN => NaN
  end.

#[global] Instance number : Number xreal := {|
  add  := xadd;
  sub  := xsub;
  mul  := xmul;
  div  := xdiv;
  rem  := xrem;
  ltb  := xltb;
  leb  := xleb;
  of_Z := fun z => Fin (IZR z)
|}.

#[global] Instance math : MathLib xreal :=
{| Math_log := xlog |}.

End XR.

(** ** Values, completions and records *)

(** The values taken by the [heightScalar] field: [null] at construction,
    then whatever the last render message carried. *)
Inductive jsval (num : Type) : Type :=
| Null
| Undefined
| Num (v : num).
Arguments Null {num}.
Arguments Undefined {num}.
Arguments Num {num} v.

Inductive error : Type :=
| ReferenceError (identifier : string)
| TypeError (what : string)
| RangeError (what : string).

(** How a call ends: normally with a value, or by an exception. *)
Inductive completion (A : Type) : Type :=
| Normal (v : A)
| Throw (e : error).
Arguments Normal {A} v.
Arguments Throw {A} e.

Definition obind {A B : Type} (m : option A) (k : A -> option B) : option B :=
  match m with
  | Some a => k a
  | None => None
  end.
Notation "x <- m ;; k" := (obind m (fun x => k))
  (at level 61, m at next level, right associativity).

Fixpoint mapM {A B : Type} (f : A -> option B) (l : list A) : option (list B) :=
  match l with
  | [] => Some []
  | a :: l' => b <- f a ;; bs <- mapM f l' ;; Some (b :: bs)
  end.

(** The object built by [render] and posted to every task. *)
Module rConfig.
Set Implicit Arguments.
Set Maximal Implicit Insertion.
Record t (num : Type) : Type := mk {
  heightScalar : jsval num;
  iterations   : Z;
  scale        : num;
  width        : Z;
  height       : Z;
  xDelta       : num;
  yDelta       : num;
  xSkip        : Z;
  xInit        : option Z         (* absent until a task is set up *)
}.
Unset Maximal Implicit Insertion.
Unset Implicit Arguments.
Arguments mk {num}.
Definition set_xInit {num : Type} (i : Z) (c : t num) : t num :=
  mk (heightScalar c) (iterations c) (scale c) (width c) (height c)
     (xDelta c) (yDelta c) (xSkip c) (Some i).
Definition set_xSkip {num : Type} (k : Z) (c : t num) : t num :=
  mk (heightScalar c) (iterations c) (scale c) (width c) (height c)
     (xDelta c) (yDelta c) k (xInit c).
End rConfig.

(** What [_baseRender] hands over for one column: [{Px, line}] to a callback,
    [{Px, line, heightScalar}] through [postMessage]. *)
Module Msg.
Set Implicit Arguments.
Set Maximal Implicit Insertion.
Record t (num : Type) : Type := mk {
  Px           : Z;
  line         : list num;
  heightScalar : option num       (* [None]: the property is absent *)
}.
Unset Maximal Implicit Insertion.
Unset Implicit Arguments.
Arguments mk {num}.
End Msg.

(** The argument of [drawBufferedPixel]. *)
Module Pixel.
Set Implicit Arguments.
Set Maximal Implicit Insertion.
Record t (num : Type) : Type := mk {
  x : Z;
  y : Z;
  r : num;
  g : num;
  b : num;
  a : num
}.
Unset Maximal Implicit Insertion.
Unset Implicit Arguments.
Arguments mk {num}.
End Pixel.

(** ** [_baseRender]: the escape-time loop *)

Section BaseRender.
Context {num : Type} {N : Number num}.
Local Open Scope js_scope.

(** [0, 1, ..., n-1], the values of a counting [for] loop. *)
Definition range (n : Z) : list Z := map Z.of_nat (seq 0 (Z.to_nat n)).

(** The [while] loop of lines 162-167.  [None] means that [fuel] iterations
    were not enough to leave the loop. *)
Fixpoint escape_while (fuel : nat) (x0 y0 x y : num) (iteration iterations : Z)
  : option Z :=
  if (x * x + y * y <? of_Z 4) && (iteration <? iterations)%Z then
    match fuel with
    | O => None
    | S fuel' =>
        let xtemp := x * x - y * y + x0 in
        let y' := of_Z 2 * x * y + y0 in
        escape_while fuel' x0 y0 xtemp y' (iteration + 1)%Z iterations
    end
  else Some iteration.

(** Lines 159-168: the intensity of the point [(x0, y0)]. *)
Definition escape_intensity (fuel : nat) (x0 y0 : num) (iterations : Z)
  : option num :=
  iteration <- escape_while fuel x0 y0 (of_Z 0) (of_Z 0) 0%Z iterations ;;
  Some (of_Z (if (iteration =? iterations)%Z then 0%Z else iteration)
        / of_Z iterations).

(** Lines 155-169: the body of the loop over [Py]. *)
Definition _baseRender_pixel (fuel : nat) (e : rConfig.t num)
    (widthScalar heightScalar : num) (Px Py : Z) : option num :=
  let scale := rConfig.scale e in
  let width := rConfig.width e in
  let height := rConfig.height e in
  let Tx := of_Z Px - rConfig.xDelta e * scale in
  let Ty := of_Z Py - rConfig.yDelta e * scale in
  let x0 := (widthScalar / of_Z width) * Tx - widthScalar / lit 14 1 in
  let y0 := (heightScalar / of_Z height) * Ty - heightScalar / of_Z 2 in
  escape_intensity fuel x0 y0 (rConfig.iterations e).

(** Lines 152-173: the loop over [Px].  [cb] tells whether a callback was
    passed. *)
Fixpoint _baseRender_columns (fuel : nat) (e : rConfig.t num) (cb : bool)
    (widthScalar heightScalar : num) (Px : Z) : option (list (Msg.t num)) :=
  if (Px <? rConfig.width e)%Z then
    match fuel with
    | O => None
    | S fuel' =>
        line <- mapM (_baseRender_pixel (Z.to_nat (rConfig.iterations e)) e
                        widthScalar heightScalar Px)
                     (range (rConfig.height e)) ;;
        rest <- _baseRender_columns fuel' e cb widthScalar heightScalar
                  (Px + rConfig.xSkip e)%Z ;;
        Some (Msg.mk Px line (if cb then None else Some heightScalar) :: rest)
    end
  else Some [].

(** The messages of one run, in the order they are handed over; [None] when
    [fuel] columns do not end the loop.  With [xInit] absent, [Px < width]
    is false at once. *)
Definition _baseRender (fuel : nat) (e : rConfig.t num) (cb : bool)
  : option (list (Msg.t num)) :=
  let scale := rConfig.scale e in
  let width := rConfig.width e in
  let height := rConfig.height e in
  let widthScalar := lit 35 1 / scale in
  let heightScalar := (lit 35 1 * of_Z height / of_Z width) / scale in
  match rConfig.xInit e with
  | Some xInit => _baseRender_columns fuel e cb widthScalar heightScalar xInit
  | None => Some []
  end.

(** Columns left to visit from [Px]: enough fuel for the loop over [Px]
    whenever the stride is positive. *)
Definition columns_fuel (e : rConfig.t num) : nat :=
  match rConfig.xInit e with
  | Some xInit => Z.to_nat (rConfig.width e - xInit)
  | None => O
  end.

End BaseRender.

(** ** [_pixelShader] *)

Section Shader.
Context {num : Type} {N : Number num} {M : MathLib num}.
Local Open Scope js_scope.

(** [this.shaderModes] *)
Definition BLUE    : Z := 0.
Definition WHITE   : Z := 1.
Definition HIST    : Z := 2.
Definition INTHIST : Z := 3.

(** Identifier resolution inside [_pixelShader]: its four parameters; the
    file declares no other binding that the body could see. *)
Definition _pixelShader_scope (Px Py : Z) (intensity : num) (mode : Z)
    (identifier : string) : option num :=
  if String.eqb identifier "Px" then Some (of_Z Px)
  else if String.eqb identifier "Py" then Some (of_Z Py)
  else if String.eqb identifier "intensity" then Some intensity
  else if String.eqb identifier "mode" then Some (of_Z mode)
  else None.

(** [stack] bounds the depth of the self-call of the [default] case.  A
    [switch] case that ends in [break] leaves the function without a
    [return]: the call yields [undefined], here [Normal None]. *)
Fixpoint _pixelShader (stack : nat) (defaultShader : Z)
    (Px Py : Z) (intensity : num) (mode : Z) : completion (option (Pixel.t num)) :=
  if (mode =? BLUE)%Z then
    let int1 := intensity * ((of_Z (-1) / of_Z 4)
                  * Math_log ((of_Z (-1) / lit 11112347 6) * intensity + lit 9 2)
                  - lit 25 2) in
    let int2 := intensity * (of_Z 1 - lit 24 1 * Math_log (intensity + lit 1 10)) in
    Normal (Some (Pixel.mk Px Py (of_Z 255 * int1) (of_Z 255 * int1)
                           (of_Z 255 * int2) (of_Z 255)))
  else if (mode =? WHITE)%Z then
    Normal (Some (Pixel.mk Px Py (of_Z 255 * intensity) (of_Z 255 * intensity)
                           (of_Z 255 * intensity) (of_Z 255)))
  else if (mode =? HIST)%Z then Normal None
  else if (mode =? INTHIST)%Z then Normal None
  else
    (* the arguments are evaluated before the call is made *)
    match _pixelShader_scope Px Py intensity mode "intentisty" with
    | None => Throw (ReferenceError "intentisty")
    | Some v =>
        match stack with
        | O => Throw (RangeError "Maximum call stack size exceeded")
        | S stack' => _pixelShader stack' defaultShader Px Py v defaultShader
        end
    end.

(** The two arguments handed to [Math.log] in the [BLUE] case. *)
Definition blue_log_arg1 (intensity : num) : num :=
  (of_Z (-1) / lit 11112347 6) * intensity + lit 9 2.
Definition blue_log_arg2 (intensity : num) : num :=
  intensity + lit 1 10.

End Shader.

(** ** The object, its canvas and its workers *)

(** The [Canvas2D] collaborator, as far as the class drives it: a buffer of
    pixel writes since the last [clearBuffer] (most recent first) and what
    [flushBuffer] last put on screen.  Every write carries, as ghost data, the
    number of the [render] call whose task computed it. *)
Module Canvas2D.
Set Implicit Arguments.
Set Maximal Implicit Insertion.
Record t (num : Type) : Type := mk {
  getWidth  : Z;
  getHeight : Z;
  buffer    : list (nat * option (Pixel.t num));
  shown     : list (nat * option (Pixel.t num));
  flushes   : nat
}.
Unset Maximal Implicit Insertion.
Unset Implicit Arguments.
Arguments mk {num}.
Section Ops.
Context {num : Type} {N : Number num}.
Definition clearBuffer (c : t num) : t num :=
  mk (getWidth c) (getHeight c) [] (shown c) (flushes c).
Definition drawBufferedPixel (gen : nat) (p : option (Pixel.t num)) (c : t num)
  : t num :=
  mk (getWidth c) (getHeight c) ((gen, p) :: buffer c) (shown c) (flushes c).
Definition flushBuffer (c : t num) : t num :=
  mk (getWidth c) (getHeight c) (buffer c) (buffer c) (S (flushes c)).
Definition resize (w h : Z) (c : t num) : t num :=
  mk w h (buffer c) (shown c) (flushes c).
End Ops.
End Canvas2D.

(** A worker started by [_renderWorkers]: the messages it has computed and
    that the main thread has not received yet, and the variables its
    [onmessage] handler closes over.  [terminate] drops what is undelivered. *)
Module Worker.
Set Implicit Arguments.
Set Maximal Implicit Insertion.
Record t (num : Type) : Type := mk {
  gen    : nat;                (* ghost: the [render] call that started it *)
  alive  : bool;
  outbox : list (Msg.t num);
  width  : Z;                  (* [width] of the enclosing call *)
  xSkip  : Z;                  (* [xSkip] of the enclosing call *)
  i      : Z                   (* the [var i] of the enclosing call *)
}.
Unset Maximal Implicit Insertion.
Unset Implicit Arguments.
Arguments mk {num}.
Definition terminate {num : Type} (w : t num) : t num :=
  mk (gen w) false [] (width w) (xSkip w) (i w).
Definition set_outbox {num : Type} (o : list (Msg.t num)) (w : t num) : t num :=
  mk (gen w) (alive w) o (width w) (xSkip w) (i w).
End Worker.

(** The fields of a [Mandelbrot] instance. *)
Module Mandelbrot.
Set Implicit Arguments.
Set Maximal Implicit Insertion.
Record t (num : Type) : Type := mk {
  iterations     : Z;
  scale          : num;
  xDelta         : num;
  yDelta         : num;
  parallelism    : Z;
  heightScalar   : jsval num;
  defaultShader  : Z;
  shader         : Z;
  renderParallel : bool;
  renderThreads  : list nat;   (* handles into the worker table *)
  width          : option Z;   (* absent before the first [render] *)
  height         : option Z
}.
Unset Maximal Implicit Insertion.
Unset Implicit Arguments.
Arguments mk {num}.
Section Ops.
Context {num : Type} {N : Number num}.
Definition constructor : t num :=
  mk 256 (of_Z 1) (of_Z 0) (of_Z 0) 2 Null BLUE BLUE true [] None None.
Definition set_size (w h : option Z) (m : t num) : t num :=
  mk (iterations m) (scale m) (xDelta m) (yDelta m) (parallelism m)
     (heightScalar m) (defaultShader m) (shader m) (renderParallel m)
     (renderThreads m) w h.
Definition set_heightScalar (v : jsval num) (m : t num) : t num :=
  mk (iterations m) (scale m) (xDelta m) (yDelta m) (parallelism m)
     v (defaultShader m) (shader m) (renderParallel m)
     (renderThreads m) (width m) (height m).
Definition set_renderThreads (l : list nat) (m : t num) : t num :=
  mk (iterations m) (scale m) (xDelta m) (yDelta m) (parallelism m)
     (heightScalar m) (defaultShader m) (shader m) (renderParallel m)
     l (width m) (height m).
(** What a client may assign between two calls. *)
Definition configure (iterations' : Z) (scale' xDelta' yDelta' : num)
    (parallelism' shader' : Z) (renderParallel' : bool) (m : t num) : t num :=
  mk iterations' scale' xDelta' yDelta' parallelism'
     (heightScalar m) (defaultShader m) shader' renderParallel'
     (renderThreads m) (width m) (height m).
End Ops.
End Mandelbrot.

(** The state the main thread runs in.  [generation] is ghost: the number of
    [render] calls made so far. *)
Module World.
Set Implicit Arguments.
Set Maximal Implicit Insertion.
Record t (num : Type) : Type := mk {
  this          : Mandelbrot.t num;
  canvas2d      : Canvas2D.t num;
  workers       : list (Worker.t num);   (* every worker ever created, by handle *)
  window_Worker : bool;            (* does the host provide [Worker]? *)
  stack_limit   : nat;
  timers        : nat;             (* [setTimeout] flushes not yet run *)
  generation    : nat;
  uncaught      : list error       (* exceptions that left a handler *)
}.
Unset Maximal Implicit Insertion.
Unset Implicit Arguments.
Arguments mk {num}.
Section Ops.
Context {num : Type} {N : Number num}.
Definition set_this (m : Mandelbrot.t num) (w : t num) : t num :=
  mk m (canvas2d w) (workers w) (window_Worker w) (stack_limit w)
     (timers w) (generation w) (uncaught w).
Definition set_canvas2d (c : Canvas2D.t num) (w : t num) : t num :=
  mk (this w) c (workers w) (window_Worker w) (stack_limit w)
     (timers w) (generation w) (uncaught w).
Definition set_workers (l : list (Worker.t num)) (w : t num) : t num :=
  mk (this w) (canvas2d w) l (window_Worker w) (stack_limit w)
     (timers w) (generation w) (uncaught w).
Definition set_timers (n : nat) (w : t num) : t num :=
  mk (this w) (canvas2d w) (workers w) (window_Worker w) (stack_limit w)
     n (generation w) (uncaught w).
Definition set_generation (n : nat) (w : t num) : t num :=
  mk (this w) (canvas2d w) (workers w) (window_Worker w) (stack_limit w)
     (timers w) n (uncaught w).
Definition raise (e : error) (w : t num) : t num :=
  mk (this w) (canvas2d w) (workers w) (window_Worker w) (stack_limit w)
     (timers w) (generation w) (e :: uncaught w).
Definition init (c : Canvas2D.t num) (has_Worker : bool) (stack : nat) : t num :=
  mk Mandelbrot.constructor c [] has_Worker stack O O [].
End Ops.
End World.

(** ** [render], [_renderWorkers], [_renderDirect] and the event loop *)

Section Render.
Context {num : Type} {N : Number num} {M : MathLib num}.
Local Open Scope js_scope.

Fixpoint update_nth {A : Type} (n : nat) (f : A -> A) (l : list A) : list A :=
  match l, n with
  | [], _ => []
  | a :: l', O => f a :: l'
  | a :: l', S n' => a :: update_nth n' f l'
  end.

Definition opt_eqb (o : option Z) (z : Z) : bool :=
  match o with
  | Some v => (v =? z)%Z
  | None => false
  end.

Definition from_option (o : option Z) : Z :=
  match o with
  | Some v => v
  | None => 0%Z
  end.

(** [line.map((intensity, idx) => drawBufferedPixel(_pixelShader(Px, idx,
    intensity, this.shader)))], from index [idx] on.  An exception of the
    shader ends the traversal; what was drawn stays drawn. *)
Fixpoint draw_line (gen : nat) (Px idx : Z) (line : list num) (w : World.t num)
  : World.t num * option error :=
  match line with
  | [] => (w, None)
  | intensity :: rest =>
      match _pixelShader (World.stack_limit w)
              (Mandelbrot.defaultShader (World.this w))
              Px idx intensity (Mandelbrot.shader (World.this w)) with
      | Throw e => (w, Some e)
      | Normal p =>
          draw_line gen Px (idx + 1)%Z rest
            (World.set_canvas2d
               (Canvas2D.drawBufferedPixel gen p (World.canvas2d w)) w)
      end
  end.

Definition received_heightScalar (m : Msg.t num) : jsval num :=
  match Msg.heightScalar m with
  | Some v => Num v
  | None => Undefined
  end.

(** Line 98: [Px % (width*xSkip/100) <= 1 || Px > width-xSkip-1]. *)
Definition flush_due (width xSkip Px : Z) : bool :=
  (of_Z Px %% (of_Z width * of_Z xSkip / of_Z 100) <=? of_Z 1)
  || (Px >? width - xSkip - 1)%Z.

(** Line 100: [Px >= width-(xSkip-i)]. *)
Definition last_column (width xSkip i Px : Z) : bool :=
  (Px >=? width - (xSkip - i))%Z.

Definition terminate_handle (h : nat) (w : World.t num) : World.t num :=
  World.set_workers (update_nth h Worker.terminate (World.workers w)) w.

(** The [onmessage] handler given to [SyntheticWorker] (lines 93-102), run
    for the message [m] of worker [wk]. *)
Definition onmessage (wk : Worker.t num) (m : Msg.t num) (w : World.t num)
  : World.t num :=
  match draw_line (Worker.gen wk) (Msg.Px m) 0%Z (Msg.line m) w with
  | (w1, Some e) => World.raise e w1
  | (w1, None) =>
      let w2 := World.set_this
                  (Mandelbrot.set_heightScalar (received_heightScalar m)
                     (World.this w1)) w1 in
      let w3 := if flush_due (Worker.width wk) (Worker.xSkip wk) (Msg.Px m)
                then World.set_canvas2d
                       (Canvas2D.flushBuffer (World.canvas2d w2)) w2
                else w2 in
      if last_column (Worker.width wk) (Worker.xSkip wk) (Worker.i wk) (Msg.Px m)
      then
        match (if (Worker.i wk <? 0)%Z then None
               else nth_error (Mandelbrot.renderThreads (World.this w3))
                              (Z.to_nat (Worker.i wk))) with
        | Some h => terminate_handle h w3
        | None => World.raise (TypeError "this.renderThreads[i] is undefined") w3
        end
      else w3
  end.

(** The message at the head of worker [h]'s queue is received. *)
Definition deliver (h : nat) (w : World.t num) : World.t num :=
  match nth_error (World.workers w) h with
  | Some wk =>
      if Worker.alive wk then
        match Worker.outbox wk with
        | m :: rest =>
            onmessage wk m
              (World.set_workers
                 (update_nth h (Worker.set_outbox rest) (World.workers w)) w)
        | [] => w
        end
      else w
  | None => w
  end.

(** [new SyntheticWorker(this._baseRender, handler)] followed by
    [postMessage(rConfig)] with [rConfig.xInit = i]: the message is copied
    when posted, and the worker runs [_baseRender] on the copy without a
    callback.  All handlers of one call share its [var i], which holds
    [xSkip] once the loop is over, that is whenever a handler runs. *)
Definition spawn (gen : nat) (c : rConfig.t num) (i : Z) : Worker.t num :=
  let e := rConfig.set_xInit i c in
  Worker.mk gen true
    (match _baseRender (columns_fuel e) e false with
     | Some msgs => msgs
     | None => []
     end)
    (rConfig.width c) (rConfig.xSkip c) (rConfig.xSkip c).

(** Lines 82-107. *)
Definition _renderWorkers (c : rConfig.t num) (w : World.t num) : World.t num :=
  let xSkip := rConfig.xSkip c in
  (* while (this.renderThreads.length > 0) this.renderThreads.pop().terminate() *)
  let killed := fold_left (fun ws h => update_nth h Worker.terminate ws)
                  (rev (Mandelbrot.renderThreads (World.this w)))
                  (World.workers w) in
  (* for (var i = 0; i < xSkip; i++) ... *)
  let started := map (spawn (World.generation w) c) (range xSkip) in
  let handles := map (fun k => (List.length killed + k)%nat)
                     (seq 0 (List.length started)) in
  World.set_this (Mandelbrot.set_renderThreads handles (World.this w))
    (World.set_workers (killed ++ started) w).

(** The callback of [_renderDirect] (lines 122-133) over the columns of
    [_baseRender].  [clock k] is the [k]-th value of [new Date().getTime()]
    read during the call. *)
Fixpoint _renderDirect_columns (clock : nat -> Z) (msgs : list (Msg.t num))
    (timeout : Z) (k : nat) (w : World.t num) : World.t num * option error :=
  match msgs with
  | [] => (w, None)
  | toRender :: rest =>
      match draw_line (World.generation w) (Msg.Px toRender) 0%Z
              (Msg.line toRender) w with
      | (w1, Some e) => (w1, Some e)
      | (w1, None) =>
          let w2 := World.set_this
                      (Mandelbrot.set_heightScalar
                         (received_heightScalar toRender) (World.this w1)) w1 in
          if (clock k - timeout >? 50)%Z then
            _renderDirect_columns clock rest (clock (S k)) (S (S k))
              (World.set_timers (S (World.timers w2)) w2)
          else
            _renderDirect_columns clock rest timeout (S k) w2
      end
  end.

(** Lines 115-134. *)
Definition _renderDirect (clock : nat -> Z) (c : rConfig.t num) (w : World.t num)
  : World.t num * option error :=
  let c := rConfig.set_xInit 0 (rConfig.set_xSkip 1 c) in
  let timeout := clock O in
  match _baseRender (columns_fuel c) c true with
  | Some msgs => _renderDirect_columns clock msgs timeout 1%nat w
  | None => (w, None)
  end.

(** Lines 49-74.  An exception that leaves [render] is recorded. *)
Definition render (clock : nat -> Z) (w0 : World.t num) : World.t num :=
  let w := World.set_generation (S (World.generation w0)) w0 in
  let c := World.canvas2d w in
  let m := World.this w in
  let m := if negb (opt_eqb (Mandelbrot.width m) (Canvas2D.getWidth c))
              || negb (opt_eqb (Mandelbrot.height m) (Canvas2D.getHeight c))
           then Mandelbrot.set_size (Some (Canvas2D.getWidth c))
                                    (Some (Canvas2D.getHeight c)) m
           else m in
  let rConfig :=
    rConfig.mk (Mandelbrot.heightScalar m) (Mandelbrot.iterations m)
               (Mandelbrot.scale m)
               (from_option (Mandelbrot.width m))
               (from_option (Mandelbrot.height m))
               (Mandelbrot.xDelta m) (Mandelbrot.yDelta m)
               (Mandelbrot.parallelism m) None in
  let w := World.set_canvas2d (Canvas2D.clearBuffer c) (World.set_this m w) in
  if World.window_Worker w && Mandelbrot.renderParallel m then
    _renderWorkers rConfig w
  else
    match _renderDirect clock rConfig w with
    | (w', Some e) => World.raise e w'
    | (w', None) => w'
    end.

(** What can happen on the main thread, one task at a time. *)
Inductive event : Type :=
| Render (clock : nat -> Z)
| Deliver (h : nat)
| Timeout
| Configure (iterations : Z) (scale xDelta yDelta : num)
            (parallelism shader : Z) (renderParallel : bool)
| Resize (width height : Z).

Definition step (w : World.t num) (ev : event) : World.t num :=
  match ev with
  | Render clock => render clock w
  | Deliver h => deliver h w
  | Timeout =>
      match World.timers w with
      | O => w
      | S n => World.set_canvas2d (Canvas2D.flushBuffer (World.canvas2d w))
                 (World.set_timers n w)
      end
  | Configure it sc dx dy par sh rp =>
      World.set_this (Mandelbrot.configure it sc dx dy par sh rp (World.this w)) w
  | Resize wd ht =>
      World.set_canvas2d (Canvas2D.resize wd ht (World.canvas2d w)) w
  end.

Definition run (w : World.t num) (evs : list event) : World.t num :=
  fold_left step evs w.

End Render.
Arguments event : clear implicits.

(** ** The mouse handlers *)

(** The fields of a mouse event that the handlers read. *)
Module MouseEvent.
Set Implicit Arguments.
Set Maximal Implicit Insertion.
Record t (num : Type) : Type := mk {
  buttons : Z;
  clientX : num;
  clientY : num
}.
Unset Maximal Implicit Insertion.
Unset Implicit Arguments.
Arguments mk {num}.
End MouseEvent.

(** The object in its page: the state of [render], the press recorded by
    [_mousedown] ([_mouseStartX] and [_mouseStartY] are assigned together, and
    absent before the first left press) and the lines written by
    [console.log], most recent first. *)
Module Page.
Set Implicit Arguments.
Set Maximal Implicit Insertion.
Record t (num : Type) : Type := mk {
  world       : World.t num;
  _mouseStart : option (num * num);
  console     : list string
}.
Unset Maximal Implicit Insertion.
Unset Implicit Arguments.
Arguments mk {num}.
Definition load {num : Type} (w : World.t num) : t num := mk w None [].
End Page.

Section Mouse.
Context {num : Type} {N : Number num} {M : MathLib num}.
Local Open Scope js_scope.

(** [NaN], as the quotient [0/0]. *)
Definition nan : num := of_Z 0 / of_Z 0.

(** A size field read as a number: [undefined] gives [NaN]. *)
Definition size_number (o : option Z) : num :=
  match o with
  | Some z => of_Z z
  | None => nan
  end.

(** Lines 210-216. *)
Definition _mousedown (ev : MouseEvent.t num) (p : Page.t num) : Page.t num :=
  if (MouseEvent.buttons ev =? 1)%Z then
    Page.mk (Page.world p)
            (Some (MouseEvent.clientX ev, MouseEvent.clientY ev))
            (Page.console p)
  else p.

(** The test of line 226: [clientX - _mouseStartX > 2 || clientY -
    _mouseStartY > 2].  With no press recorded both differences are [NaN]
    and both comparisons are false. *)
Definition dragged (ev : MouseEvent.t num) (start : option (num * num)) : bool :=
  match start with
  | Some (startX, startY) =>
      (of_Z 2 <? MouseEvent.clientX ev - startX)
      || (of_Z 2 <? MouseEvent.clientY ev - startY)
  | None => false
  end.

(** Lines 224-237. *)
Definition _mouseup (clock : nat -> Z) (ev : MouseEvent.t num) (p : Page.t num)
  : Page.t num :=
  let w := Page.world p in
  let m := World.this w in
  let scale := Mandelbrot.scale m in
  let moved :=
    match Page._mouseStart p with
    | Some (startX, startY) =>
        if dragged ev (Page._mouseStart p) then
          Some (Mandelbrot.configure (Mandelbrot.iterations m) scale
                  (Mandelbrot.xDelta m + (MouseEvent.clientX ev - startX) / scale)
                  (Mandelbrot.yDelta m + (MouseEvent.clientY ev - startY) / scale)
                  (Mandelbrot.parallelism m) (Mandelbrot.shader m)
                  (Mandelbrot.renderParallel m) m)
        else None
    | None => None
    end in
  match moved with
  | Some m' =>
      Page.mk (render clock (World.set_this m' w)) (Page._mouseStart p)
              ("Translate"%string :: Page.console p)
  | None =>
      let m' :=
        Mandelbrot.configure (Mandelbrot.iterations m) (scale * of_Z 2)
          (Mandelbrot.xDelta m
           + (size_number (Mandelbrot.width m) / of_Z 2 - MouseEvent.clientX ev)
             / scale)
          (Mandelbrot.yDelta m
           + (size_number (Mandelbrot.height m) / of_Z 2 - MouseEvent.clientY ev)
             / scale)
          (Mandelbrot.parallelism m) (Mandelbrot.shader m)
          (Mandelbrot.renderParallel m) m in
      Page.mk (render clock (World.set_this m' w)) (Page._mouseStart p)
              ("Zoom to mouse"%string :: Page.console p)
  end.

(** What can happen in the page: the two mouse handlers, and the events of
    the render state. *)
Inductive page_event : Type :=
| Mousedown (ev : MouseEvent.t num)
| Mouseup (clock : nat -> Z) (ev : MouseEvent.t num)
| Inner (ev : event num).

Definition page_step (p : Page.t num) (ev : page_event) : Page.t num :=
  match ev with
  | Mousedown e => _mousedown e p
  | Mouseup clock e => _mouseup clock e p
  | Inner e => Page.mk (step (Page.world p) e) (Page._mouseStart p) (Page.console p)
  end.

Definition page_run (p : Page.t num) (evs : list page_event) : Page.t num :=
  fold_left page_step evs p.

End Mouse.
Arguments page_event : clear implicits.

(** * Vocabulary of the statements *)

Section Orbit.
Context {num : Type} {N : Number num}.
Local Open Scope js_scope.

(** One step [z <- z^2 + c] with [c = (x0, y0)], and the point reached
    after [n] steps from [z]. *)
Definition orbit_step (x0 y0 : num) (z : num * num) : num * num :=
  (fst z * fst z - snd z * snd z + x0, of_Z 2 * fst z * snd z + y0).

Fixpoint orbit (x0 y0 : num) (n : nat) (z : num * num) : num * num :=
  match n with
  | O => z
  | S n' => orbit x0 y0 n' (orbit_step x0 y0 z)
  end.

(** The first conjunct of the loop guard: [|z|^2 < 4]. *)
Definition inside (z : num * num) : bool :=
  fst z * fst z + snd z * snd z <? of_Z 4.

End Orbit.

(** The transform in the words of the specification (section 4.1), to be
    compared with what [_baseRender] computes. *)
Module ViewportTransform.
Section Formulas.
Context {num : Type} {N : Number num}.
Local Open Scope js_scope.
Variables (W H : Z) (s dx dy : num).

Definition widthScalar : num := lit 35 1 / s.
Definition heightScalar : num := (lit 35 1 * of_Z H / of_Z W) / s.
Definition Tx (Px : Z) : num := of_Z Px - dx * s.
Definition Ty (Py : Z) : num := of_Z Py - dy * s.
Definition x0 (Px : Z) : num :=
  (widthScalar / of_Z W) * Tx Px - widthScalar / lit 14 1.
Definition y0 (Py : Z) : num :=
  (heightScalar / of_Z H) * Ty Py - heightScalar / of_Z 2.
End Formulas.
End ViewportTransform.



(** [this.renderThreads[i]], and the columns that task still has to hand
    over. *)
Definition task {num : Type} (w : World.t num) (i : nat) : option (Worker.t num) :=
  h <- nth_error (Mandelbrot.renderThreads (World.this w)) i ;;
  nth_error (World.workers w) h.



(** Two workers, five columns, over binary64. *)
Definition striped_config : rConfig.t float :=
  rConfig.mk (num := float) Null 2 (F64.of_int 1) 5 1
             (F64.of_int 0) (F64.of_int 0) 2 None.

Definition fresh_world (width height : Z) : World.t float :=
  World.init (Canvas2D.mk (num := float) width height [] [] O) true 8%nat.

(** The callback of [_renderDirect] without its clock: what it draws and
    assigns, column after column. *)
Fixpoint draw_columns {num : Type} {N : Number num} {M : MathLib num}
    (msgs : list (Msg.t num)) (w : World.t num) : World.t num * option error :=
  match msgs with
  | [] => (w, None)
  | toRender :: rest =>
      match draw_line (World.generation w) (Msg.Px toRender) 0
              (Msg.line toRender) w with
      | (w1, Some e) => (w1, Some e)
      | (w1, None) =>
          draw_columns rest
            (World.set_this
               (Mandelbrot.set_heightScalar (received_heightScalar toRender)
                  (World.this w1)) w1)
      end
  end.

(** [_renderDirect] without its clock. *)
Definition direct_columns {num : Type} {N : Number num} {M : MathLib num}
    (c : rConfig.t num) (w : World.t num) : World.t num * option error :=
  let c := rConfig.set_xInit 0 (rConfig.set_xSkip 1 c) in
  match _baseRender (columns_fuel c) c true with
  | Some msgs => draw_columns msgs w
  | None => (w, None)
  end.

(** The pixels written since the last [clearBuffer], oldest first, without
    the ghost tags. *)
Definition framebuffer {num : Type} (w : World.t num) : list (option (Pixel.t num)) :=
  map snd (rev (Canvas2D.buffer (World.canvas2d w))).

(** The end-to-end scenario: a 4x4 canvas, 50 iterations, scale 1, no pan,
    one task, the [WHITE] shader and the sequential strategy. *)
Definition scenario (has_Worker : bool) : World.t float :=
  World.set_this
    (Mandelbrot.configure 50 (F64.of_int 1) (F64.of_int 0) (F64.of_int 0)
       1 WHITE false Mandelbrot.constructor)
    (World.init (Canvas2D.mk (num := float) 4 4 [] [] O) has_Worker 8%nat).

(** The [WHITE] pixel of a point that left the loop after [k] of [K]
    iterations ([k = 0]: it did not leave it). *)
Definition white_pixel (x y k K : Z) : option (Pixel.t float) :=
  let v := PrimFloat.mul (F64.of_int 255)
             (PrimFloat.div (F64.of_int k) (F64.of_int K)) in
  Some (Pixel.mk x y v v v (F64.of_int 255)).

Definition scenario_framebuffer : list (option (Pixel.t float)) :=
  [ white_pixel 0 0 1 50; white_pixel 0 1 1 50;
    white_pixel 0 2 1 50; white_pixel 0 3 1 50;
    white_pixel 1 0 1 50; white_pixel 1 1 3 50;
    white_pixel 1 2 0 50; white_pixel 1 3 3 50;
    white_pixel 2 0 2 50; white_pixel 2 1 4 50;
    white_pixel 2 2 0 50; white_pixel 2 3 4 50;
    white_pixel 3 0 2 50; white_pixel 3 1 5 50;
    white_pixel 3 2 0 50; white_pixel 3 3 5 50 ].

(** The configuration [render] builds from the object and its canvas. *)
Definition render_config {num : Type} (w : World.t num) : rConfig.t num :=
  let m := World.this w in
  let c := World.canvas2d w in
  rConfig.mk (Mandelbrot.heightScalar m) (Mandelbrot.iterations m)
             (Mandelbrot.scale m) (Canvas2D.getWidth c) (Canvas2D.getHeight c)
             (Mandelbrot.xDelta m) (Mandelbrot.yDelta m)
             (Mandelbrot.parallelism m) None.

(** A request with an iteration cap of zero, on a 2x1 canvas. *)
Definition zero_cap_world : World.t XR.xreal :=
  World.set_this
    (Mandelbrot.configure 0 (XR.Fin 1) (XR.Fin 0) (XR.Fin 0) 2 BLUE true
       Mandelbrot.constructor)
    (World.init (Canvas2D.mk (num := XR.xreal) 2 1 [] [] O) true 8%nat).

(** Generation isolation.  [owned]: every live worker was started by the
    latest [render] call and is listed in [this.renderThreads]; [isolated]:
    moreover every write in the buffer comes from the latest call. *)
Definition owned {num : Type} (ws : list (Worker.t num)) (gen : nat)
    (threads : list nat) : Prop :=
  forall h wk,
    nth_error ws h = Some wk -> Worker.alive wk = true ->
    Worker.gen wk = gen /\ In h threads.

Definition isolated {num : Type} (w : World.t num) : Prop :=
  owned (World.workers w) (World.generation w)
        (Mandelbrot.renderThreads (World.this w))
  /\ Forall (fun entry => fst entry = World.generation w)
            (Canvas2D.buffer (World.canvas2d w)).

Definition parallel_strategy {num : Type} (w : World.t num) : Prop :=
  World.window_Worker w = true
  /\ Mandelbrot.renderParallel (World.this w) = true.

(** Events that leave [renderParallel] set. *)
Definition keeps_parallel {num : Type} (ev : event num) : Prop :=
  match ev with
  | Configure _ _ _ _ _ _ renderParallel => renderParallel = true
  | _ => True
  end.

(** A parallel render on a 1x1 canvas, then a switch to the sequential
    strategy at twice the zoom and a second render, then the arrival of the
    message of the first render's worker. *)
Definition stale_trace : list (event float) :=
  [ Configure 2 (F64.of_int 1) (F64.of_int 0) (F64.of_int 0) 1 WHITE true;
    Render (fun _ => 0);
    Configure 2 (F64.of_int 2) (F64.of_int 0) (F64.of_int 0) 1 WHITE false;
    Render (fun _ => 0);
    Deliver 0 ].

(** The fields of the object that describe the view, which only a client or
    a mouse handler assigns. *)
Definition same_view {num : Type} (m m' : Mandelbrot.t num) : Prop :=
  Mandelbrot.iterations m' = Mandelbrot.iterations m
  /\ Mandelbrot.scale m' = Mandelbrot.scale m
  /\ Mandelbrot.xDelta m' = Mandelbrot.xDelta m
  /\ Mandelbrot.yDelta m' = Mandelbrot.yDelta m
  /\ Mandelbrot.parallelism m' = Mandelbrot.parallelism m
  /\ Mandelbrot.defaultShader m' = Mandelbrot.defaultShader m
  /\ Mandelbrot.shader m' = Mandelbrot.shader m
  /\ Mandelbrot.renderParallel m' = Mandelbrot.renderParallel m.

(** What is on screen, and the size of the canvas. *)
Definition same_screen {num : Type} (c c' : Canvas2D.t num) : Prop :=
  Canvas2D.getWidth c' = Canvas2D.getWidth c
  /\ Canvas2D.getHeight c' = Canvas2D.getHeight c
  /\ Canvas2D.shown c' = Canvas2D.shown c
  /\ Canvas2D.flushes c' = Canvas2D.flushes c.

(** The columns [x, x+s, x+2s, ...] below [W], in this order. *)
Definition columns_of (x s W : Z) : list Z :=
  map (fun k => x + Z.of_nat k * s) (seq 0 (Z.to_nat ((W - x + s - 1) / s))).

(** Where a buffered write lands. *)
Definition pixel_xy {num : Type} (p : option (Pixel.t num)) : option (Z * Z) :=
  option_map (fun q => (Pixel.x q, Pixel.y q)) p.

(** Where a write lands under shader [mode]: at the pixel itself for the
    two modes that return one, nowhere for a mode that returns [undefined]. *)
Definition xy_of (mode x y : Z) : option (Z * Z) :=
  if (mode =? BLUE) || (mode =? WHITE) then Some (x, y) else None.


(** The shader modes that do not raise. *)
Definition known (mode : Z) : Prop :=
  mode = BLUE \/ mode = WHITE \/ mode = HIST \/ mode = INTHIST.

Definition sequential_strategy {num : Type} (w : World.t num) : Prop :=
  World.window_Worker w && Mandelbrot.renderParallel (World.this w) = false.

(** The object after the size test of [render] (lines 50-53), and the state
    in which [render] dispatches: generation counted, sizes read, buffer
    cleared. *)
Definition synced {num : Type} (w : World.t num) : Mandelbrot.t num :=
  let c := World.canvas2d w in
  let m := World.this w in
  if negb (opt_eqb (Mandelbrot.width m) (Canvas2D.getWidth c))
     || negb (opt_eqb (Mandelbrot.height m) (Canvas2D.getHeight c))
  then Mandelbrot.set_size (Some (Canvas2D.getWidth c))
                           (Some (Canvas2D.getHeight c)) m
  else m.

Definition prepared {num : Type} (w : World.t num) : World.t num :=
  World.set_canvas2d (Canvas2D.clearBuffer (World.canvas2d w))
    (World.set_this (synced w)
       (World.set_generation (S (World.generation w)) w)).

(** A sequential request over exact reals: a 2x1 canvas, three iterations,
    the [BLUE] shader. *)
Definition sequential_world : World.t XR.xreal :=
  World.set_this
    (Mandelbrot.configure 3 (XR.Fin 1) (XR.Fin 0) (XR.Fin 0) 2 BLUE false
       Mandelbrot.constructor)
    (World.init (Canvas2D.mk (num := XR.xreal) 2 1 [] [] O) true 8%nat).


(** The first task of [striped_config], and the first message it posts. *)
Definition striped_worker : Worker.t float := spawn 1 striped_config 0.

Definition striped_message : Msg.t float :=
  Eval vm_compute in
    hd (Msg.mk 0 [] None) (Worker.outbox striped_worker).

(** Page events that leave [renderParallel] set. *)
Definition page_keeps_parallel {num : Type} (ev : page_event num) : Prop :=
  match ev with
  | Inner e => keeps_parallel e
  | _ => True
  end.

(** Every live worker is listed in [this.renderThreads]. *)
Definition tracked {num : Type} (w : World.t num) : Prop :=
  forall h wk,
    nth_error (World.workers w) h = Some wk -> Worker.alive wk = true ->
    In h (Mandelbrot.renderThreads (World.this w)).

(** A parallel render on a 1x1 canvas, a sequential one, and then the
    parallel strategy again with a parallelism of zero. *)
Definition idle_trace : list (page_event float) :=
  [ Inner (Configure 2 (F64.of_int 1) (F64.of_int 0) (F64.of_int 0) 1 WHITE true);
    Inner (Render (fun _ => 0));
    Inner (Configure 2 (F64.of_int 1) (F64.of_int 0) (F64.of_int 0) 1 WHITE false);
    Inner (Render (fun _ => 0));
    Inner (Configure 2 (F64.of_int 1) (F64.of_int 0) (F64.of_int 0) 0 WHITE true) ].

(** Magnitudes of doubles, on their specification: [below E f] says that
    [f] is a zero or a finite double of magnitude below [2^E]. *)
Definition below (E : Z) (f : spec_float) : Prop :=
  match f with
  | S754_zero _ => True
  | S754_finite _ m e => Zdigits2 (Z.pos m) + e <= E
  | _ => False
  end.

(** [f] is finite or infinite, with sign [s]. *)
Definition signed (s : bool) (f : spec_float) : Prop :=
  match f with
  | S754_finite s' _ _ | S754_infinity s' => s' = s
  | _ => False
  end.

Definition positive_finite (f : spec_float) : Prop :=
  match f with
  | S754_finite false _ _ => True
  | _ => False
  end.

(** A stand-in for [Math.log] that stays within 1024: the tangent of the
    logarithm at 1, cut off where it leaves that range. *)
Definition clamped_log (x : float) : float :=
  let y := (x - 1)%float in
  if (abs y <=? 1024)%float then y else 0%float.

(** * Properties *)

(** ** The binary64 reading on a few values *)

(** Integers beyond the machine integers are rounded, not wrapped. *)
Example of_int_2_63 : F64.of_int (2 ^ 63) = 0x1p+63%float.
Proof. vm_compute. reflexivity. Qed.

Example lit_3_5 : lit (num := float) 35 1 = 3.5%float.
Proof. vm_compute. reflexivity. Qed.

Example lit_0_25 : lit (num := float) 25 2 = 0.25%float.
Proof. vm_compute. reflexivity. Qed.

Example rem_997_20 : (of_Z 997 %% of_Z 20)%js = 17%float.
Proof. vm_compute. reflexivity. Qed.

Example rem_5_5_2 : (lit 55 1 %% of_Z 2)%js = 1.5%float.
Proof. vm_compute. reflexivity. Qed.

(** [c = 0.125] stays bounded for 50 iterations; [c = -2.5 - 1.75i] leaves
    after the first one. *)
Example escape_inside :
  escape_intensity 50 (lit 125 3) (of_Z 0) 50 = Some 0%float.
Proof. vm_compute. reflexivity. Qed.

Example escape_outside :
  escape_intensity 50 (lit (-25) 1) (lit (-175) 2) 50
  = Some (PrimFloat.div 1 50).
Proof. vm_compute. reflexivity. Qed.

(** ** The escape-time loop *)

Section EscapeFacts.
Context {num : Type} {N : Number num}.
Local Open Scope js_scope.


Lemma orbit_S (x0 y0 : num) (n : nat) (z : num * num) :
  orbit x0 y0 (S n) z = orbit_step x0 y0 (orbit x0 y0 n z).
Proof.
  revert z; induction n as [|n IH]; intro z; [reflexivity|].
  change (orbit x0 y0 (S (S n)) z) with (orbit x0 y0 (S n) (orbit_step x0 y0 z)).
  rewrite IH. reflexivity.
Qed.

(** With fuel for the iterations still allowed, the loop ends after some
    [n] further iterations; the guard held before each of them, and it
    fails on the point reached unless the cap stopped the loop. *)
Lemma escape_while_spec (x0 y0 : num) (iterations : Z) :
  forall (fuel : nat) (x y : num) (iteration : Z),
    (iteration <= iterations)%Z ->
    (Z.to_nat (iterations - iteration) <= fuel)%nat ->
    exists n : nat,
      escape_while fuel x0 y0 x y iteration iterations
        = Some (iteration + Z.of_nat n)%Z
      /\ (iteration + Z.of_nat n <= iterations)%Z
      /\ (forall j, (j < n)%nat -> inside (orbit x0 y0 j (x, y)) = true)
      /\ ((iteration + Z.of_nat n < iterations)%Z ->
          inside (orbit x0 y0 n (x, y)) = false).
Proof.
  induction fuel as [|fuel IH]; intros x y iteration Hle Hfuel.
  - assert (iteration = iterations) by lia. subst iteration.
    exists O. cbn [escape_while]. rewrite Z.ltb_irrefl, andb_false_r.
    repeat split; try lia. now rewrite Z.add_0_r.
  - cbn [escape_while].
    destruct (x * x + y * y <? of_Z 4) eqn:Hin; cbn [andb].
    + destruct (iteration <? iterations)%Z eqn:Hlt.
      * apply Z.ltb_lt in Hlt.
        destruct (IH (x * x - y * y + x0) (of_Z 2 * x * y + y0) (iteration + 1)%Z)
          as (n & Hrun & Hcap & Hin' & Hout); try lia.
        exists (S n). rewrite Hrun. repeat split; try lia.
        -- f_equal; lia.
        -- intros [|j] Hj; [exact Hin|]. apply Hin'. lia.
        -- intros Hn. apply Hout. lia.
      * apply Z.ltb_ge in Hlt. exists O.
        repeat split; try lia. now rewrite Z.add_0_r.
    + exists O. repeat split; try lia.
      * now rewrite Z.add_0_r.
      * intros _. exact Hin.
Qed.

(** More fuel than needed changes nothing. *)
Lemma escape_while_fuel (x0 y0 : num) (iterations : Z) (fuel : nat)
      (x y : num) (iteration : Z) :
  (iteration <= iterations)%Z ->
  (Z.to_nat (iterations - iteration) <= fuel)%nat ->
  escape_while fuel x0 y0 x y iteration iterations
  = escape_while (Z.to_nat (iterations - iteration)) x0 y0 x y
      iteration iterations.
Proof.
  revert x y iteration.
  induction fuel as [|fuel IH]; intros x y iteration Hle Hfuel.
  - replace (Z.to_nat (iterations - iteration)) with O by lia. reflexivity.
  - destruct (Z.to_nat (iterations - iteration)) as [|k] eqn:Hk.
    + assert (iteration = iterations) by lia. subst.
      cbn [escape_while]. now rewrite Z.ltb_irrefl, andb_false_r.
    + cbn [escape_while].
      destruct ((x * x + y * y <? of_Z 4) && (iteration <? iterations)%Z);
        [|reflexivity].
      rewrite IH by lia.
      replace (Z.to_nat (iterations - (iteration + 1))) with k by lia.
      reflexivity.
Qed.

(** The loop always ends when given [iterations] units of fuel. *)
Lemma escape_intensity_total (x0 y0 : num) (iterations : Z) (fuel : nat) :
  (Z.to_nat iterations <= fuel)%nat ->
  exists v, escape_intensity fuel x0 y0 iterations = Some v.
Proof.
  intros Hfuel. unfold escape_intensity.
  destruct (Z_le_gt_dec 0 iterations) as [Hpos|Hneg].
  - destruct (escape_while_spec x0 y0 iterations fuel (of_Z 0) (of_Z 0) 0%Z)
      as (n & Hrun & _); [lia|rewrite Z.sub_0_r; exact Hfuel|].
    rewrite Hrun. cbn [obind]. eauto.
  - destruct fuel; cbn [escape_while];
      replace (0 <? iterations)%Z with false by (symmetry; apply Z.ltb_ge; lia);
      rewrite andb_false_r; cbn [obind]; eauto.
Qed.

End EscapeFacts.

(** ** Facts about the exact-real reading *)

Module XRFacts.
Import XR.
Local Open Scope R_scope.

Lemma sgn_pos (r : R) : 0 < r -> sgn r = Gt.
Proof.
  intros H. unfold sgn.
  destruct (total_order_T 0 r) as [[Hlt|Heq]|Hgt]; [reflexivity|lra|lra].
Qed.

Lemma sgn_neg (r : R) : r < 0 -> sgn r = Lt.
Proof.
  intros H. unfold sgn.
  destruct (total_order_T 0 r) as [[Hlt|Heq]|Hgt]; [lra|lra|reflexivity].
Qed.

Lemma sgn_zero : sgn 0 = Eq.
Proof.
  unfold sgn.
  destruct (total_order_T 0 0) as [[Hlt|Heq]|Hgt]; [lra|reflexivity|lra].
Qed.

Lemma xdiv_fin (r s : R) : s <> 0 -> xdiv (Fin r) (Fin s) = Fin (r / s).
Proof.
  intros Hs. unfold xdiv.
  destruct (Rtotal_order s 0) as [Hlt|[Heq|Hgt]].
  - now rewrite sgn_neg.
  - contradiction.
  - now rewrite sgn_pos.
Qed.

Lemma xltb_fin (r s : R) : xltb (Fin r) (Fin s) = true <-> r < s.
Proof.
  unfold xltb. destruct (Rlt_dec r s); split; auto; discriminate.
Qed.

Lemma xlog_fin (r : R) : 0 < r -> xlog (Fin r) = Fin (ln r).
Proof. intros H. unfold xlog. now rewrite sgn_pos. Qed.

(** The loop is entered at least once: [0*0 + 0*0 < 4]. *)
Lemma inside_origin :
  inside (Fin 0, Fin 0) = true.
Proof.
  unfold inside. cbn. apply xltb_fin. lra.
Qed.

Lemma IZR_ratio_lt_1 (j K : Z) : (0 <= j < K)%Z -> IZR j / IZR K < 1.
Proof.
  intros [Hj HK].
  assert (0 < IZR K) by (apply IZR_lt; lia).
  assert (IZR j < IZR K) by (apply IZR_lt; lia).
  apply Rmult_lt_reg_r with (IZR K); [assumption|].
  unfold Rdiv. rewrite Rmult_assoc, Rinv_l by lra. lra.
Qed.

End XRFacts.

(** ** Facts about the binary64 reading *)

Section RoundingFacts.

Lemma digits2_pos_bounds (p : positive) :
  2 ^ (Z.pos (digits2_pos p) - 1) <= Z.pos p < 2 ^ Z.pos (digits2_pos p).
Proof.
  induction p as [p IH|p IH|]; cbn [digits2_pos].
  - rewrite Pos2Z.inj_succ, Z.pow_succ_r by lia.
    replace (Z.succ (Z.pos (digits2_pos p)) - 1)
      with (Z.succ (Z.pos (digits2_pos p) - 1)) by lia.
    rewrite Z.pow_succ_r by lia. lia.
  - rewrite Pos2Z.inj_succ, Z.pow_succ_r by lia.
    replace (Z.succ (Z.pos (digits2_pos p)) - 1)
      with (Z.succ (Z.pos (digits2_pos p) - 1)) by lia.
    rewrite Z.pow_succ_r by lia. lia.
  - cbn. lia.
Qed.

Lemma Zdigits2_nonneg (m : Z) : 0 <= m -> 0 <= Zdigits2 m.
Proof. destruct m; cbn; lia. Qed.

Lemma Zdigits2_bounds (m : Z) :
  0 < m -> 2 ^ (Zdigits2 m - 1) <= m < 2 ^ Zdigits2 m.
Proof.
  destruct m as [|p|p]; try lia. intros _. apply digits2_pos_bounds.
Qed.

(** [m < 2^k] bounds the number of digits by [k]. *)
Lemma Zdigits2_le (m k : Z) : 0 <= k -> 0 <= m < 2 ^ k -> Zdigits2 m <= k.
Proof.
  intros Hk [H0 Hm].
  destruct (Z.eq_dec m 0) as [->|Hne]; [cbn; lia|].
  destruct (Zdigits2_bounds m) as [Hlo _]; [lia|].
  destruct (Z_le_gt_dec (Zdigits2 m) k) as [|Hgt]; [assumption|exfalso].
  assert (2 ^ k <= 2 ^ (Zdigits2 m - 1)) by (apply Z.pow_le_mono_r; lia).
  lia.
Qed.

Lemma Zdigits2_gt (m k : Z) : 0 <= k -> 2 ^ k <= m -> k < Zdigits2 m.
Proof.
  intros Hk Hm.
  assert (0 < 2 ^ k) by (apply Z.pow_pos_nonneg; lia).
  destruct (Zdigits2_bounds m) as [_ Hhi]; [lia|].
  destruct (Z_lt_ge_dec k (Zdigits2 m)) as [|Hge]; [assumption|exfalso].
  assert (2 ^ Zdigits2 m <= 2 ^ k)
    by (apply Z.pow_le_mono_r; [lia|lia]).
  lia.
Qed.

Lemma shr_1_m (r : shr_record) : 0 <= shr_m r -> shr_m (shr_1 r) = shr_m r / 2.
Proof.
  destruct r as [m rb sb]. cbn [shr_m]. intros Hm.
  destruct m as [|[p|p|]|p]; cbn [shr_1 shr_m]; try lia.
  - reflexivity.
  - rewrite Pos2Z.inj_xI. apply Z.div_unique with 1; lia.
  - rewrite Pos2Z.inj_xO. apply Z.div_unique with 0; lia.
  - reflexivity.
Qed.

Lemma pow2_xO (p : positive) : 2 ^ Z.pos p~0 = 2 ^ Z.pos p * 2 ^ Z.pos p.
Proof. rewrite <- Z.pow_add_r by lia. f_equal. lia. Qed.

Lemma pow2_xI (p : positive) : 2 ^ Z.pos p~1 = 2 * (2 ^ Z.pos p * 2 ^ Z.pos p).
Proof.
  rewrite <- Z.pow_add_r, <- Z.pow_succ_r by lia. f_equal. lia.
Qed.

Lemma iter_pos_shr_m (p : positive) :
  forall r : shr_record,
    0 <= shr_m r ->
    shr_m (SpecFloat.iter_pos shr_1 p r) = shr_m r / 2 ^ Z.pos p.
Proof.
  induction p as [p IH|p IH|]; intros r Hr; cbn [SpecFloat.iter_pos].
  - assert (H1 : 0 <= shr_m (shr_1 r))
      by (rewrite shr_1_m by assumption; apply Z.div_pos; lia).
    assert (H2 : 0 <= shr_m (SpecFloat.iter_pos shr_1 p (shr_1 r)))
      by (rewrite IH by assumption; apply Z.div_pos; [lia|apply Z.pow_pos_nonneg; lia]).
    assert (P : 0 < 2 ^ Z.pos p) by (apply Z.pow_pos_nonneg; lia).
    rewrite IH, IH, shr_1_m by assumption.
    rewrite !Z.div_div by lia.
    f_equal. rewrite (pow2_xI p). lia.
  - assert (H2 : 0 <= shr_m (SpecFloat.iter_pos shr_1 p r))
      by (rewrite IH by assumption; apply Z.div_pos; [lia|apply Z.pow_pos_nonneg; lia]).
    assert (P : 0 < 2 ^ Z.pos p) by (apply Z.pow_pos_nonneg; lia).
    rewrite IH, IH by assumption.
    rewrite !Z.div_div by lia.
    f_equal. rewrite (pow2_xO p). lia.
  - now rewrite shr_1_m.
Qed.

(** A record without round and sticky bit whose mantissa is even keeps no
    bit when shifted. *)
Lemma shr_1_exact (r : shr_record) :
  0 <= shr_m r -> shr_r r = false -> shr_s r = false -> shr_m r mod 2 = 0 ->
  shr_r (shr_1 r) = false /\ shr_s (shr_1 r) = false.
Proof.
  destruct r as [m rb sb]. cbn [shr_m shr_r shr_s]. intros Hm -> -> Heven.
  destruct m as [|[p|p|]|p]; cbn [shr_1 shr_r shr_s orb]; try lia; try (split; reflexivity).
  - rewrite Pos2Z.inj_xI in Heven. exfalso.
    rewrite Z.add_comm, Z.mul_comm, Z.mod_add in Heven by lia. discriminate.
  - discriminate.
Qed.

Lemma iter_pos_shr_exact (p : positive) :
  forall r : shr_record,
    0 <= shr_m r -> shr_r r = false -> shr_s r = false ->
    shr_m r mod 2 ^ Z.pos p = 0 ->
    shr_r (SpecFloat.iter_pos shr_1 p r) = false /\ shr_s (SpecFloat.iter_pos shr_1 p r) = false.
Proof.
  assert (Hdiv : forall m a b, 0 <= m -> 0 <= a -> 0 <= b ->
            m mod 2 ^ (a + b) = 0 -> m mod 2 ^ a = 0 /\ (m / 2 ^ a) mod 2 ^ b = 0).
  { intros m a b Hm Ha Hb H.
    assert (Pa : 0 < 2 ^ a) by (apply Z.pow_pos_nonneg; lia).
    assert (Pb : 0 < 2 ^ b) by (apply Z.pow_pos_nonneg; lia).
    apply Z.mod_divide in H; [|rewrite Z.pow_add_r by lia; lia].
    destruct H as [q Hq]. rewrite Z.pow_add_r in Hq by lia.
    split.
    - apply Z.mod_divide; [lia|]. exists (q * 2 ^ b). lia.
    - replace m with (q * 2 ^ b * 2 ^ a) by lia.
      rewrite Z.div_mul by lia. apply Z.mod_mul. lia. }
  induction p as [p IH|p IH|]; intros r Hr Hrb Hsb Hmod; cbn [SpecFloat.iter_pos].
  - replace (2 ^ Z.pos p~1) with (2 ^ (1 + (Z.pos p + Z.pos p))) in Hmod
      by (f_equal; lia).
    destruct (Hdiv _ 1 (Z.pos p + Z.pos p) Hr ltac:(lia) ltac:(lia) Hmod) as [H1 H1'].
    change (2 ^ 1) with 2 in H1, H1'.
    destruct (shr_1_exact r Hr Hrb Hsb H1) as [Hr1 Hs1].
    assert (P1 : 0 <= shr_m (shr_1 r))
      by (rewrite shr_1_m by assumption; apply Z.div_pos; lia).
    rewrite <- shr_1_m in H1' by assumption.
    destruct (Hdiv _ (Z.pos p) (Z.pos p) P1 ltac:(lia) ltac:(lia) H1') as [H2 H2'].
    destruct (IH _ P1 Hr1 Hs1 H2) as [Hr2 Hs2].
    assert (P2 : 0 <= shr_m (SpecFloat.iter_pos shr_1 p (shr_1 r)))
      by (rewrite iter_pos_shr_m by assumption; apply Z.div_pos; [lia|apply Z.pow_pos_nonneg; lia]).
    apply IH; try assumption.
    rewrite iter_pos_shr_m by assumption. exact H2'.
  - replace (2 ^ Z.pos p~0) with (2 ^ (Z.pos p + Z.pos p)) in Hmod
      by (f_equal; lia).
    destruct (Hdiv _ (Z.pos p) (Z.pos p) Hr ltac:(lia) ltac:(lia) Hmod) as [H2 H2'].
    destruct (IH _ Hr Hrb Hsb H2) as [Hr2 Hs2].
    assert (P2 : 0 <= shr_m (SpecFloat.iter_pos shr_1 p r))
      by (rewrite iter_pos_shr_m by assumption; apply Z.div_pos; [lia|apply Z.pow_pos_nonneg; lia]).
    apply IH; try assumption.
    rewrite iter_pos_shr_m by assumption. exact H2'.
  - apply shr_1_exact; assumption.
Qed.

Lemma round_nearest_even_range (m : Z) (l : location) :
  round_nearest_even m l = m \/ round_nearest_even m l = m + 1.
Proof.
  destruct l as [|[| |]]; cbn [round_nearest_even]; auto.
  destruct (Z.even m); auto.
Qed.

Lemma loc_of_shr_record_of_loc (m : Z) (l : location) :
  loc_of_shr_record (shr_record_of_loc m l) = l.
Proof. destruct l as [|[| |]]; reflexivity. Qed.

Lemma shr_m_of_loc (m : Z) (l : location) : shr_m (shr_record_of_loc m l) = m.
Proof. destruct l as [|[| |]]; reflexivity. Qed.

(** One alignment step: the mantissa is cut at the exponent [fexp] asks for,
    and nothing is lost where nothing had to be cut. *)
Lemma shr_fexp_spec (m e : Z) (l : location) :
  0 <= m ->
  let e1 := Z.max e (fexp prec emax (Zdigits2 m + e)) in
  exists r,
    shr_fexp prec emax m e l = (r, e1)
    /\ shr_m r = m / 2 ^ (e1 - e)
    /\ (l = loc_Exact -> m mod 2 ^ (e1 - e) = 0 ->
        loc_of_shr_record r = loc_Exact).
Proof.
  intros Hm e1. unfold shr_fexp, shr.
  destruct (fexp prec emax (Zdigits2 m + e) - e) as [|p|p] eqn:En.
  - assert (He : e1 = e) by (unfold e1; lia).
    exists (shr_record_of_loc m l). rewrite He, Z.sub_diag, Z.pow_0_r, Z.div_1_r.
    split; [reflexivity|]. split; [apply shr_m_of_loc|].
    intros -> _. reflexivity.
  - assert (He : e1 = e + Z.pos p) by (unfold e1; lia).
    exists (SpecFloat.iter_pos shr_1 p (shr_record_of_loc m l)).
    rewrite He. replace (e + Z.pos p - e) with (Z.pos p) by lia.
    split; [reflexivity|]. split.
    + rewrite iter_pos_shr_m; rewrite shr_m_of_loc; [reflexivity|exact Hm].
    + intros -> Hmod.
      destruct (iter_pos_shr_exact p (shr_record_of_loc m loc_Exact))
        as [Hr Hs]; try reflexivity; try assumption.
      destruct (SpecFloat.iter_pos shr_1 p (shr_record_of_loc m loc_Exact)) as [m' rb sb].
      cbn in Hr, Hs. subst. reflexivity.
  - assert (He : e1 = e) by (unfold e1; lia).
    exists (shr_record_of_loc m l). rewrite He, Z.sub_diag, Z.pow_0_r, Z.div_1_r.
    split; [reflexivity|]. split; [apply shr_m_of_loc|].
    intros -> _. reflexivity.
Qed.

(** What [fexp] cuts leaves at most 53 digits, at an exponent of [emin] or
    more. *)
Lemma cut_small (m e : Z) :
  0 <= m ->
  let e1 := Z.max e (fexp prec emax (Zdigits2 m + e)) in
  0 <= m / 2 ^ (e1 - e) < 2 ^ 53 /\ e <= e1 /\ -1074 <= e1.
Proof.
  intros Hm e1.
  assert (He : e <= e1) by (unfold e1; lia).
  assert (Hmin : -1074 <= e1) by (unfold e1, fexp, emin, emax, prec; lia).
  assert (Hd : Zdigits2 m - 53 <= e1 - e) by (unfold e1, fexp, prec; lia).
  assert (P : 0 < 2 ^ (e1 - e)) by (apply Z.pow_pos_nonneg; lia).
  split; [|split; assumption]. split; [apply Z.div_pos; lia|].
  destruct (Z.eq_dec m 0) as [->|Hne].
  - rewrite Z.div_0_l by lia. lia.
  - destruct (Zdigits2_bounds m) as [_ Hhi]; [lia|].
    apply Z.div_lt_upper_bound; [exact P|].
    destruct (Z_le_gt_dec (Zdigits2 m) 53) as [Hle|Hgt].
    + assert (2 ^ Zdigits2 m <= 2 ^ 53) by (apply Z.pow_le_mono_r; lia).
      nia.
    + assert (2 ^ (Zdigits2 m - 53) <= 2 ^ (e1 - e))
        by (apply Z.pow_le_mono_r; lia).
      assert (2 ^ Zdigits2 m = 2 ^ (Zdigits2 m - 53) * 2 ^ 53)
        by (rewrite <- Z.pow_add_r by lia; f_equal; lia).
      nia.
Qed.

(** The rounding of [binary_round_aux], in one statement: the mantissa is
    cut at [e1], moved up by at most one unit, and renormalised when that
    carries into the 54th digit. *)
Lemma binary_round_aux_spec (s : bool) (m e : Z) (l : location) :
  0 <= m ->
  let e1 := Z.max e (fexp prec emax (Zdigits2 m + e)) in
  let m1 := m / 2 ^ (e1 - e) in
  exists m2,
    (m2 = m1 \/ m2 = m1 + 1)
    /\ (l = loc_Exact -> m mod 2 ^ (e1 - e) = 0 -> m2 = m1)
    /\ ((m2 = 0 /\ binary_round_aux prec emax s m e l = S754_zero s)
        \/ (0 < m2 < 2 ^ 53
            /\ binary_round_aux prec emax s m e l
               = if e1 <=? 971 then S754_finite s (Z.to_pos m2) e1
                 else S754_infinity s)
        \/ (m2 = 2 ^ 53
            /\ binary_round_aux prec emax s m e l
               = if e1 + 1 <=? 971 then S754_finite s (Z.to_pos (2 ^ 52)) (e1 + 1)
                 else S754_infinity s)).
Proof.
  intros Hm e1 m1.
  destruct (cut_small m e Hm) as ([Hm1 Hm1'] & He & Hmin). fold e1 in Hm1, Hm1', He, Hmin.
  fold m1 in Hm1, Hm1'.
  destruct (shr_fexp_spec m e l Hm) as (r & Hshr & Hr & Hexact).
  fold e1 in Hshr, Hr, Hexact. fold m1 in Hr.
  unfold binary_round_aux. rewrite Hshr.
  set (m2 := round_nearest_even (shr_m r) (loc_of_shr_record r)).
  assert (Hm2 : m2 = m1 \/ m2 = m1 + 1)
    by (unfold m2; rewrite <- Hr; apply round_nearest_even_range).
  assert (Hm2' : l = loc_Exact -> m mod 2 ^ (e1 - e) = 0 -> m2 = m1).
  { intros Hl Hmod. unfold m2. rewrite (Hexact Hl Hmod), <- Hr. reflexivity. }
  exists m2. split; [exact Hm2|]. split; [exact Hm2'|].
  assert (Hpos : 0 <= m2) by lia.
  destruct (shr_fexp_spec m2 e1 loc_Exact Hpos) as (r2 & Hshr2 & Hr2 & _).
  rewrite Hshr2.
  assert (Hfexp : forall d, fexp prec emax (d + e1) = Z.max (d + e1 - 53) (-1074))
    by (intros d; reflexivity).
  destruct (Z.eq_dec m2 0) as [H0|H0]; [|destruct (Z.eq_dec m2 (2 ^ 53)) as [H53|H53]].
  - left. split; [exact H0|].
    rewrite H0 in Hr2. rewrite Z.div_0_l in Hr2
      by (apply Z.pow_nonzero; [lia|cbn [Zdigits2]; rewrite Hfexp; lia]).
    now rewrite Hr2.
  - right. right. split; [exact H53|].
    assert (Hd : Zdigits2 m2 = 54).
    { rewrite H53. reflexivity. }
    rewrite Hd, Hfexp in Hr2 |- *.
    replace (Z.max e1 (Z.max (54 + e1 - 53) (-1074))) with (e1 + 1) in Hr2 |- * by lia.
    replace (e1 + 1 - e1) with 1 in Hr2 by lia.
    rewrite H53 in Hr2. change (2 ^ 53 / 2 ^ 1) with (2 ^ 52) in Hr2.
    rewrite Hr2. reflexivity.
  - right. left. split; [lia|].
    assert (Hd : Zdigits2 m2 <= 53) by (apply Zdigits2_le; lia).
    rewrite Hfexp in Hr2 |- *.
    replace (Z.max e1 (Z.max (Zdigits2 m2 + e1 - 53) (-1074))) with e1 in Hr2 |- * by lia.
    rewrite Z.sub_diag, Z.pow_0_r, Z.div_1_r in Hr2. rewrite Hr2.
    destruct m2 as [|p2|p2]; try lia. reflexivity.
Qed.

Lemma iter_xO (m d : positive) : Z.pos (Pos.iter xO m d) = Z.pos m * 2 ^ Z.pos d.
Proof.
  change (Pos.iter xO m d) with (shift_pos d m).
  rewrite shift_pos_correct. change (Z.pow_pos 2 d) with (2 ^ Z.pos d). lia.
Qed.

(** [binary_round] first moves the mantissa to the exponent [fexp] asks
    for when that is smaller; the value is the same. *)
Lemma binary_round_shl (s : bool) (p : positive) (e : Z) :
  let k := Z.max 0 (e - fexp prec emax (Z.pos (digits2_pos p) + e)) in
  binary_round prec emax s p e
  = binary_round_aux prec emax s (Z.pos p * 2 ^ k) (e - k) loc_Exact.
Proof.
  intros k. unfold binary_round, shl_align.
  destruct (fexp prec emax (Z.pos (digits2_pos p) + e) - e) as [|d|d] eqn:Ed.
  - replace k with 0 by (unfold k; lia).
    rewrite Z.pow_0_r, Z.mul_1_r, Z.sub_0_r. reflexivity.
  - replace k with 0 by (unfold k; lia).
    rewrite Z.pow_0_r, Z.mul_1_r, Z.sub_0_r. reflexivity.
  - replace k with (Z.pos d) by (unfold k; lia).
    rewrite iter_xO.
    replace (fexp prec emax (Z.pos (digits2_pos p) + e)) with (e - Z.pos d) by lia.
    reflexivity.
Qed.

Lemma Zdigits2_shift (m k : Z) :
  0 < m -> 0 <= k -> Zdigits2 (m * 2 ^ k) = Zdigits2 m + k.
Proof.
  intros Hm Hk.
  destruct (Zdigits2_bounds m Hm) as [Hlo Hhi].
  assert (P : 0 < 2 ^ k) by (apply Z.pow_pos_nonneg; lia).
  assert (Hd : 0 < Zdigits2 m) by (destruct m; cbn in *; lia).
  apply Z.le_antisymm.
  - apply Zdigits2_le; [lia|]. rewrite Z.pow_add_r by lia. nia.
  - assert (Zdigits2 m + k - 1 < Zdigits2 (m * 2 ^ k)); [|lia].
    apply Zdigits2_gt; [lia|].
    replace (Zdigits2 m + k - 1) with (Zdigits2 m - 1 + k) by lia.
    rewrite Z.pow_add_r by lia. nia.
Qed.

(** An integer below [2^53] is a double: its mantissa is the integer
    moved up to 53 digits. *)
Lemma of_int_small (z : Z) :
  0 < z < 2 ^ 53 ->
  Prim2SF (F64.of_int z)
  = S754_finite false (Z.to_pos (z * 2 ^ (53 - Zdigits2 z))) (Zdigits2 z - 53).
Proof.
  intros [Hz0 Hz].
  assert (Hd : 0 < Zdigits2 z <= 53).
  { split; [destruct z; cbn in *; lia|apply Zdigits2_le; lia]. }
  unfold F64.of_int.
  replace (Z.abs z <? 2 ^ 63) with true by (symmetry; apply Z.ltb_lt; lia).
  replace (z <? 0) with false by (symmetry; apply Z.ltb_ge; lia).
  rewrite of_uint63_spec, Uint63.of_Z_spec.
  rewrite Z.mod_small by (change Uint63.wB with (2 ^ 63); lia).
  destruct z as [|p|p]; try lia.
  cbn [binary_normalize]. rewrite binary_round_shl.
  change (Z.pos (digits2_pos p)) with (Zdigits2 (Z.pos p)) in *.
  set (d := Zdigits2 (Z.pos p)) in *.
  assert (Hfexp : fexp prec emax (d + 0) = d - 53)
    by (unfold fexp, emin, emax, prec; lia).
  rewrite Hfexp.
  replace (Z.max 0 (0 - (d - 53))) with (53 - d) by lia.
  replace (0 - (53 - d)) with (d - 53) by lia.
  set (m := Z.pos p * 2 ^ (53 - d)).
  assert (Hdm : Zdigits2 m = 53)
    by (unfold m; rewrite Zdigits2_shift by lia; fold d; lia).
  assert (Hm : 0 < m) by (unfold m; assert (0 < 2 ^ (53 - d)) by (apply Z.pow_pos_nonneg; lia); nia).
  destruct (binary_round_aux_spec false m (d - 53) loc_Exact ltac:(lia))
    as (m2 & _ & Hexact & Hres).
  rewrite Hdm in Hexact, Hres.
  assert (He1 : Z.max (d - 53) (fexp prec emax (53 + (d - 53))) = d - 53)
    by (unfold fexp, emin, emax, prec; lia).
  rewrite He1, Z.sub_diag, Z.pow_0_r, Z.div_1_r in *.
  specialize (Hexact eq_refl (Z.mod_1_r m)). subst m2.
  destruct (Zdigits2_bounds m Hm) as [_ Hhi]. rewrite Hdm in Hhi.
  destruct Hres as [[H0 _]|[[_ ->]|[H53 _]]]; try lia.
  replace (d - 53 <=? 971) with true by (symmetry; apply Z.leb_le; lia).
  reflexivity.
Qed.




End RoundingFacts.

Section QuotientFacts.



End QuotientFacts.

(** The rounding of the guard is visible: at this point the double of the
    sum [x*x + y*y] after the first iteration is 4, where the exact sum is
    below 4 ([guard_sum_below_4_exactly]); the loop is left after one
    iteration and the intensity is 1/2. *)
Example guard_sum_rounds_to_4 :
  inside (orbit 0x1.fffffffffffffp+0%float 0x1.cp-26%float 1
            (0%float, 0%float)) = false
  /\ escape_intensity 2 0x1.fffffffffffffp+0%float 0x1.cp-26%float 2
     = Some 0.5%float.
Proof. split; vm_compute; reflexivity. Qed.



(** X22.  Over exact reals with the IEEE special values: for every point
    [(x0, y0)] and every cap [K >= 1] the evaluator ends; it performs some
    [n] iterations with [1 <= n <= K], the guard [|z|^2 < 4] having held before
    each of them and failing after the [n]-th unless [n = K]; the intensity is
    [0] when [n = K] and [n/K] otherwise; so it is [0] or some [j/K] with
    [1 <= j <= K-1], and it is never [1]. *)
Theorem escape_intensity_values_exact (x0 y0 : XR.xreal) (K : Z) (fuel : nat) :
  (1 <= K)%Z ->
  (Z.to_nat K <= fuel)%nat ->
  exists (n : nat) (v : XR.xreal),
    escape_intensity fuel x0 y0 K = Some v
    /\ (1 <= Z.of_nat n <= K)%Z
    /\ (forall j, (j < n)%nat ->
          inside (orbit x0 y0 j (XR.Fin 0, XR.Fin 0)) = true)
    /\ ((Z.of_nat n < K)%Z ->
          inside (orbit x0 y0 n (XR.Fin 0, XR.Fin 0)) = false)
    /\ (Z.of_nat n = K -> v = XR.Fin 0)
    /\ ((Z.of_nat n < K)%Z -> v = XR.Fin (IZR (Z.of_nat n) / IZR K))
    /\ (v = XR.Fin 0
        \/ exists j : Z, (1 <= j <= K - 1)%Z /\ v = XR.Fin (IZR j / IZR K))
    /\ v <> XR.Fin 1.
Proof.
  intros HK Hfuel.
  destruct (escape_while_spec x0 y0 K fuel
              (XR.Fin 0) (XR.Fin 0) 0%Z)
    as (n & Hrun & Hcap & Hin & Hout); [lia|rewrite Z.sub_0_r; exact Hfuel|].
  rewrite Z.add_0_l in Hrun, Hcap, Hout.
  assert (Hn : (1 <= Z.of_nat n)%Z).
  { destruct n as [|n]; [|lia]. exfalso.
    assert (H : inside (XR.Fin 0, XR.Fin 0) = false)
      by (apply Hout; lia).
    rewrite XRFacts.inside_origin in H. discriminate. }
  assert (HKR : IZR K <> 0%R) by (apply not_0_IZR; lia).
  set (m := if (Z.of_nat n =? K)%Z then 0%Z else Z.of_nat n).
  assert (Hv : escape_intensity fuel x0 y0 K
               = Some (XR.Fin (IZR m / IZR K))).
  { unfold escape_intensity. change (@of_Z XR.xreal XR.number 0) with (XR.Fin 0).
    rewrite Hrun. cbn [obind]. f_equal. fold m.
    cbn. apply XRFacts.xdiv_fin. exact HKR. }
  exists n, (XR.Fin (IZR m / IZR K)).
  assert (Hzero : (IZR 0 / IZR K = 0)%R) by (unfold Rdiv; ring).
  repeat split; try assumption; try lia.
  - intros Heq. unfold m. apply Z.eqb_eq in Heq. rewrite Heq.
    now rewrite Hzero.
  - intros Hlt. unfold m.
    replace (Z.of_nat n =? K)%Z with false
      by (symmetry; apply Z.eqb_neq; lia).
    reflexivity.
  - unfold m. destruct (Z.of_nat n =? K)%Z eqn:E.
    + left. now rewrite Hzero.
    + right. apply Z.eqb_neq in E. exists (Z.of_nat n). split; [lia|reflexivity].
  - intros Hone. injection Hone as Hone.
    assert (IZR m / IZR K < 1)%R.
    { apply XRFacts.IZR_ratio_lt_1. unfold m.
      destruct (Z.of_nat n =? K)%Z eqn:E; [lia|].
      apply Z.eqb_neq in E. lia. }
    lra.
Qed.

Lemma escape_intensity_values_exact_witness :
  (1 <= 5)%Z /\ (Z.to_nat 5 <= 5)%nat /\
  exists (n : nat) (v : XR.xreal),
    escape_intensity 5 (XR.Fin 2) (XR.Fin 0) 5 = Some v
    /\ (1 <= Z.of_nat n <= 5)%Z
    /\ (forall j, (j < n)%nat ->
          inside
            (orbit (XR.Fin 2) (XR.Fin 0) j (XR.Fin 0, XR.Fin 0)) = true)
    /\ ((Z.of_nat n < 5)%Z ->
          inside
            (orbit (XR.Fin 2) (XR.Fin 0) n (XR.Fin 0, XR.Fin 0)) = false)
    /\ (Z.of_nat n = 5%Z -> v = XR.Fin 0)
    /\ ((Z.of_nat n < 5)%Z -> v = XR.Fin (IZR (Z.of_nat n) / IZR 5))
    /\ (v = XR.Fin 0
        \/ exists j : Z, (1 <= j <= 5 - 1)%Z /\ v = XR.Fin (IZR j / IZR 5))
    /\ v <> XR.Fin 1.
Proof.
  split; [lia|]. split; [simpl; lia|].
  apply (escape_intensity_values_exact (XR.Fin 2) (XR.Fin 0) 5 5); simpl; lia.
Defined.

(** ** The viewport transform *)


Section BaseRenderFacts.
Context {num : Type} {N : Number num}.


Lemma mapM_length {A B : Type} (f : A -> option B) (l : list A) (l' : list B) :
  mapM f l = Some l' -> List.length l' = List.length l.
Proof.
  revert l'. induction l as [|a0 l IH]; intros l' Hm; cbn [mapM] in Hm.
  - injection Hm as <-. reflexivity.
  - destruct (f a0) as [b0|]; cbn [obind] in Hm; [|discriminate].
    destruct (mapM f l) as [bs|] eqn:Hbs; cbn [obind] in Hm; [|discriminate].
    injection Hm as <-. cbn [List.length]. f_equal. now apply IH.
Qed.

Lemma mapM_total {A B : Type} (f : A -> option B) (l : list A) :
  (forall a, In a l -> exists b, f a = Some b) ->
  exists l', mapM f l = Some l'.
Proof.
  induction l as [|a0 l IH]; intros Hf; cbn [mapM]; [eauto|].
  destruct (Hf a0 (or_introl eq_refl)) as [b0 ->].
  destruct IH as [bs ->]; [intros a Ha; apply Hf; now right|].
  cbn [obind]. eauto.
Qed.

Lemma range_nth (n Py : Z) :
  0 <= Py < n -> nth_error (range n) (Z.to_nat Py) = Some Py.
Proof.
  intros H. unfold range.
  rewrite nth_error_map, nth_error_seq.
  destruct (Nat.ltb_spec (Z.to_nat Py) (Z.to_nat n)); [|lia].
  cbn. f_equal. lia.
Qed.

Lemma range_In (n k : Z) : In k (range n) <-> 0 <= k < n.
Proof.
  unfold range. rewrite in_map_iff. split.
  - intros (j & <- & Hj). apply in_seq in Hj. lia.
  - intros H. exists (Z.to_nat k). split; [lia|]. apply in_seq. lia.
Qed.

Lemma range_length (n : Z) : List.length (range n) = Z.to_nat n.
Proof. unfold range. now rewrite length_map, length_seq. Qed.


End BaseRenderFacts.


(** ** Column striping *)

Section ColumnFacts.
Context {num : Type} {N : Number num}.

Lemma _baseRender_pixel_total (e : rConfig.t num) (ws hs : num) (Px Py : Z) :
  exists v,
    _baseRender_pixel (Z.to_nat (rConfig.iterations e)) e ws hs Px Py = Some v.
Proof. unfold _baseRender_pixel. apply escape_intensity_total. lia. Qed.

(** With a positive stride the loop over [Px] ends within [width - Px]
    rounds; it visits [Px, Px + xSkip, ...] below [width], each once. *)
Lemma _baseRender_columns_total (e : rConfig.t num) (cb : bool) (ws hs : num) :
  1 <= rConfig.xSkip e ->
  forall (fuel : nat) (Px : Z),
    (Z.to_nat (rConfig.width e - Px) <= fuel)%nat ->
    exists msgs,
      _baseRender_columns fuel e cb ws hs Px = Some msgs
      /\ (forall c, In c (map Msg.Px msgs) <->
            exists k, 0 <= k /\ c = Px + k * rConfig.xSkip e
                      /\ c < rConfig.width e)
      /\ NoDup (map Msg.Px msgs).
Proof.
  intros Hskip.
  induction fuel as [|fuel IH]; intros Px Hfuel; cbn [_baseRender_columns];
    destruct (Px <? rConfig.width e) eqn:Hlt;
    try (apply Z.ltb_lt in Hlt); try (apply Z.ltb_ge in Hlt); try lia.
  - exists []. repeat split; [intros []| |constructor].
    intros (k & Hk & -> & Hc). nia.
  - destruct (mapM_total
                (_baseRender_pixel (Z.to_nat (rConfig.iterations e)) e ws hs Px)
                (range (rConfig.height e))) as [line ->].
    { intros Py _. apply _baseRender_pixel_total. }
    destruct (IH (Px + rConfig.xSkip e)) as (rest & -> & Hcols & Hnd); [lia|].
    cbn [obind]. eexists. split; [reflexivity|].
    cbn [map Msg.Px]. split.
    + intros c. cbn [In]. rewrite Hcols. split.
      * intros [<-|(k & Hk & -> & Hc)].
        -- exists 0. lia.
        -- exists (k + 1). lia.
      * intros (k & Hk & -> & Hc).
        destruct (Z.eq_dec k 0) as [->|Hk0]; [left; lia|].
        right. exists (k - 1). lia.
    + constructor; [|exact Hnd].
      rewrite Hcols. intros (k & Hk & Heq & _). nia.
  - exists []. repeat split; [intros []| |constructor].
    intros (k & Hk & -> & Hc). nia.
Qed.

(** A task set up by [_renderWorkers] or [_renderDirect] always ends. *)
Lemma _baseRender_total (e : rConfig.t num) (cb : bool) :
  1 <= rConfig.xSkip e ->
  exists msgs, _baseRender (columns_fuel e) e cb = Some msgs.
Proof.
  intros Hskip. unfold _baseRender, columns_fuel.
  destruct (rConfig.xInit e) as [xInit|]; [|eauto].
  destruct (_baseRender_columns_total e cb
              (lit 35 1 / rConfig.scale e)%js
              (lit 35 1 * of_Z (rConfig.height e) / of_Z (rConfig.width e)
               / rConfig.scale e)%js Hskip
              (Z.to_nat (rConfig.width e - xInit)) xInit (le_n _))
    as (msgs & -> & _).
  eauto.
Qed.

(** The columns of the task started with [xInit = i]. *)
Lemma spawn_columns (gen : nat) (c : rConfig.t num) (i : Z) :
  1 <= rConfig.xSkip c ->
  let cols := map Msg.Px (Worker.outbox (spawn gen c i)) in
  (forall col, In col cols <->
     exists k, 0 <= k /\ col = i + k * rConfig.xSkip c /\ col < rConfig.width c)
  /\ NoDup cols.
Proof.
  intros Hskip. unfold spawn, _baseRender, columns_fuel.
  cbn [rConfig.set_xInit rConfig.xInit rConfig.width rConfig.xSkip
       rConfig.scale rConfig.height Worker.outbox].
  match goal with
  | |- context [_baseRender_columns ?f ?e ?cb ?ws ?hs ?px] =>
      destruct (_baseRender_columns_total e cb ws hs Hskip f px (le_n _))
        as (msgs & -> & Hcols & Hnd)
  end.
  cbn zeta. split; assumption.
Qed.

End ColumnFacts.



Section WorkerFacts.
Context {num : Type} {N : Number num}.

Lemma update_nth_length {A : Type} (f : A -> A) (l : list A) (n : nat) :
  List.length (update_nth n f l) = List.length l.
Proof.
  revert n. induction l as [|a l IH]; intros [|n]; cbn; auto.
Qed.

Lemma kill_length (hs : list nat) (ws : list (Worker.t num)) :
  List.length (fold_left (fun ws h => update_nth h Worker.terminate ws) hs ws)
  = List.length ws.
Proof.
  revert ws. induction hs as [|h hs IH]; intros ws; cbn [fold_left]; [reflexivity|].
  rewrite IH. apply update_nth_length.
Qed.

Lemma _renderWorkers_threads (c : rConfig.t num) (w : World.t num) :
  List.length (Mandelbrot.renderThreads (World.this (_renderWorkers c w)))
  = Z.to_nat (rConfig.xSkip c).
Proof.
  unfold _renderWorkers. cbn.
  now rewrite length_map, length_seq, length_map, range_length.
Qed.

(** After [_renderWorkers], [this.renderThreads[i]] is the worker that was
    posted the configuration with [xInit = i]. *)
Lemma _renderWorkers_task (c : rConfig.t num) (w : World.t num) (i : Z) :
  0 <= i < rConfig.xSkip c ->
  task (_renderWorkers c w) (Z.to_nat i)
  = Some (spawn (World.generation w) c i).
Proof.
  intros Hi. unfold task, _renderWorkers. cbn.
  set (killed := fold_left _ _ _).
  rewrite nth_error_map, nth_error_seq, length_map, range_length.
  destruct (Nat.ltb_spec (Z.to_nat i) (Z.to_nat (rConfig.xSkip c))); [|lia].
  cbn [option_map obind].
  rewrite nth_error_app2 by lia.
  replace (List.length killed + (0 + Z.to_nat i) - List.length killed)%nat
    with (Z.to_nat i) by lia.
  rewrite nth_error_map, (range_nth _ _ Hi). reflexivity.
Qed.


End WorkerFacts.



(** ** The pixel shader *)

Section ShaderFacts.
Context {num : Type} {N : Number num} {M : MathLib num}.

Lemma _pixelShader_HIST (stack : nat) (defaultShader Px Py : Z) (intensity : num) :
  _pixelShader stack defaultShader Px Py intensity HIST = Normal None.
Proof. destruct stack; reflexivity. Qed.

Lemma _pixelShader_INTHIST (stack : nat) (defaultShader Px Py : Z) (intensity : num) :
  _pixelShader stack defaultShader Px Py intensity INTHIST = Normal None.
Proof. destruct stack; reflexivity. Qed.

Lemma _pixelShader_WHITE (stack : nat) (defaultShader Px Py : Z) (intensity : num) :
  _pixelShader stack defaultShader Px Py intensity WHITE
  = Normal (Some (Pixel.mk Px Py (of_Z 255 * intensity)%js
                    (of_Z 255 * intensity)%js (of_Z 255 * intensity)%js
                    (of_Z 255))).
Proof. destruct stack; reflexivity. Qed.

(** A mode outside the four entries of [shaderModes] reaches the [default]
    case, whose argument list names [intentisty]. *)
Lemma _pixelShader_unknown (stack : nat) (defaultShader Px Py : Z)
      (intensity : num) (mode : Z) :
  mode <> BLUE -> mode <> WHITE -> mode <> HIST -> mode <> INTHIST ->
  _pixelShader stack defaultShader Px Py intensity mode
  = Throw (ReferenceError "intentisty").
Proof.
  intros HB HW HH HI.
  apply Z.eqb_neq in HB, HW, HH, HI.
  destruct stack; cbn [_pixelShader]; rewrite HB, HW, HH, HI; reflexivity.
Qed.

End ShaderFacts.

(** C5: what the code does at the two histogram modes.  Their cases are
    [//TODO] followed by [break]: for every pixel position and every
    intensity the call raises nothing and returns [undefined], where the
    docstring promises a coloured pixel for the modes defined in the
    constructor and the claim asks for an error. *)
Theorem histogram_modes_return_undefined {num : Type} {N : Number num}
    {M : MathLib num} (stack : nat) (defaultShader Px Py : Z) (intensity : num) :
  _pixelShader stack defaultShader Px Py intensity HIST = Normal None
  /\ _pixelShader stack defaultShader Px Py intensity INTHIST = Normal None.
Proof.
  split.
  - destruct stack; cbn [_pixelShader];
      change (HIST =? BLUE) with false; change (HIST =? WHITE) with false;
      change (HIST =? HIST) with true; reflexivity.
  - destruct stack; cbn [_pixelShader];
      change (INTHIST =? BLUE) with false; change (INTHIST =? WHITE) with false;
      change (INTHIST =? HIST) with false; change (INTHIST =? INTHIST) with true;
      reflexivity.
Qed.

(** At pixel (0,0), intensity 1/2 and mode [HIST] the call does not end in
    an error. *)
Lemma histogram_mode_raises_nothing :
  ~ (exists e : error,
       _pixelShader (num := XR.xreal) 8 BLUE 0 0 (XR.Fin (1 / 2)) HIST = Throw e).
Proof.
  intros [e He]. rewrite _pixelShader_HIST in He. discriminate.
Qed.

(** C6: at pixel (0,0), intensity 1/2 and the unknown mode 7, the call ends
    in a [ReferenceError] on [intentisty]; the [BLUE] mode returns a pixel
    there, so the two calls differ. *)
Theorem unknown_mode_throws :
  _pixelShader (num := XR.xreal) 8 BLUE 0 0 (XR.Fin (1 / 2)) 7
    = Throw (ReferenceError "intentisty")
  /\ (exists p, _pixelShader (num := XR.xreal) 8 BLUE 0 0 (XR.Fin (1 / 2)) BLUE
                = Normal (Some p))
  /\ _pixelShader (num := XR.xreal) 8 BLUE 0 0 (XR.Fin (1 / 2)) 7
     <> _pixelShader (num := XR.xreal) 8 BLUE 0 0 (XR.Fin (1 / 2)) BLUE.
Proof.
  assert (H7 : _pixelShader (num := XR.xreal) 8 BLUE 0 0 (XR.Fin (1 / 2)) 7
               = Throw (ReferenceError "intentisty"))
    by (apply _pixelShader_unknown; discriminate).
  split; [exact H7|]. split.
  - eexists. reflexivity.
  - rewrite H7. discriminate.
Qed.

Section BlueOverReals.
Import XR.
Local Open Scope R_scope.

Lemma lit_fin (m : Z) (k : nat) :
  lit (num := xreal) m k = Fin (IZR m / IZR (10 ^ Z.of_nat k)).
Proof.
  unfold lit. cbn [div of_Z number]. apply XRFacts.xdiv_fin.
  apply not_0_IZR. pose proof (Z.pow_pos_nonneg 10 (Z.of_nat k)). lia.
Qed.

(** The coefficient [-1/11.112347]. *)
Lemma blue_slope :
  (of_Z (-1) / lit 11112347 6)%js = Fin (- 1000000 / 11112347).
Proof.
  rewrite lit_fin. cbn [div of_Z number].
  change (10 ^ Z.of_nat 6)%Z with 1000000%Z.
  rewrite XRFacts.xdiv_fin by lra. f_equal. field.
Qed.

Lemma blue_log_arg1_fin (i : R) :
  blue_log_arg1 (Fin i) = Fin (- 1000000 / 11112347 * i + 9 / 100).
Proof.
  unfold blue_log_arg1. rewrite blue_slope, lit_fin.
  change (10 ^ Z.of_nat 2)%Z with 100%Z. reflexivity.
Qed.

Lemma blue_log_arg2_fin (i : R) :
  blue_log_arg2 (Fin i) = Fin (i + 1 / 10000000000).
Proof.
  unfold blue_log_arg2. rewrite lit_fin.
  change (10 ^ Z.of_nat 10)%Z with 10000000000%Z. reflexivity.
Qed.

End BlueOverReals.

(** X23.  Over exact reals: for an intensity [i] with [0 <= i < 1] both
    arguments of [Math.log] in the [BLUE] case are finite and strictly
    positive, and the shader returns a pixel whose [r], [g], [b] are finite
    (no NaN, no infinity), with [r = g], and whose [a] is 255. *)
Theorem blue_shader_well_defined_exact (stack : nat) (defaultShader Px Py : Z) (i : R) :
  (0 <= i < 1)%R ->
  exists a1 a2 r b : R,
    blue_log_arg1 (XR.Fin i) = XR.Fin a1 /\ (0 < a1)%R
    /\ blue_log_arg2 (XR.Fin i) = XR.Fin a2 /\ (0 < a2)%R
    /\ r = (255 * (i * (-1 / 4 * ln a1 - 25 / 100)))%R
    /\ b = (255 * (i * (1 - 24 / 10 * ln a2)))%R
    /\ _pixelShader stack defaultShader Px Py (XR.Fin i) BLUE
       = Normal (Some (Pixel.mk Px Py (XR.Fin r) (XR.Fin r) (XR.Fin b)
                                (XR.Fin 255))).
Proof.
  intros Hi.
  set (a1 := (- 1000000 / 11112347 * i + 9 / 100)%R).
  set (a2 := (i + 1 / 10000000000)%R).
  assert (Ha1 : (0 < a1)%R) by (unfold a1; lra).
  assert (Ha2 : (0 < a2)%R) by (unfold a2; lra).
  exists a1, a2, (255 * (i * (-1 / 4 * ln a1 - 25 / 100)))%R,
         (255 * (i * (1 - 24 / 10 * ln a2)))%R.
  split; [apply blue_log_arg1_fin|]. split; [exact Ha1|].
  split; [apply blue_log_arg2_fin|]. split; [exact Ha2|].
  split; [reflexivity|]. split; [reflexivity|].
  assert (Hshade : _pixelShader stack defaultShader Px Py (XR.Fin i) BLUE
            = Normal (Some (Pixel.mk Px Py
                (of_Z 255 * (XR.Fin i * ((of_Z (-1) / of_Z 4)
                     * Math_log (blue_log_arg1 (XR.Fin i)) - lit 25 2)))%js
                (of_Z 255 * (XR.Fin i * ((of_Z (-1) / of_Z 4)
                     * Math_log (blue_log_arg1 (XR.Fin i)) - lit 25 2)))%js
                (of_Z 255 * (XR.Fin i * (of_Z 1 - lit 24 1
                     * Math_log (blue_log_arg2 (XR.Fin i)))))%js
                (of_Z 255))))
    by (destruct stack; reflexivity).
  rewrite Hshade, blue_log_arg1_fin, blue_log_arg2_fin, !lit_fin.
  fold a1 a2.
  cbn [Math_log XR.math]. rewrite !XRFacts.xlog_fin by assumption.
  cbn [div of_Z XR.number]. rewrite XRFacts.xdiv_fin by lra.
  change (10 ^ Z.of_nat 2)%Z with 100%Z. change (10 ^ Z.of_nat 1)%Z with 10%Z.
  reflexivity.
Qed.

Lemma blue_shader_well_defined_exact_witness :
  (0 <= 1 / 2 < 1)%R /\
  exists a1 a2 r b : R,
    blue_log_arg1 (XR.Fin (1 / 2)) = XR.Fin a1 /\ (0 < a1)%R
    /\ blue_log_arg2 (XR.Fin (1 / 2)) = XR.Fin a2 /\ (0 < a2)%R
    /\ r = (255 * (1 / 2 * (-1 / 4 * ln a1 - 25 / 100)))%R
    /\ b = (255 * (1 / 2 * (1 - 24 / 10 * ln a2)))%R
    /\ _pixelShader 8 BLUE 3 4 (XR.Fin (1 / 2)) BLUE
       = Normal (Some (Pixel.mk 3 4 (XR.Fin r) (XR.Fin r) (XR.Fin b)
                                (XR.Fin 255))).
Proof.
  assert (H : (0 <= 1 / 2 < 1)%R) by lra.
  exact (conj H (blue_shader_well_defined_exact 8 BLUE 3 4 (1 / 2) H)).
Defined.

(** ** The [BLUE] case over doubles *)

Section MagnitudeFacts.

Lemma below_mono (E E' : Z) (f : spec_float) : E <= E' -> below E f -> below E' f.
Proof. destruct f; cbn; try tauto. lia. Qed.

Lemma pow2_split (a b : Z) : 0 <= a -> 0 <= b -> 2 ^ (a + b) = 2 ^ a * 2 ^ b.
Proof. intros. apply Z.pow_add_r; lia. Qed.

(** Rounding a mantissa with [d] digits at exponent [e], [d + e <= E]:
    the result is zero or a double below [2^(E+1)]. *)
Lemma round_below (s : bool) (m e : Z) (l : location) (E : Z) :
  0 <= m -> e <= 971 -> Zdigits2 m + e <= E -> -1074 <= E <= 1022 ->
  below (E + 1) (binary_round_aux prec emax s m e l).
Proof.
  intros Hm He Hd HE.
  destruct (binary_round_aux_spec s m e l Hm) as (m2 & Hm2 & _ & Hres).
  destruct (cut_small m e Hm) as ([Hm1 Hm1'] & Hle & Hmin).
  set (e1 := Z.max e (fexp prec emax (Zdigits2 m + e))) in *.
  set (m1 := m / 2 ^ (e1 - e)) in *.
  assert (He1 : e1 = Z.max e (Z.max (Zdigits2 m + e - 53) (-1074))) by reflexivity.
  assert (Hdm : 0 <= Zdigits2 m) by (apply Zdigits2_nonneg; exact Hm).
  assert (P : 0 < 2 ^ (e1 - e)) by (apply Z.pow_pos_nonneg; lia).
  destruct Hres as [[_ ->]|[[Hr ->]|[H53 ->]]].
  - exact I.
  - replace (e1 <=? 971) with true by (symmetry; apply Z.leb_le; lia).
    cbn [below]. rewrite Z2Pos.id by lia.
    destruct (Z_le_gt_dec (e1 - e) (Zdigits2 m)) as [Hn|Hn].
    + assert (Zdigits2 m2 <= Zdigits2 m - (e1 - e) + 1); [|lia].
      apply Zdigits2_le; [lia|]. split; [lia|].
      assert (Hlt : m1 < 2 ^ (Zdigits2 m - (e1 - e))).
      { destruct (Z.eq_dec m 0) as [->|Hne].
        - unfold m1. rewrite Z.div_0_l by lia. apply Z.pow_pos_nonneg; lia.
        - destruct (Zdigits2_bounds m ltac:(lia)) as [_ Hhi].
          apply Z.div_lt_upper_bound; [exact P|].
          rewrite <- pow2_split by lia.
          replace (e1 - e + (Zdigits2 m - (e1 - e))) with (Zdigits2 m) by lia.
          exact Hhi. }
      rewrite Z.pow_add_r by lia. change (2 ^ 1) with 2. lia.
    + assert (Hz : m1 = 0).
      { destruct (Z.eq_dec m 0) as [->|Hne]; [unfold m1; apply Z.div_0_l; lia|].
        destruct (Zdigits2_bounds m ltac:(lia)) as [_ Hhi].
        apply Z.div_small. split; [lia|].
        assert (2 ^ Zdigits2 m <= 2 ^ (e1 - e)) by (apply Z.pow_le_mono_r; lia).
        lia. }
      assert (m2 = 1) by lia. subst m2. cbn [Zdigits2 digits2_pos]. lia.
  - assert (Hbig : 52 + (e1 - e) < Zdigits2 m).
    { apply Zdigits2_gt; [lia|].
      assert (2 ^ 52 <= m1) by lia.
      rewrite pow2_split by lia.
      pose proof (Z.mul_div_le m (2 ^ (e1 - e)) P). fold m1 in H0. nia. }
    replace (e1 + 1 <=? 971) with true by (symmetry; apply Z.leb_le; lia).
    cbn [below]. change (Zdigits2 (Z.pos (Z.to_pos (2 ^ 52)))) with 53. lia.
Qed.

Lemma SFmul_below (x y : spec_float) (Ex Ey : Z) :
  below Ex x -> below Ey y -> -1074 <= Ex + Ey <= 972 ->
  below (Ex + Ey + 1) (SFmul prec emax x y).
Proof.
  intros Hx Hy HE.
  destruct x as [sx|sx| |sx mx ex], y as [sy|sy| |sy my ey];
    cbn [below] in Hx, Hy; try contradiction; try exact I.
  cbn [SFmul].
  set (dx := Zdigits2 (Z.pos mx)) in *. set (dy := Zdigits2 (Z.pos my)) in *.
  destruct (Zdigits2_bounds (Z.pos mx) ltac:(lia)) as [Hxlo Hxhi].
  destruct (Zdigits2_bounds (Z.pos my) ltac:(lia)) as [Hylo Hyhi].
  fold dx in Hxlo, Hxhi. fold dy in Hylo, Hyhi.
  assert (Hdx : 0 < dx) by reflexivity. assert (Hdy : 0 < dy) by reflexivity.
  apply round_below; try lia.
  assert (Zdigits2 (Z.pos (mx * my)) <= dx + dy); [|lia].
  apply Zdigits2_le; [lia|]. rewrite Pos2Z.inj_mul, pow2_split by lia. nia.
Qed.

Lemma shl_align_fst (m : positive) (e e' : Z) :
  e' <= e -> Z.pos (fst (shl_align m e e')) = Z.pos m * 2 ^ (e - e').
Proof.
  intros He. unfold shl_align.
  destruct (e' - e) as [|d|d] eqn:Ed; cbn [fst].
  - replace (e - e') with 0 by lia. lia.
  - lia.
  - rewrite iter_xO. f_equal. f_equal. lia.
Qed.

Lemma binary_normalize_below (D ez E : Z) :
  Z.abs D < 2 ^ (E - ez) -> ez <= 971 -> ez <= E -> -1074 <= E <= 1022 ->
  below (E + 1) (binary_normalize prec emax D ez false).
Proof.
  intros HD Hez HE HEr.
  assert (Hround : forall s p, Z.pos p < 2 ^ (E - ez) ->
            below (E + 1) (binary_round prec emax s p ez)).
  { intros s p Hp. rewrite binary_round_shl.
    set (k := Z.max 0 _).
    assert (Hk : 0 <= k) by (unfold k; lia).
    assert (Pk : 0 < 2 ^ k) by (apply Z.pow_pos_nonneg; lia).
    apply round_below; try lia.
    rewrite Zdigits2_shift by lia.
    assert (Zdigits2 (Z.pos p) <= E - ez) by (apply Zdigits2_le; lia).
    lia. }
  destruct D as [|p|p]; cbn [binary_normalize]; [exact I| |]; apply Hround; lia.
Qed.

Lemma aligned_sum_below (sx sy : bool) (mx my : positive) (ex ey : Z) (Ex Ey : Z) (op : Z -> Z -> Z) :
  (forall a b, Z.abs (op a b) <= Z.abs a + Z.abs b) ->
  Zdigits2 (Z.pos mx) + ex <= Ex -> Zdigits2 (Z.pos my) + ey <= Ey ->
  -1075 <= Z.max Ex Ey <= 970 ->
  below (Z.max Ex Ey + 2)
    (binary_normalize prec emax
       (op (cond_Zopp sx (Z.pos (fst (shl_align mx ex (Z.min ex ey)))))
           (cond_Zopp sy (Z.pos (fst (shl_align my ey (Z.min ex ey))))))
       (Z.min ex ey) false).
Proof.
  intros Hop Hx Hy HE.
  set (ez := Z.min ex ey). set (M := Z.max Ex Ey) in *.
  rewrite !shl_align_fst by (unfold ez; lia).
  set (dx := Zdigits2 (Z.pos mx)) in *. set (dy := Zdigits2 (Z.pos my)) in *.
  destruct (Zdigits2_bounds (Z.pos mx) ltac:(lia)) as [_ Hxhi].
  destruct (Zdigits2_bounds (Z.pos my) ltac:(lia)) as [_ Hyhi].
  fold dx in Hxhi. fold dy in Hyhi.
  assert (Hdx : 0 < dx) by reflexivity. assert (Hdy : 0 < dy) by reflexivity.
  assert (Px : 0 < 2 ^ (ex - ez)) by (apply Z.pow_pos_nonneg; unfold ez; lia).
  assert (Py : 0 < 2 ^ (ey - ez)) by (apply Z.pow_pos_nonneg; unfold ez; lia).
  assert (Bx : Z.pos mx * 2 ^ (ex - ez) < 2 ^ (M - ez)).
  { apply Z.lt_le_trans with (2 ^ dx * 2 ^ (ex - ez)); [nia|].
    rewrite <- pow2_split by (unfold ez; lia).
    apply Z.pow_le_mono_r; unfold M; lia. }
  assert (By : Z.pos my * 2 ^ (ey - ez) < 2 ^ (M - ez)).
  { apply Z.lt_le_trans with (2 ^ dy * 2 ^ (ey - ez)); [nia|].
    rewrite <- pow2_split by (unfold ez; lia).
    apply Z.pow_le_mono_r; unfold M; lia. }
  replace (M + 2) with (M + 1 + 1) by lia.
  apply binary_normalize_below; try (unfold ez, M in *; lia).
  replace (M + 1 - ez) with (1 + (M - ez)) by lia.
  rewrite pow2_split by (unfold ez, M; lia). change (2 ^ 1) with 2.
  match goal with |- Z.abs (op ?a ?b) < _ => pose proof (Hop a b) as Habs end.
  assert (Ha : forall s v, Z.abs (cond_Zopp s v) = Z.abs v)
    by (intros [|] v; cbn; lia).
  rewrite !Ha in Habs. lia.
Qed.

Lemma SFadd_below (x y : spec_float) (Ex Ey : Z) :
  below Ex x -> below Ey y -> -1075 <= Z.max Ex Ey <= 970 ->
  below (Z.max Ex Ey + 2) (SFadd prec emax x y).
Proof.
  intros Hx Hy HE.
  destruct x as [sx|sx| |sx mx ex], y as [sy|sy| |sy my ey];
    cbn [below] in Hx, Hy; try contradiction.
  - cbn [SFadd]. destruct sx, sy; exact I.
  - cbn [SFadd below]. lia.
  - cbn [SFadd below]. lia.
  - cbn [SFadd]. apply aligned_sum_below; try assumption. intros a b. lia.
Qed.

Lemma SFsub_below (x y : spec_float) (Ex Ey : Z) :
  below Ex x -> below Ey y -> -1075 <= Z.max Ex Ey <= 970 ->
  below (Z.max Ex Ey + 2) (SFsub prec emax x y).
Proof.
  intros Hx Hy HE.
  destruct x as [sx|sx| |sx mx ex], y as [sy|sy| |sy my ey];
    cbn [below] in Hx, Hy; try contradiction.
  - cbn [SFsub]. destruct sx, sy; exact I.
  - cbn [SFsub below]. lia.
  - cbn [SFsub below]. lia.
  - cbn [SFsub]. apply aligned_sum_below; try assumption. intros a b. lia.
Qed.

End MagnitudeFacts.

Section SignFacts.

(** With an exponent of [emin] or more, [binary_round] does not round a
    positive mantissa to zero. *)
Lemma binary_round_signed (s : bool) (p : positive) (e : Z) :
  -1074 <= e -> signed s (binary_round prec emax s p e).
Proof.
  intros He. rewrite binary_round_shl.
  set (d := Z.pos (digits2_pos p)).
  assert (Hfexp : fexp prec emax (d + e) = Z.max (d + e - 53) (-1074)) by reflexivity.
  assert (Hdp : Zdigits2 (Z.pos p) = d) by reflexivity.
  rewrite Hfexp.
  set (k := Z.max 0 (e - Z.max (d + e - 53) (-1074))).
  assert (Hk : 0 <= k) by (unfold k; lia).
  assert (Hd : 0 < d) by reflexivity.
  assert (Pk : 0 < 2 ^ k) by (apply Z.pow_pos_nonneg; lia).
  destruct (digits2_pos_bounds p) as [Hlo Hhi]. fold d in Hlo, Hhi.
  clearbody d.
  destruct (binary_round_aux_spec s (Z.pos p * 2 ^ k) (e - k) loc_Exact ltac:(lia))
    as (m2 & Hm2 & _ & Hres).
  rewrite Zdigits2_shift, Hdp in Hm2, Hres by lia.
  replace (d + k + (e - k)) with (d + e) in Hm2, Hres by lia.
  rewrite Hfexp in Hm2, Hres.
  set (e1 := Z.max (e - k) (Z.max (d + e - 53) (-1074))) in *.
  assert (Hm1 : 1 <= Z.pos p * 2 ^ k / 2 ^ (e1 - (e - k))).
  { assert (Pn : 0 < 2 ^ (e1 - (e - k))) by (apply Z.pow_pos_nonneg; unfold e1; lia).
    apply Z.div_le_lower_bound; [exact Pn|]. rewrite Z.mul_1_r.
    destruct (Z_le_gt_dec (Z.max (d + e - 53) (-1074)) e) as [Hc|Hc].
    - assert (Hn : e1 - (e - k) = 0) by (unfold e1, k; clear - Hc; lia).
      rewrite Hn. change (2 ^ 0) with 1. lia.
    - assert (Hk0 : k = 0) by (unfold k; clear - Hc; lia).
      assert (Hn : e1 - (e - k) <= d - 1)
        by (unfold e1; rewrite Hk0; clear - Hc He Hd; lia).
      rewrite Hk0, Z.pow_0_r, Z.mul_1_r.
      apply Z.le_trans with (2 ^ (d - 1)); [|exact Hlo].
      apply Z.pow_le_mono_r; [lia|]. rewrite Hk0 in Hn. exact Hn. }
  destruct Hres as [[H0 _]|[[_ ->]|[_ ->]]]; [lia| |].
  - destruct (e1 <=? 971); reflexivity.
  - destruct (e1 + 1 <=? 971); reflexivity.
Qed.

Lemma signed_below (f : spec_float) (E : Z) :
  signed false f -> below E f -> positive_finite f.
Proof. destruct f as [s|s| |[|] m e]; cbn; try tauto; discriminate. Qed.

Lemma positive_finite_order (x : float) :
  positive_finite (Prim2SF x) ->
  (0 <? x)%float = true /\ (x <? infinity)%float = true.
Proof.
  rewrite !ltb_spec.
  change (Prim2SF 0) with (S754_zero false).
  change (Prim2SF infinity) with (S754_infinity false).
  destruct (Prim2SF x) as [s|s| |[|] m e]; cbn [positive_finite]; try tauto;
    try (intros _; split; reflexivity).
Qed.

Lemma below_is_finite (x : float) (E : Z) :
  below E (Prim2SF x) -> is_finite x = true.
Proof.
  unfold is_finite, is_nan, is_infinity.
  rewrite !eqb_spec, abs_spec.
  change (Prim2SF infinity) with (S754_infinity false).
  destruct (Prim2SF x) as [s|s| |s m e]; cbn [below]; try tauto; intros _;
    try reflexivity.
  unfold SFeqb, SFcompare, SFabs. rewrite Z.compare_refl.
  assert (Hm : PosDef.Pos.compare_cont Eq m m = Eq) by apply Pos.compare_refl.
  rewrite Hm. destruct s; reflexivity.
Qed.

(** A double in [[0, 1)]: a zero, or positive with an exponent that keeps
    it below 1. *)
Lemma unit_interval (i : float) :
  (0 <=? i)%float = true -> (i <? 1)%float = true ->
  (exists s, Prim2SF i = S754_zero s)
  \/ exists m e,
       Prim2SF i = S754_finite false m e
       /\ -1074 <= e /\ Zdigits2 (Z.pos m) + e <= 0.
Proof.
  rewrite leb_spec, ltb_spec. pose proof (Prim2SF_valid i) as Hv.
  change (Prim2SF 0) with (S754_zero false).
  change (Prim2SF 1) with (S754_finite false 4503599627370496 (-52)).
  destruct (Prim2SF i) as [s|s| |s m e].
  - intros _ _. left. eauto.
  - destruct s; discriminate.
  - discriminate.
  - intros H0 H1. right. exists m, e.
    destruct s; [discriminate|]. split; [reflexivity|].
    cbn [valid_binary] in Hv. unfold bounded, canonical_mantissa in Hv.
    apply andb_true_iff in Hv. destruct Hv as [Hc _].
    apply Z.eqb_eq in Hc.
    change (fexp prec emax (Z.pos (digits2_pos m) + e))
      with (Z.max (Z.pos (digits2_pos m) + e - 53) (-1074)) in Hc.
    change (Zdigits2 (Z.pos m)) with (Z.pos (digits2_pos m)).
    unfold SFltb, SFcompare in H1.
    destruct (Z.compare_spec e (-52)) as [He|He|He]; try discriminate; [|lia].
    exfalso.
    destruct (PosDef.Pos.compare_cont Eq m 4503599627370496) eqn:Em;
      try discriminate.
    assert (Hm : (m ?= 4503599627370496)%positive = Lt) by exact Em.
    apply Pos.compare_lt_iff in Hm.
    assert (Hd : Z.pos (digits2_pos m) <= 52).
    { apply (Zdigits2_le (Z.pos m) 52); [lia|].
      apply Pos2Z.pos_lt_pos in Hm. split; [lia|exact Hm]. }
    lia.
Qed.

End SignFacts.

Section BlueOverDoubles.

Lemma mul_below (x y : float) (Ex Ey E : Z) :
  below Ex (Prim2SF x) -> below Ey (Prim2SF y) ->
  -1074 <= Ex + Ey <= 972 -> Ex + Ey + 1 <= E ->
  below E (Prim2SF (x * y)%float).
Proof.
  intros Hx Hy HE HE'. rewrite mul_spec.
  apply below_mono with (Ex + Ey + 1); [exact HE'|].
  now apply SFmul_below.
Qed.

Lemma sub_below (x y : float) (Ex Ey E : Z) :
  below Ex (Prim2SF x) -> below Ey (Prim2SF y) ->
  -1075 <= Z.max Ex Ey <= 970 -> Z.max Ex Ey + 2 <= E ->
  below E (Prim2SF (x - y)%float).
Proof.
  intros Hx Hy HE HE'. rewrite sub_spec.
  apply below_mono with (Z.max Ex Ey + 2); [exact HE'|].
  now apply SFsub_below.
Qed.

Lemma abs_leb_below (x : float) :
  (abs x <=? 1024)%float = true -> below 11 (Prim2SF x).
Proof.
  rewrite leb_spec, abs_spec. pose proof (Prim2SF_valid x) as Hv.
  change (Prim2SF 1024) with (S754_finite false 4503599627370496 (-42)).
  destruct (Prim2SF x) as [s|s| |s m e]; try discriminate; [intros _; exact I|].
  cbn [valid_binary] in Hv. unfold bounded, canonical_mantissa in Hv.
  apply andb_true_iff in Hv. destruct Hv as [Hc _]. apply Z.eqb_eq in Hc.
  change (fexp prec emax (Z.pos (digits2_pos m) + e))
    with (Z.max (Z.pos (digits2_pos m) + e - 53) (-1074)) in Hc.
  cbn [SFabs below]. change (Zdigits2 (Z.pos m)) with (Z.pos (digits2_pos m)).
  unfold SFleb, SFcompare.
  destruct (Z.compare_spec e (-42)) as [He|He|He]; try discriminate;
    intros _; lia.
Qed.

Lemma SFadd_neg_pos (mp m9 : positive) (ep e9 : Z) :
  -1074 <= ep <= e9 ->
  Z.pos mp < Z.pos m9 * 2 ^ (e9 - ep) ->
  signed false
    (SFadd prec emax (S754_finite true mp ep) (S754_finite false m9 e9)).
Proof.
  intros He Hlt. cbn [SFadd].
  replace (Z.min ep e9) with ep by lia.
  rewrite !shl_align_fst by lia. cbn [cond_Zopp].
  rewrite Z.sub_diag, Z.pow_0_r, Z.mul_1_r.
  destruct (- Z.pos mp + Z.pos m9 * 2 ^ (e9 - ep)) as [|p|p] eqn:ED; try lia.
  cbn [binary_normalize]. apply binary_round_signed. lia.
Qed.

Lemma SFadd_pos_pos (m1 m2 : positive) (e1 e2 : Z) :
  -1074 <= e1 -> -1074 <= e2 ->
  signed false
    (SFadd prec emax (S754_finite false m1 e1) (S754_finite false m2 e2)).
Proof.
  intros H1 H2. cbn [SFadd cond_Zopp].
  cbn [Z.add binary_normalize]. apply binary_round_signed. lia.
Qed.

(** The product of the slope [-1/11.112347] and a double below 1 is, in
    magnitude, below [0.09]. *)
Lemma slope_product (mi : positive) (ei : Z) :
  Zdigits2 (Z.pos mi) + ei <= 0 ->
  let p := SFmul prec emax (S754_finite true 6484462196683377 (-56))
                 (S754_finite false mi ei) in
  p = S754_zero true
  \/ exists mp ep,
       p = S754_finite true mp ep
       /\ -1074 <= ep <= -56
       /\ Z.pos mp < 6485183463413514 * 2 ^ (-56 - ep).
Proof.
  intros Hi p. subst p. cbn [SFmul xorb].
  set (MC := 6484462196683377%positive).
  destruct (Zdigits2_bounds (Z.pos mi) ltac:(lia)) as [_ Hihi].
  set (di := Zdigits2 (Z.pos mi)) in *.
  assert (Hdi : 0 < di) by reflexivity.
  assert (Hmi : Z.pos mi < 2 ^ (- ei)).
  { apply Z.lt_le_trans with (2 ^ di); [exact Hihi|].
    apply Z.pow_le_mono_r; lia. }
  set (m := Z.pos (MC * mi)).
  assert (Hm : m = Z.pos MC * Z.pos mi) by (unfold m; apply Pos2Z.inj_mul).
  assert (HMC : Z.pos MC < 2 ^ 53) by reflexivity.
  assert (Hd : Zdigits2 m <= 53 + di).
  { apply Zdigits2_le; [lia|]. rewrite Hm, pow2_split by lia. nia. }
  destruct (binary_round_aux_spec true m (-56 + ei) loc_Exact ltac:(lia))
    as (m2 & Hm2 & _ & Hres).
  destruct (cut_small m (-56 + ei) ltac:(lia)) as (_ & Hle & Hmin).
  set (e1 := Z.max (-56 + ei) (fexp prec emax (Zdigits2 m + (-56 + ei)))) in *.
  assert (He1 : e1 <= -56).
  { unfold e1. change (fexp prec emax (Zdigits2 m + (-56 + ei)))
      with (Z.max (Zdigits2 m + (-56 + ei) - 53) (-1074)). lia. }
  set (n := e1 - (-56 + ei)) in *. set (t := -56 - e1).
  assert (Ht : 0 <= t) by (unfold t; lia).
  assert (Hn : 0 <= n) by (unfold n; lia).
  assert (Pn : 0 < 2 ^ n) by (apply Z.pow_pos_nonneg; lia).
  assert (Pt : 0 < 2 ^ t) by (apply Z.pow_pos_nonneg; lia).
  assert (Hsplit : 2 ^ (- ei) = 2 ^ t * 2 ^ n)
    by (rewrite <- pow2_split by lia; f_equal; unfold t, n; lia).
  assert (Hm1 : m / 2 ^ n < Z.pos MC * 2 ^ t).
  { apply Z.div_lt_upper_bound; [exact Pn|].
    rewrite Hm. rewrite Hsplit in Hmi. nia. }
  clearbody m e1.
  destruct Hres as [[_ ->]|[[Hr ->]|[H53 ->]]].
  - left. reflexivity.
  - right. exists (Z.to_pos m2), e1.
    replace (e1 <=? 971) with true by (symmetry; apply Z.leb_le; lia).
    split; [reflexivity|]. split; [lia|].
    rewrite Z2Pos.id by lia. fold t.
    assert (Z.pos MC * 2 ^ t < 6485183463413514 * 2 ^ t)
      by (apply Z.mul_lt_mono_pos_r; [exact Pt|reflexivity]).
    lia.
  - right. exists (Z.to_pos (2 ^ 52)), (e1 + 1).
    replace (e1 + 1 <=? 971) with true by (symmetry; apply Z.leb_le; lia).
    assert (Ht1 : 1 <= t).
    { destruct (Z.eq_dec t 0) as [Ht0|]; [|lia]. exfalso.
      rewrite Ht0 in Hm1. change (2 ^ 0) with 1 in Hm1. lia. }
    split; [reflexivity|]. split; [unfold t in Ht1; lia|].
    replace (-56 - (e1 + 1)) with (t - 1) by (unfold t; lia).
    assert (Pt1 : 0 < 2 ^ (t - 1)) by (apply Z.pow_pos_nonneg; lia).
    assert (Et : 2 ^ t = 2 * 2 ^ (t - 1)).
    { replace t with (1 + (t - 1)) at 1 by lia. now rewrite pow2_split by lia. }
    change (Z.pos (Z.to_pos (2 ^ 52))) with (2 ^ 52).
    assert (Z.pos MC * 2 ^ (t - 1) < 6485183463413514 * 2 ^ (t - 1))
      by (apply Z.mul_lt_mono_pos_r; [exact Pt1|reflexivity]).
    rewrite Et in Hm1. change (2 ^ 53) with (2 * 2 ^ 52) in H53. lia.
Qed.

(** Line 188: the argument of the first logarithm is a positive double. *)
Lemma blue_log_arg1_positive (i : float) :
  (0 <=? i)%float = true -> (i <? 1)%float = true ->
  positive_finite (Prim2SF (blue_log_arg1 i)).
Proof.
  intros H0 H1. unfold blue_log_arg1.
  cbn [add mul F64.number]. rewrite add_spec, mul_spec.
  replace (Prim2SF (of_Z (-1) / lit 11112347 6)%js)
    with (S754_finite true 6484462196683377 (-56)) by (vm_compute; reflexivity).
  replace (Prim2SF (lit 9 2))
    with (S754_finite false 6485183463413514 (-56)) by (vm_compute; reflexivity).
  destruct (unit_interval i H0 H1) as [[s ->]|(mi & ei & -> & Hei & Hi)].
  - exact I.
  - pose proof (SFmul_below (S754_finite true 6484462196683377 (-56))
                  (S754_finite false mi ei) (-3) 0) as Hb.
    destruct (slope_product mi ei Hi) as [Hp|(mp & ep & Hp & Hep & Hlt)];
      unfold SF64add, SF64mul; rewrite Hp in *.
    + exact I.
    + apply signed_below with 1.
      * apply SFadd_neg_pos; [lia|exact Hlt].
      * apply below_mono with (Z.max (-2) (-3) + 2); [lia|].
        apply SFadd_below;
          [apply Hb; [vm_compute; discriminate|exact Hi|lia]
          |vm_compute; discriminate|lia].
Qed.

(** Line 189: the argument of the second logarithm is a positive double. *)
Lemma blue_log_arg2_positive (i : float) :
  (0 <=? i)%float = true -> (i <? 1)%float = true ->
  positive_finite (Prim2SF (blue_log_arg2 i)).
Proof.
  intros H0 H1. unfold blue_log_arg2.
  cbn [add F64.number]. rewrite add_spec.
  replace (Prim2SF (lit 1 10))
    with (S754_finite false 7737125245533627 (-86)) by (vm_compute; reflexivity).
  destruct (unit_interval i H0 H1) as [[s ->]|(mi & ei & -> & Hei & Hi)].
  - exact I.
  - apply signed_below with 2.
    + apply SFadd_pos_pos; lia.
    + apply below_mono with (Z.max 0 (-33) + 2); [lia|].
      apply SFadd_below; [exact Hi|vm_compute; discriminate|lia].
Qed.

Lemma unit_interval_below (i : float) :
  (0 <=? i)%float = true -> (i <? 1)%float = true -> below 0 (Prim2SF i).
Proof.
  intros H0 H1.
  destruct (unit_interval i H0 H1) as [[s ->]|(mi & ei & -> & _ & Hi)];
    [exact I|exact Hi].
Qed.

End BlueOverDoubles.

(** C10.  Over binary64, the arithmetic of the code, for a [Math.log] that
    returns, on every positive finite double, a double of magnitude at most
    1024 (the logarithm of a double lies between -746 and 710): for every
    double [i] with [0 <= i < 1] the two arguments handed to [Math.log] in the
    [BLUE] case are positive finite doubles, and the shader returns a pixel
    whose [r], [g] and [b] are finite doubles (not NaN, not an infinity),
    with [r = g], and whose [a] is 255. *)
Theorem blue_shader_well_defined (log : float -> float) (stack : nat)
    (defaultShader Px Py : Z) (i : float) :
  let M := F64.math log in
  (forall x : float,
     (0 <? x)%float = true -> (x <? infinity)%float = true ->
     (abs (log x) <=? 1024)%float = true) ->
  (0 <=? i)%float = true ->
  (i <? 1)%float = true ->
  (0 <? blue_log_arg1 i)%float = true
  /\ (blue_log_arg1 i <? infinity)%float = true
  /\ (0 <? blue_log_arg2 i)%float = true
  /\ (blue_log_arg2 i <? infinity)%float = true
  /\ exists r b : float,
       _pixelShader stack defaultShader Px Py i BLUE
       = Normal (Some (Pixel.mk Px Py r r b 255%float))
       /\ is_finite r = true
       /\ is_finite b = true.
Proof.
  intros M Hlog H0 H1.
  destruct (positive_finite_order _ (blue_log_arg1_positive i H0 H1)) as [A1 A1'].
  destruct (positive_finite_order _ (blue_log_arg2_positive i H0 H1)) as [A2 A2'].
  pose proof (abs_leb_below _ (Hlog _ A1 A1')) as HLa.
  pose proof (abs_leb_below _ (Hlog _ A2 A2')) as HLb.
  pose proof (unit_interval_below i H0 H1) as Hi.
  split; [exact A1|]. split; [exact A1'|]. split; [exact A2|]. split; [exact A2'|].
  set (La := log (blue_log_arg1 i)) in *. set (Lb := log (blue_log_arg2 i)) in *.
  exists (F64.of_int 255
          * (i * ((F64.of_int (-1) / F64.of_int 4) * La - lit 25 2)))%float,
         (F64.of_int 255 * (i * (F64.of_int 1 - lit 24 1 * Lb)))%float.
  split; [destruct stack; reflexivity|]. split.
  - apply below_is_finite with 23.
    apply (mul_below _ _ 8 14); [vm_compute; discriminate| |lia|lia].
    apply (mul_below _ _ 0 13); [exact Hi| |lia|lia].
    apply (sub_below _ _ 11 (-1)); [|vm_compute; discriminate|lia|lia].
    apply (mul_below _ _ (-1) 11); [vm_compute; discriminate|exact HLa|lia|lia].
  - apply below_is_finite with 26.
    apply (mul_below _ _ 8 17); [vm_compute; discriminate| |lia|lia].
    apply (mul_below _ _ 0 16); [exact Hi| |lia|lia].
    apply (sub_below _ _ 1 14); [vm_compute; discriminate| |lia|lia].
    apply (mul_below _ _ 2 11); [vm_compute; discriminate|exact HLb|lia|lia].
Qed.

Lemma blue_shader_well_defined_witness :
  let M := F64.math clamped_log in
  (forall x : float,
     (0 <? x)%float = true -> (x <? infinity)%float = true ->
     (abs (clamped_log x) <=? 1024)%float = true)
  /\ (0 <=? 0.5)%float = true
  /\ (0.5 <? 1)%float = true
  /\ (0 <? blue_log_arg1 0.5%float)%float = true
  /\ (blue_log_arg1 0.5%float <? infinity)%float = true
  /\ (0 <? blue_log_arg2 0.5%float)%float = true
  /\ (blue_log_arg2 0.5%float <? infinity)%float = true
  /\ exists r b : float,
       _pixelShader 8 BLUE 3 4 0.5%float BLUE
       = Normal (Some (Pixel.mk 3 4 r r b 255%float))
       /\ is_finite r = true
       /\ is_finite b = true.
Proof.
  intros M.
  assert (Hlog : forall x : float,
            (0 <? x)%float = true -> (x <? infinity)%float = true ->
            (abs (clamped_log x) <=? 1024)%float = true).
  { intros x _ _. unfold clamped_log.
    destruct (abs (x - 1) <=? 1024)%float eqn:E; [exact E|reflexivity]. }
  assert (H0 : (0 <=? 0.5)%float = true) by reflexivity.
  assert (H1 : (0.5 <? 1)%float = true) by reflexivity.
  exact (conj Hlog (conj H0 (conj H1
           (blue_shader_well_defined clamped_log 8 BLUE 3 4 0.5%float
              Hlog H0 H1)))).
Defined.

(** ** The loop counter over doubles *)

Section CounterFacts.

(** Adding 1 to the double of an integer is exact below [2^53]. *)
Lemma counter_step (n : Z) :
  1 <= n -> n + 1 < 2 ^ 53 ->
  (F64.of_int n + 1)%float = F64.of_int (n + 1).
Proof.
  intros Hn Hn1. apply Prim2SF_inj.
  rewrite add_spec, (of_int_small n), (of_int_small (n + 1)) by lia.
  change (Prim2SF 1) with (S754_finite false (Z.to_pos (2 ^ 52)) (-52)).
  destruct (Zdigits2_bounds n ltac:(lia)) as [Hlo Hhi].
  destruct (Zdigits2_bounds (n + 1) ltac:(lia)) as [Hlo' Hhi'].
  set (d := Zdigits2 n) in *. set (d' := Zdigits2 (n + 1)) in *.
  assert (Hd : 1 <= d <= 53).
  { split; [assert (0 < d) by (apply Zdigits2_gt; [lia|change (2 ^ 0) with 1; lia]); lia
           |apply Zdigits2_le; lia]. }
  assert (Hd' : 1 <= d' <= 53).
  { split; [assert (0 < d') by (apply Zdigits2_gt; [lia|change (2 ^ 0) with 1; lia]); lia
           |apply Zdigits2_le; lia]. }
  assert (P : 0 < 2 ^ (53 - d)) by (apply Z.pow_pos_nonneg; lia).
  assert (P' : 0 < 2 ^ (53 - d')) by (apply Z.pow_pos_nonneg; lia).
  assert (Q : 0 < 2 ^ (d - 1)) by (apply Z.pow_pos_nonneg; lia).
  assert (Q' : 0 < 2 ^ (d' - 1)) by (apply Z.pow_pos_nonneg; lia).
  assert (E52 : 2 ^ (53 - d) * 2 ^ (d - 1) = 2 ^ 52)
    by (rewrite <- Z.pow_add_r by lia; f_equal; lia).
  assert (E52' : 2 ^ (53 - d') * 2 ^ (d' - 1) = 2 ^ 52)
    by (rewrite <- Z.pow_add_r by lia; f_equal; lia).
  unfold SF64add, SFadd.
  replace (Z.min (d - 53) (-52)) with (-52) by lia.
  rewrite !shl_align_fst by lia. cbn [cond_Zopp].
  rewrite !Z2Pos.id by nia.
  replace (d - 53 - -52) with (d - 1) by lia.
  replace (-52 - -52) with 0 by lia. rewrite Z.pow_0_r, Z.mul_1_r.
  replace (n * 2 ^ (53 - d) * 2 ^ (d - 1) + 2 ^ 52) with ((n + 1) * 2 ^ 52) by nia.
  destruct ((n + 1) * 2 ^ 52) as [|p|p] eqn:Ep; try lia.
  cbn [binary_normalize]. rewrite binary_round_shl.
  change (Z.pos (digits2_pos p)) with (Zdigits2 (Z.pos p)).
  rewrite <- Ep, Zdigits2_shift by lia. fold d'.
  assert (Hfexp : fexp prec emax (d' + 52 + -52) = d' - 53)
    by (unfold fexp, emin, emax, prec; lia).
  rewrite Hfexp.
  replace (Z.max 0 (-52 - (d' - 53))) with 0 by lia.
  rewrite Z.pow_0_r, Z.mul_1_r, Z.sub_0_r.
  destruct (binary_round_aux_spec false ((n + 1) * 2 ^ 52) (-52) loc_Exact
              ltac:(lia)) as (m2 & _ & Hexact & Hres).
  rewrite Zdigits2_shift in Hexact, Hres by lia. fold d' in Hexact, Hres.
  rewrite Hfexp in Hexact, Hres.
  replace (Z.max (-52) (d' - 53)) with (d' - 53) in Hexact, Hres by lia.
  assert (Hsh : d' - 53 - -52 = d' - 1) by lia.
  rewrite Hsh in Hexact.
  assert (Hq : (n + 1) * 2 ^ 52 = (n + 1) * 2 ^ (53 - d') * 2 ^ (d' - 1)) by nia.
  assert (Hm2 : m2 = (n + 1) * 2 ^ (53 - d')).
  { rewrite Hexact; [|reflexivity|rewrite Hq; apply Z.mod_mul; lia].
    rewrite Hq. apply Z.div_mul. lia. }
  assert (Hr : 0 < m2 < 2 ^ 53).
  { rewrite Hm2. split; [nia|].
    apply Z.lt_le_trans with (2 ^ d' * 2 ^ (53 - d')); [nia|].
    rewrite <- Z.pow_add_r by lia. apply Z.pow_le_mono_r; lia. }
  destruct Hres as [[H0 _]|[[_ ->]|[H53 _]]]; try lia.
  replace (d' - 53 <=? 971) with true by (symmetry; apply Z.leb_le; lia).
  now rewrite Hm2.
Qed.

End CounterFacts.


(** X24.  The counter of the loop, line 166: on doubles [iteration ++] adds
    exactly 1 to every integer from 0 to [2^53 - 1], and leaves [2^53] as it
    is.  Up to [2^53] the integer counter of the model is the counter of the
    code; from there on the code's counter no longer moves. *)
Theorem double_counter_counts (n : Z) :
  0 <= n < 2 ^ 53 ->
  (F64.of_int n + 1)%float = F64.of_int (n + 1)
  /\ (F64.of_int (2 ^ 53) + 1)%float = F64.of_int (2 ^ 53).
Proof.
  intros Hn. split; [|vm_compute; reflexivity].
  destruct (Z.eq_dec n 0) as [->|H0]; [vm_compute; reflexivity|].
  destruct (Z.eq_dec n (2 ^ 53 - 1)) as [->|H1]; [vm_compute; reflexivity|].
  apply counter_step; lia.
Qed.

Lemma double_counter_counts_witness :
  0 <= 41 < 2 ^ 53
  /\ (F64.of_int 41 + 1)%float = F64.of_int (41 + 1)
  /\ (F64.of_int (2 ^ 53) + 1)%float = F64.of_int (2 ^ 53).
Proof.
  assert (H : 0 <= 41 < 2 ^ 53) by (split; [discriminate|reflexivity]).
  exact (conj H (double_counter_counts 41 H)).
Defined.

(** ** The handlers *)

Section HandlerFacts.
Context {num : Type} {N : Number num} {M : MathLib num}.

(** [draw_line] only pushes writes tagged [gen] on the buffer. *)
Lemma draw_line_frame (gen : nat) (Px : Z) (line : list num) :
  forall (idx : Z) (w : World.t num),
    let w' := fst (draw_line gen Px idx line w) in
    World.this w' = World.this w
    /\ World.workers w' = World.workers w
    /\ World.window_Worker w' = World.window_Worker w
    /\ World.stack_limit w' = World.stack_limit w
    /\ World.timers w' = World.timers w
    /\ World.generation w' = World.generation w
    /\ World.uncaught w' = World.uncaught w
    /\ Canvas2D.getWidth (World.canvas2d w') = Canvas2D.getWidth (World.canvas2d w)
    /\ Canvas2D.getHeight (World.canvas2d w') = Canvas2D.getHeight (World.canvas2d w)
    /\ Canvas2D.shown (World.canvas2d w') = Canvas2D.shown (World.canvas2d w)
    /\ Canvas2D.flushes (World.canvas2d w') = Canvas2D.flushes (World.canvas2d w)
    /\ exists drawn,
         Canvas2D.buffer (World.canvas2d w')
         = drawn ++ Canvas2D.buffer (World.canvas2d w)
         /\ Forall (fun entry => fst entry = gen) drawn.
Proof.
  induction line as [|intensity rest IH]; intros idx w; cbn [draw_line].
  - cbn. repeat split. exists []. split; [reflexivity|constructor].
  - destruct (_pixelShader _ _ Px idx intensity _) as [p|e].
    + specialize (IH (idx + 1)
                     (World.set_canvas2d
                        (Canvas2D.drawBufferedPixel gen p (World.canvas2d w)) w)).
      cbn zeta in IH. cbn zeta.
      destruct IH as (H1 & H2 & H3 & H4 & H5 & H6 & H7 & H8 & H9 & H10 & H11
                      & drawn & Hbuf & Hall).
      repeat (split; [assumption|]).
      exists (drawn ++ [(gen, p)]). split.
      * rewrite Hbuf. cbn. now rewrite <- app_assoc.
      * apply Forall_app. split; [exact Hall|]. now constructor.
    + cbn. repeat split. exists []. split; [reflexivity|constructor].
Qed.

End HandlerFacts.

(** C8 (as the code has it).  For a column [Px > width - xSkip - 1], one of
    the last [xSkip] columns, the position test of the handler holds whatever
    the remainder test gives; and when the column was drawn without an
    exception of the shader, the handler has flushed the buffer holding it. *)
Theorem last_columns_flush {num : Type} {N : Number num} {M : MathLib num}
    (wk : Worker.t num) (m : Msg.t num) (w : World.t num) :
  Msg.Px m > Worker.width wk - Worker.xSkip wk - 1 ->
  flush_due (Worker.width wk) (Worker.xSkip wk) (Msg.Px m) = true
  /\ (snd (draw_line (Worker.gen wk) (Msg.Px m) 0 (Msg.line m) w) = None ->
      let c  := World.canvas2d
                  (fst (draw_line (Worker.gen wk) (Msg.Px m) 0 (Msg.line m) w)) in
      let c' := World.canvas2d (onmessage wk m w) in
      Canvas2D.flushes c' = S (Canvas2D.flushes (World.canvas2d w))
      /\ Canvas2D.buffer c' = Canvas2D.buffer c
      /\ Canvas2D.shown c' = Canvas2D.buffer c).
Proof.
  intros HPx.
  assert (Hdue : flush_due (Worker.width wk) (Worker.xSkip wk) (Msg.Px m) = true).
  { unfold flush_due. apply orb_true_iff. right. apply Z.gtb_lt. lia. }
  split; [exact Hdue|].
  intros Hok c c'. subst c c'. unfold onmessage. rewrite Hdue.
  pose proof (draw_line_frame (Worker.gen wk) (Msg.Px m) (Msg.line m) 0 w) as Hframe.
  cbn zeta in Hframe.
  destruct (draw_line (Worker.gen wk) (Msg.Px m) 0 (Msg.line m) w) as [w1 r].
  cbn [fst snd] in *. subst r.
  destruct Hframe as (_ & _ & _ & _ & _ & _ & _ & _ & _ & _ & Hfl & _).
  destruct (last_column _ _ _ _);
    [destruct (if Worker.i wk <? 0 then None else _)|];
    cbn; rewrite Hfl; repeat split.
Qed.

Lemma last_columns_flush_witness :
  let wk := Worker.mk (num := XR.xreal) 1 true [] 1000 2 2 in
  let m := Msg.mk 998 [XR.Fin (1 / 2)] (Some (XR.Fin 1)) in
  let w := World.init (Canvas2D.mk (num := XR.xreal) 1000 1 [] [] O) true 8%nat in
  Msg.Px m > Worker.width wk - Worker.xSkip wk - 1
  /\ flush_due (Worker.width wk) (Worker.xSkip wk) (Msg.Px m) = true
  /\ (snd (draw_line (Worker.gen wk) (Msg.Px m) 0 (Msg.line m) w) = None ->
      let c  := World.canvas2d
                  (fst (draw_line (Worker.gen wk) (Msg.Px m) 0 (Msg.line m) w)) in
      let c' := World.canvas2d (onmessage wk m w) in
      Canvas2D.flushes c' = S (Canvas2D.flushes (World.canvas2d w))
      /\ Canvas2D.buffer c' = Canvas2D.buffer c
      /\ Canvas2D.shown c' = Canvas2D.buffer c).
Proof.
  intros wk m w.
  assert (H : Msg.Px m > Worker.width wk - Worker.xSkip wk - 1) by reflexivity.
  exact (conj H (last_columns_flush wk m w H)).
Defined.

(** C8 as claimed fails at [width = 1000], [xSkip = 2], [Px = 997]: the
    column is one of the last [xSkip + 1], and neither test holds
    ([997 % 20 = 17] and [997 > 997] is false). *)
Lemma flush_skipped_at_997 :
  997 >= 1000 - 2 - 1
  /\ flush_due (num := float) 1000 2 997 = false.
Proof.
  split; [discriminate|]. vm_compute. reflexivity.
Qed.

(** ** The sequential strategy *)

Section DirectFacts.
Context {num : Type} {N : Number num} {M : MathLib num}.

Lemma set_timers_same (w : World.t num) : World.set_timers (World.timers w) w = w.
Proof. destruct w; reflexivity. Qed.

Lemma draw_line_set_timers (gen : nat) (Px : Z) (line : list num) (n : nat) :
  forall (idx : Z) (w : World.t num),
    draw_line gen Px idx line (World.set_timers n w)
    = (World.set_timers n (fst (draw_line gen Px idx line w)),
       snd (draw_line gen Px idx line w)).
Proof.
  induction line as [|intensity rest IH]; intros idx w; cbn [draw_line].
  - reflexivity.
  - cbn [World.set_timers World.stack_limit World.this].
    destruct (_pixelShader _ _ Px idx intensity _) as [p|e]; [|reflexivity].
    apply (IH (idx + 1)
              (World.set_canvas2d
                 (Canvas2D.drawBufferedPixel gen p (World.canvas2d w)) w)).
Qed.

Lemma draw_columns_set_timers (msgs : list (Msg.t num)) (n : nat) :
  forall w : World.t num,
    draw_columns msgs (World.set_timers n w)
    = (World.set_timers n (fst (draw_columns msgs w)),
       snd (draw_columns msgs w)).
Proof.
  induction msgs as [|m rest IH]; intros w; cbn [draw_columns]; [reflexivity|].
  cbn [World.set_timers World.generation].
  rewrite draw_line_set_timers.
  destruct (draw_line (World.generation w) (Msg.Px m) 0 (Msg.line m) w)
    as [w1 [e|]]; cbn [fst snd]; [reflexivity|].
  apply (IH (World.set_this
               (Mandelbrot.set_heightScalar (received_heightScalar m)
                  (World.this w1)) w1)).
Qed.

(** The clock only decides how many flushes get scheduled. *)
Lemma _renderDirect_columns_clock (clock : nat -> Z) (msgs : list (Msg.t num)) :
  forall (timeout : Z) (k : nat) (w : World.t num),
    exists n : nat,
      _renderDirect_columns clock msgs timeout k w
      = (World.set_timers n (fst (draw_columns msgs w)),
         snd (draw_columns msgs w)).
Proof.
  induction msgs as [|m rest IH]; intros timeout k w;
    cbn [_renderDirect_columns draw_columns].
  - exists (World.timers w). now rewrite set_timers_same.
  - destruct (draw_line (World.generation w) (Msg.Px m) 0 (Msg.line m) w)
      as [w1 [e|]].
    + exists (World.timers w1). now rewrite set_timers_same.
    + destruct (clock k - timeout >? 50).
      * destruct (IH (clock (S k)) (S (S k))
                     (World.set_timers (S (World.timers
                        (World.set_this
                           (Mandelbrot.set_heightScalar (received_heightScalar m)
                              (World.this w1)) w1)))
                        (World.set_this
                           (Mandelbrot.set_heightScalar (received_heightScalar m)
                              (World.this w1)) w1))) as [n Hn].
        rewrite Hn, draw_columns_set_timers. cbn [fst snd]. now exists n.
      * apply IH.
Qed.

Lemma _renderDirect_clock (clock : nat -> Z) (c : rConfig.t num) (w : World.t num) :
  exists n : nat,
    _renderDirect clock c w
    = (World.set_timers n (fst (direct_columns c w)), snd (direct_columns c w)).
Proof.
  unfold _renderDirect, direct_columns.
  destruct (_baseRender _ _ true) as [msgs|].
  - apply _renderDirect_columns_clock.
  - exists (World.timers w). now rewrite set_timers_same.
Qed.

Lemma direct_columns_set_timers (c : rConfig.t num) (n : nat) (w : World.t num) :
  direct_columns c (World.set_timers n w)
  = (World.set_timers n (fst (direct_columns c w)), snd (direct_columns c w)).
Proof.
  unfold direct_columns.
  destruct (_baseRender _ _ true) as [msgs|]; [|reflexivity].
  apply draw_columns_set_timers.
Qed.

(** Two calls of [render] that differ in their clocks only end in states
    that differ in the number of scheduled flushes only. *)
Lemma render_clock (clock clock' : nat -> Z) (w : World.t num) :
  exists n : nat, render clock w = World.set_timers n (render clock' w).
Proof.
  unfold render.
  destruct (World.window_Worker _ && Mandelbrot.renderParallel _).
  - eexists. symmetry. apply set_timers_same.
  - match goal with
    | |- context [_renderDirect clock ?c ?w1] =>
        destruct (_renderDirect_clock clock c w1) as [n ->];
        destruct (_renderDirect_clock clock' c w1) as [n' ->];
        destruct (direct_columns c w1) as [w2 [e|]]
    end; exists n; reflexivity.
Qed.

(** [render] does not read the number of scheduled flushes. *)
Lemma render_set_timers (clock : nat -> Z) (n : nat) (w : World.t num) :
  exists m : nat,
    render clock (World.set_timers n w) = World.set_timers m (render clock w).
Proof.
  unfold render.
  cbn [World.set_timers World.set_generation World.set_this World.set_canvas2d
       World.this World.canvas2d World.window_Worker World.generation].
  destruct (World.window_Worker w && Mandelbrot.renderParallel _).
  - exists n. reflexivity.
  - match goal with
    | |- context [_renderDirect clock ?c ?w1] =>
        match goal with
        | |- exists m, match _renderDirect clock c ?wn with _ => _ end = _ =>
            change wn with (World.set_timers n w1);
            destruct (_renderDirect_clock clock c (World.set_timers n w1)) as [a ->];
            destruct (_renderDirect_clock clock c w1) as [b ->];
            rewrite direct_columns_set_timers;
            destruct (direct_columns c w1) as [w2 [e|]]
        end
    end; exists a; reflexivity.
Qed.

Lemma framebuffer_set_timers (n : nat) (w : World.t num) :
  framebuffer (World.set_timers n w) = framebuffer w.
Proof. reflexivity. Qed.

End DirectFacts.

(** C9.  In the 4x4 scenario the sequential render leaves one framebuffer,
    the sixteen pixels of [scenario_framebuffer], whatever the clock reads and
    however [Math.log] is implemented; a second run on the same input, or a
    second [render] on the same object, leaves the same pixels. *)
Theorem sequential_render_deterministic (log : float -> float)
    (clock clock' : nat -> Z) (has_Worker : bool) :
  let M := F64.math log in
  let w := scenario has_Worker in
  framebuffer (render clock w) = scenario_framebuffer
  /\ World.uncaught (render clock w) = []
  /\ framebuffer (render clock' w) = framebuffer (render clock w)
  /\ framebuffer (render clock' (render clock w)) = framebuffer (render clock w).
Proof.
  intros M w.
  set (still := fun _ : nat => 0).
  assert (Hstill : framebuffer (render still w) = scenario_framebuffer
                   /\ World.uncaught (render still w) = []
                   /\ framebuffer (render still (render still w))
                      = scenario_framebuffer).
  { subst w M still. destruct has_Worker; vm_compute; repeat split. }
  destruct Hstill as (Hfirst & Hquiet & Hsecond).
  assert (Hany : forall c : nat -> Z,
            framebuffer (render c w) = scenario_framebuffer
            /\ World.uncaught (render c w) = []).
  { intros c. destruct (render_clock c still w) as [n ->].
    rewrite framebuffer_set_timers. split; [exact Hfirst|exact Hquiet]. }
  destruct (Hany clock) as [H1 H2]. destruct (Hany clock') as [H1' _].
  repeat split; try assumption.
  - now rewrite H1, H1'.
  - rewrite H1.
    destruct (render_clock clock still w) as [n ->].
    destruct (render_set_timers clock' n (render still w)) as [m ->].
    rewrite framebuffer_set_timers.
    destruct (render_clock clock' still (render still w)) as [k ->].
    rewrite framebuffer_set_timers. exact Hsecond.
Qed.

(** ** [render] *)

Section RenderFacts.
Context {num : Type} {N : Number num} {M : MathLib num}.

Lemma opt_eqb_true (o : option Z) (z : Z) : opt_eqb o z = true -> o = Some z.
Proof.
  destruct o as [v|]; cbn; [|discriminate].
  intros H. apply Z.eqb_eq in H. now subst.
Qed.

(** Under the parallel strategy [render] is [_renderWorkers] on the
    configuration read off the object and the canvas, after the size fields
    were brought up to date and the buffer was cleared. *)
Lemma render_parallel (clock : nat -> Z) (w : World.t num) :
  World.window_Worker w = true ->
  Mandelbrot.renderParallel (World.this w) = true ->
  exists m' : Mandelbrot.t num,
    Mandelbrot.renderThreads m' = Mandelbrot.renderThreads (World.this w)
    /\ Mandelbrot.renderParallel m' = true
    /\ render clock w
       = _renderWorkers (render_config w)
           (World.set_canvas2d (Canvas2D.clearBuffer (World.canvas2d w))
              (World.set_this m'
                 (World.set_generation (S (World.generation w)) w))).
Proof.
  intros HW HP. unfold render, render_config.
  cbn [World.set_generation World.canvas2d World.this World.window_Worker
       World.set_canvas2d World.set_this].
  destruct (opt_eqb (Mandelbrot.width (World.this w))
              (Canvas2D.getWidth (World.canvas2d w))) eqn:Ew;
    [destruct (opt_eqb (Mandelbrot.height (World.this w))
                 (Canvas2D.getHeight (World.canvas2d w))) eqn:Eh|];
    cbn [negb orb].
  - apply opt_eqb_true in Ew, Eh.
    exists (World.this w). split; [reflexivity|]. split; [exact HP|].
    rewrite HW, HP, Ew, Eh. reflexivity.
  - eexists. split; [|split; [|cbn; rewrite HW, HP; reflexivity]];
      [reflexivity|exact HP].
  - eexists. split; [|split; [|cbn; rewrite HW, HP; reflexivity]];
      [reflexivity|exact HP].
Qed.

Lemma render_parallel_task (clock : nat -> Z) (w : World.t num) (i : Z) :
  World.window_Worker w = true ->
  Mandelbrot.renderParallel (World.this w) = true ->
  0 <= i < Mandelbrot.parallelism (World.this w) ->
  task (render clock w) (Z.to_nat i)
  = Some (spawn (S (World.generation w)) (render_config w) i).
Proof.
  intros HW HP Hi.
  destruct (render_parallel clock w HW HP) as (m' & _ & _ & ->).
  now rewrite _renderWorkers_task.
Qed.

End RenderFacts.

(** C7 (as the code has it).  [render] checks nothing.  Under the parallel
    strategy, for every state of the object, valid or not, it raises no
    exception, leaves the buffer cleared and starts one live task per unit of
    [parallelism], task [i] being posted the configuration as it stands with
    [xInit = i]. *)
Theorem render_dispatches_unchecked {num : Type} {N : Number num}
    {M : MathLib num} (clock : nat -> Z) (w : World.t num) :
  World.window_Worker w = true ->
  Mandelbrot.renderParallel (World.this w) = true ->
  let w' := render clock w in
  World.uncaught w' = World.uncaught w
  /\ Canvas2D.buffer (World.canvas2d w') = []
  /\ List.length (Mandelbrot.renderThreads (World.this w'))
     = Z.to_nat (Mandelbrot.parallelism (World.this w))
  /\ forall i, 0 <= i < Mandelbrot.parallelism (World.this w) ->
       exists wk,
         task w' (Z.to_nat i) = Some wk
         /\ Worker.alive wk = true
         /\ wk = spawn (S (World.generation w)) (render_config w) i.
Proof.
  intros HW HP w'.
  destruct (render_parallel clock w HW HP) as (m' & Hm' & _ & Hrun).
  split; [subst w'; rewrite Hrun; reflexivity|].
  split; [subst w'; rewrite Hrun; reflexivity|].
  split.
  - subst w'. rewrite Hrun, _renderWorkers_threads. reflexivity.
  - intros i Hi. eexists. split; [|split; [|reflexivity]].
    + subst w'. rewrite Hrun. now apply _renderWorkers_task.
    + reflexivity.
Qed.

Lemma render_dispatches_unchecked_witness :
  let w := zero_cap_world in
  let w' := render (fun _ => 0) w in
  World.window_Worker w = true
  /\ Mandelbrot.renderParallel (World.this w) = true
  /\ World.uncaught w' = World.uncaught w
  /\ Canvas2D.buffer (World.canvas2d w') = []
  /\ List.length (Mandelbrot.renderThreads (World.this w'))
     = Z.to_nat (Mandelbrot.parallelism (World.this w))
  /\ forall i, 0 <= i < Mandelbrot.parallelism (World.this w) ->
       exists wk,
         task w' (Z.to_nat i) = Some wk
         /\ Worker.alive wk = true
         /\ wk = spawn (S (World.generation w)) (render_config w) i.
Proof.
  intros w w'.
  assert (HW : World.window_Worker w = true) by reflexivity.
  assert (HP : Mandelbrot.renderParallel (World.this w) = true) by reflexivity.
  exact (conj HW (conj HP (render_dispatches_unchecked (fun _ => 0) w HW HP))).
Defined.

(** C7 as claimed fails for an iteration cap of zero: no exception is
    raised, two tasks are started, and the first one is alive and computes
    column 0. *)
Lemma zero_cap_is_rendered :
  let w' := render (fun _ => 0) zero_cap_world in
  Mandelbrot.iterations (World.this zero_cap_world) = 0
  /\ World.uncaught w' = []
  /\ List.length (Mandelbrot.renderThreads (World.this w')) = 2%nat
  /\ exists wk,
       task w' 0 = Some wk
       /\ Worker.alive wk = true
       /\ In 0 (map Msg.Px (Worker.outbox wk)).
Proof.
  intros w'.
  split; [reflexivity|]. split; [reflexivity|]. split; [reflexivity|].
  exists (spawn 1 (render_config zero_cap_world) 0).
  split; [|split; [reflexivity|]].
  - apply (render_parallel_task (fun _ => 0) zero_cap_world 0);
      [reflexivity|reflexivity|split; [discriminate|reflexivity]].
  - apply (spawn_columns 1 (render_config zero_cap_world) 0);
      [discriminate|].
    exists 0. repeat split; discriminate.
Qed.

(** ** Generations *)

Section GenerationFacts.
Context {num : Type} {N : Number num} {M : MathLib num}.

Lemma update_nth_nth {A : Type} (f : A -> A) (l : list A) :
  forall n k : nat,
    nth_error (update_nth n f l) k
    = if (k =? n)%nat then option_map f (nth_error l k) else nth_error l k.
Proof.
  induction l as [|a l IH]; intros n k.
  - destruct (k =? n)%nat; destruct k, n; reflexivity.
  - destruct n as [|n], k as [|k]; cbn; try reflexivity. apply IH.
Qed.

(** A worker of the table after the [pop().terminate()] loop over [hs]:
    it is dead if its handle was in [hs], untouched otherwise. *)
Lemma kill_nth (hs : list nat) :
  forall (ws : list (Worker.t num)) (h : nat) (wk : Worker.t num),
    nth_error (fold_left (fun ws h => update_nth h Worker.terminate ws) hs ws) h
      = Some wk ->
    (In h hs -> Worker.alive wk = false)
    /\ (Worker.alive wk = true -> nth_error ws h = Some wk).
Proof.
  induction hs as [|h0 hs IH]; intros ws h wk Hnth; cbn [fold_left] in Hnth.
  - split; [intros []|intros _; exact Hnth].
  - destruct (IH _ _ _ Hnth) as [Hdead Hkeep]. split.
    + intros [<-|Hin]; [|now apply Hdead].
      destruct (Worker.alive wk) eqn:Ealive; [|reflexivity].
      specialize (Hkeep eq_refl). rewrite update_nth_nth, Nat.eqb_refl in Hkeep.
      destruct (nth_error ws h0) as [wk0|]; [|discriminate].
      injection Hkeep as <-. discriminate.
    + intros Halive. specialize (Hkeep Halive).
      rewrite update_nth_nth in Hkeep.
      destruct (h =? h0)%nat; [|exact Hkeep].
      destruct (nth_error ws h) as [wk0|]; [|discriminate].
      injection Hkeep as <-. discriminate.
Qed.

(** Updating one worker by a function that neither revives it nor changes
    its generation keeps the table owned. *)
Lemma owned_update (ws : list (Worker.t num)) (gen : nat) (threads : list nat)
      (h : nat) (f : Worker.t num -> Worker.t num) :
  (forall wk, Worker.gen (f wk) = Worker.gen wk
              /\ (Worker.alive (f wk) = true -> Worker.alive wk = true)) ->
  owned ws gen threads ->
  owned (update_nth h f ws) gen threads.
Proof.
  intros Hf Hown k wk Hnth Halive.
  rewrite update_nth_nth in Hnth.
  destruct (k =? h)%nat; [|now apply Hown].
  destruct (nth_error ws k) as [wk0|] eqn:Hk; [|discriminate].
  injection Hnth as <-.
  destruct (Hf wk0) as [Hgen Hal]. rewrite Hgen.
  apply (Hown k wk0 Hk). now apply Hal.
Qed.

Lemma terminate_benign (wk : Worker.t num) :
  Worker.gen (Worker.terminate wk) = Worker.gen wk
  /\ (Worker.alive (Worker.terminate wk) = true -> Worker.alive wk = true).
Proof. split; [reflexivity|discriminate]. Qed.

Lemma set_outbox_benign (o : list (Msg.t num)) (wk : Worker.t num) :
  Worker.gen (Worker.set_outbox o wk) = Worker.gen wk
  /\ (Worker.alive (Worker.set_outbox o wk) = true -> Worker.alive wk = true).
Proof. split; [reflexivity|auto]. Qed.

(** The handler of a worker of the latest generation keeps the state
    isolated. *)
Lemma onmessage_isolated (wk : Worker.t num) (m : Msg.t num) (w : World.t num) :
  Worker.gen wk = World.generation w ->
  isolated w ->
  isolated (onmessage wk m w)
  /\ World.generation (onmessage wk m w) = World.generation w
  /\ World.window_Worker (onmessage wk m w) = World.window_Worker w
  /\ Mandelbrot.renderParallel (World.this (onmessage wk m w))
     = Mandelbrot.renderParallel (World.this w).
Proof.
  intros Hgen [Hown Hbuf]. unfold onmessage.
  pose proof (draw_line_frame (Worker.gen wk) (Msg.Px m) (Msg.line m) 0 w) as Hframe.
  cbn zeta in Hframe.
  destruct (draw_line (Worker.gen wk) (Msg.Px m) 0 (Msg.line m) w) as [w1 r].
  cbn [fst] in Hframe.
  destruct Hframe as (Hthis & Hws & HW & _ & _ & Hg & _ & _ & _ & _ & _
                      & drawn & Hdrawn & Htags).
  assert (Hbuf1 : Forall (fun entry => fst entry = World.generation w)
                    (Canvas2D.buffer (World.canvas2d w1))).
  { rewrite Hdrawn. apply Forall_app. split; [|exact Hbuf].
    rewrite <- Hgen. exact Htags. }
  assert (Hown1 : owned (World.workers w1) (World.generation w)
                    (Mandelbrot.renderThreads (World.this w1)))
    by (rewrite Hws, Hthis; exact Hown).
  assert (Hclose : forall w' : World.t num,
            World.generation w' = World.generation w1 ->
            World.window_Worker w' = World.window_Worker w1 ->
            Mandelbrot.renderParallel (World.this w')
              = Mandelbrot.renderParallel (World.this w1) ->
            Mandelbrot.renderThreads (World.this w')
              = Mandelbrot.renderThreads (World.this w1) ->
            Canvas2D.buffer (World.canvas2d w') = Canvas2D.buffer (World.canvas2d w1) ->
            (World.workers w' = World.workers w1
             \/ exists h', World.workers w'
                           = update_nth h' Worker.terminate (World.workers w1)) ->
            isolated w'
            /\ World.generation w' = World.generation w
            /\ World.window_Worker w' = World.window_Worker w
            /\ Mandelbrot.renderParallel (World.this w')
               = Mandelbrot.renderParallel (World.this w)).
  { intros w' Eg EW EP ET EB Ews.
    split; [split|rewrite Eg, EW, EP, Hg, HW, Hthis; repeat split].
    - rewrite Eg, Hg, ET.
      destruct Ews as [->|[h' ->]]; [exact Hown1|].
      apply owned_update; [apply terminate_benign|exact Hown1].
    - rewrite Eg, Hg, EB. exact Hbuf1. }
  destruct r as [e|].
  - apply Hclose; try reflexivity. now left.
  - destruct (flush_due _ _ _);
      (destruct (last_column _ _ _ _);
       [destruct (if Worker.i wk <? 0 then None else _) as [h'|]|]);
      apply Hclose; try reflexivity;
      first [now left | right; eexists; reflexivity].
Qed.

(** [render] under the parallel strategy: the workers of the previous call
    are terminated before the new ones are started, on a cleared buffer. *)
Lemma render_isolated (clock : nat -> Z) (w : World.t num) :
  parallel_strategy w ->
  isolated w ->
  isolated (render clock w)
  /\ parallel_strategy (render clock w)
  /\ World.generation (render clock w) = S (World.generation w).
Proof.
  intros [HW HP] [Hown _].
  destruct (render_parallel clock w HW HP) as (m' & Hthreads & HP' & ->).
  unfold _renderWorkers, isolated, parallel_strategy. cbn.
  rewrite Hthreads.
  set (killed := fold_left _ _ _).
  split; [split; [|constructor]|split; [split; assumption|reflexivity]].
  intros h wk Hnth Halive.
  destruct (Nat.lt_ge_cases h (List.length killed)) as [Hlt|Hge].
  - exfalso. subst killed. rewrite nth_error_app1 in Hnth by exact Hlt.
    destruct (kill_nth _ _ _ _ Hnth) as [Hdead Hkeep].
    destruct (Hown h wk (Hkeep Halive) Halive) as [_ Hin].
    rewrite Hdead in Halive; [discriminate|]. now apply in_rev in Hin.
  - rewrite nth_error_app2 in Hnth by exact Hge. clearbody killed.
    assert (Hbound :
              (h - List.length killed
               < List.length
                   (map (spawn (S (World.generation w)) (render_config w))
                      (range (Mandelbrot.parallelism (World.this w)))))%nat).
    { apply nth_error_Some. unfold render_config in Hnth. cbn in Hnth.
      unfold render_config. cbn. congruence. }
    split.
    + unfold render_config in Hnth. cbn in Hnth.
      rewrite nth_error_map in Hnth.
      destruct (nth_error (range _) _) as [i|]; [|discriminate].
      injection Hnth as <-. reflexivity.
    + apply in_map_iff. exists (h - List.length killed)%nat.
      split; [lia|]. apply in_seq. split; [lia|exact Hbound].
Qed.

Lemma deliver_isolated (h : nat) (w : World.t num) :
  parallel_strategy w ->
  isolated w ->
  isolated (deliver h w)
  /\ parallel_strategy (deliver h w)
  /\ World.generation (deliver h w) = World.generation w.
Proof.
  intros [HW HP] Hiso. unfold deliver.
  assert (Hidle : isolated w /\ parallel_strategy w
                  /\ World.generation w = World.generation w)
    by (split; [exact Hiso|split; [split; assumption|reflexivity]]).
  destruct (nth_error (World.workers w) h) as [wk|] eqn:Hwk; [|exact Hidle].
  destruct (Worker.alive wk) eqn:Halive; [|exact Hidle].
  destruct (Worker.outbox wk) as [|m rest]; [exact Hidle|].
  destruct Hiso as [Hown Hbuf].
  destruct (Hown h wk Hwk Halive) as [Hgen _].
  destruct (onmessage_isolated wk m
              (World.set_workers
                 (update_nth h (Worker.set_outbox rest) (World.workers w)) w))
    as (Hiso' & Hg' & HW' & HP').
  - exact Hgen.
  - split; [|exact Hbuf]. cbn.
    apply owned_update; [apply set_outbox_benign|exact Hown].
  - split; [exact Hiso'|]. split; [|exact Hg'].
    split; [rewrite HW'; exact HW|rewrite HP'; exact HP].
Qed.

Lemma step_isolated (w : World.t num) (ev : event num) :
  keeps_parallel ev ->
  parallel_strategy w ->
  isolated w ->
  isolated (step w ev) /\ parallel_strategy (step w ev).
Proof.
  intros Hev Hpar Hiso.
  destruct ev as [clock|h| |it sc dx dy par sh rp|wd ht]; cbn [step].
  - destruct (render_isolated clock w Hpar Hiso) as (H1 & H2 & _). now split.
  - destruct (deliver_isolated h w Hpar Hiso) as (H1 & H2 & _). now split.
  - destruct (World.timers w); split; assumption.
  - cbn in Hev. subst rp. destruct Hpar as [HW _]. split; [exact Hiso|].
    split; [exact HW|reflexivity].
  - split; assumption.
Qed.

(** As long as every render goes through [_renderWorkers], the buffer only
    ever holds writes of the latest [render] call. *)
Lemma parallel_runs_isolated (evs : list (event num)) :
  forall w : World.t num,
    Forall keeps_parallel evs ->
    parallel_strategy w ->
    isolated w ->
    isolated (run w evs) /\ parallel_strategy (run w evs).
Proof.
  induction evs as [|ev evs IH]; intros w Hevs Hpar Hiso; cbn [run fold_left].
  - now split.
  - inversion Hevs as [|? ? Hev Hrest]; subst.
    destruct (step_isolated w ev Hev Hpar Hiso) as [Hiso' Hpar'].
    now apply IH.
Qed.

Lemma init_isolated (c : Canvas2D.t num) (stack : nat) :
  Canvas2D.buffer c = [] ->
  isolated (World.init c true stack) /\ parallel_strategy (World.init c true stack).
Proof.
  intros Hc. split; [split|split; reflexivity].
  - intros [|h] wk Hnth; discriminate.
  - cbn. rewrite Hc. constructor.
Qed.

End GenerationFacts.

(** C4: the failing run.  The first render starts a worker; the second one
    takes the sequential path, which clears the buffer and draws its own
    pixel but terminates nothing; the first render's message then arrives and
    its pixel is written over the second render's buffer. *)
Theorem stale_generation_reaches_buffer (log : float -> float) :
  let M := F64.math log in
  let w := run (fresh_world 1 1) stale_trace in
  World.generation w = 2%nat
  /\ Canvas2D.buffer (World.canvas2d w)
     = [ (1%nat, white_pixel 0 0 1 2); (2%nat, white_pixel 0 0 0 2) ]
  /\ ~ isolated w.
Proof.
  intros M w.
  assert (Hgen : World.generation w = 2%nat) by (vm_compute; reflexivity).
  assert (Hbuf : Canvas2D.buffer (World.canvas2d w)
                 = [ (1%nat, white_pixel 0 0 1 2); (2%nat, white_pixel 0 0 0 2) ])
    by (vm_compute; reflexivity).
  split; [exact Hgen|]. split; [exact Hbuf|].
  intros [_ Htags]. rewrite Hbuf, Hgen in Htags.
  inversion Htags as [|? ? Hfirst _]. discriminate.
Qed.

(** * Further properties *)

(** ** What [render] leaves alone *)

Section FrameFacts.
Context {num : Type} {N : Number num} {M : MathLib num}.

Lemma same_view_refl (m : Mandelbrot.t num) : same_view m m.
Proof. repeat split. Qed.

Lemma same_view_trans (m1 m2 m3 : Mandelbrot.t num) :
  same_view m1 m2 -> same_view m2 m3 -> same_view m1 m3.
Proof.
  unfold same_view. intros H12 H23.
  destruct H12 as (A1 & A2 & A3 & A4 & A5 & A6 & A7 & A8).
  destruct H23 as (B1 & B2 & B3 & B4 & B5 & B6 & B7 & B8).
  repeat split; congruence.
Qed.

Lemma same_screen_refl (c : Canvas2D.t num) : same_screen c c.
Proof. repeat split. Qed.

Lemma same_screen_trans (c1 c2 c3 : Canvas2D.t num) :
  same_screen c1 c2 -> same_screen c2 c3 -> same_screen c1 c3.
Proof.
  unfold same_screen. intros (A1 & A2 & A3 & A4) (B1 & B2 & B3 & B4).
  repeat split; congruence.
Qed.

(** The callback of [_renderDirect] assigns [heightScalar] and writes to the
    buffer; it touches nothing else. *)
Lemma draw_columns_frame (msgs : list (Msg.t num)) :
  forall w : World.t num,
    let w' := fst (draw_columns msgs w) in
    same_view (World.this w) (World.this w')
    /\ Mandelbrot.renderThreads (World.this w')
       = Mandelbrot.renderThreads (World.this w)
    /\ Mandelbrot.width (World.this w') = Mandelbrot.width (World.this w)
    /\ Mandelbrot.height (World.this w') = Mandelbrot.height (World.this w)
    /\ same_screen (World.canvas2d w) (World.canvas2d w')
    /\ World.workers w' = World.workers w
    /\ World.window_Worker w' = World.window_Worker w
    /\ World.stack_limit w' = World.stack_limit w
    /\ World.timers w' = World.timers w
    /\ World.generation w' = World.generation w
    /\ World.uncaught w' = World.uncaught w.
Proof.
  induction msgs as [|m rest IH]; intros w; cbn [draw_columns].
  - cbn. repeat split.
  - pose proof (draw_line_frame (World.generation w) (Msg.Px m) (Msg.line m) 0 w)
      as Hline. cbn zeta in Hline.
    destruct (draw_line (World.generation w) (Msg.Px m) 0 (Msg.line m) w)
      as [w1 [e|]]; cbn [fst] in Hline;
      destruct Hline as (H1 & H2 & H3 & H4 & H5 & H6 & H7 & H8 & H9 & H10
                         & H11 & _).
    + cbn. rewrite H1, H2, H3, H4, H5, H6, H7.
      repeat split; assumption.
    + set (w2 := World.set_this
                   (Mandelbrot.set_heightScalar (received_heightScalar m)
                      (World.this w1)) w1).
      specialize (IH w2). cbn zeta in IH. cbn zeta.
      destruct IH as (I1 & I2 & I3 & I4 & I5 & I6 & I7 & I8 & I9 & I10 & I11).
      assert (Hview : same_view (World.this w) (World.this w2))
        by (unfold w2, same_view; cbn; rewrite H1; repeat split).
      split; [exact (same_view_trans _ _ _ Hview I1)|].
      split; [rewrite I2; unfold w2; cbn; now rewrite H1|].
      split; [rewrite I3; unfold w2; cbn; now rewrite H1|].
      split; [rewrite I4; unfold w2; cbn; now rewrite H1|].
      split.
      * apply same_screen_trans with (World.canvas2d w2); [|exact I5].
        unfold w2. cbn. repeat split; assumption.
      * rewrite I6, I7, I8, I9, I10, I11. unfold w2. cbn.
        repeat split; assumption.
Qed.

End FrameFacts.

Section RenderShape.
Context {num : Type} {N : Number num} {M : MathLib num}.

Lemma synced_facts (w : World.t num) :
  same_view (World.this w) (synced w)
  /\ Mandelbrot.renderThreads (synced w) = Mandelbrot.renderThreads (World.this w)
  /\ Mandelbrot.heightScalar (synced w) = Mandelbrot.heightScalar (World.this w)
  /\ Mandelbrot.width (synced w) = Some (Canvas2D.getWidth (World.canvas2d w))
  /\ Mandelbrot.height (synced w) = Some (Canvas2D.getHeight (World.canvas2d w)).
Proof.
  unfold synced.
  destruct (opt_eqb (Mandelbrot.width (World.this w))
              (Canvas2D.getWidth (World.canvas2d w))) eqn:Ew;
    [destruct (opt_eqb (Mandelbrot.height (World.this w))
                 (Canvas2D.getHeight (World.canvas2d w))) eqn:Eh|];
    cbn [negb orb]; cbn; repeat split.
  - now apply opt_eqb_true in Ew.
  - now apply opt_eqb_true in Eh.
Qed.

(** [render], with the configuration and the dispatch state named. *)
Lemma render_unfold (clock : nat -> Z) (w : World.t num) :
  render clock w
  = if World.window_Worker w && Mandelbrot.renderParallel (World.this w)
    then _renderWorkers (render_config w) (prepared w)
    else match _renderDirect clock (render_config w) (prepared w) with
         | (w', Some e) => World.raise e w'
         | (w', None) => w'
         end.
Proof.
  destruct (synced_facts w) as ((_ & V2 & V3 & V4 & V5 & _ & _ & V8)
                                & _ & HS & HWd & HHt).
  unfold render, prepared, render_config.
  cbn [World.set_generation World.canvas2d World.this World.window_Worker
       World.set_canvas2d World.set_this].
  fold (synced w).
  rewrite HWd, HHt, HS, V2, V3, V4, V5, V8.
  destruct (synced_facts w) as ((V1 & _) & _). rewrite V1.
  reflexivity.
Qed.

End RenderShape.

(** ** The messages of one task *)

Section MessageFacts.
Context {num : Type} {N : Number num}.

Lemma columns_of_done (x s W : Z) : 1 <= s -> W <= x -> columns_of x s W = [].
Proof.
  intros Hs Hx. unfold columns_of.
  replace (Z.to_nat ((W - x + s - 1) / s)) with O; [reflexivity|].
  assert ((W - x + s - 1) / s <= 0); [|lia].
  apply Z.lt_succ_r. apply Z.div_lt_upper_bound; lia.
Qed.

Lemma columns_of_next (x s W : Z) :
  1 <= s -> x < W -> columns_of x s W = x :: columns_of (x + s) s W.
Proof.
  intros Hs Hx. unfold columns_of.
  replace (W - x + s - 1) with (W - (x + s) + s - 1 + 1 * s) by lia.
  rewrite Z.div_add by lia.
  assert (Hq : 0 <= (W - (x + s) + s - 1) / s) by (apply Z.div_pos; lia).
  replace (Z.to_nat ((W - (x + s) + s - 1) / s + 1))
    with (S (Z.to_nat ((W - (x + s) + s - 1) / s))) by lia.
  cbn [seq map]. f_equal; [lia|].
  rewrite <- seq_shift, map_map. apply map_ext. intros k. lia.
Qed.

(** With a positive stride, the loop over [Px] hands over one message per
    column of [columns_of], in that order, each with one entry per row. *)
Lemma _baseRender_columns_shape (e : rConfig.t num) (cb : bool) (ws hs : num) :
  1 <= rConfig.xSkip e ->
  forall (fuel : nat) (Px : Z) (msgs : list (Msg.t num)),
    _baseRender_columns fuel e cb ws hs Px = Some msgs ->
    map Msg.Px msgs = columns_of Px (rConfig.xSkip e) (rConfig.width e)
    /\ Forall (fun m => List.length (Msg.line m) = Z.to_nat (rConfig.height e)
                        /\ Msg.heightScalar m = (if cb then None else Some hs))
              msgs.
Proof.
  intros Hs.
  induction fuel as [|fuel IH]; intros Px msgs Hrun;
    cbn [_baseRender_columns] in Hrun;
    destruct (Px <? rConfig.width e) eqn:Hlt;
    try discriminate;
    try (apply Z.ltb_ge in Hlt; injection Hrun as <-;
         split; [now rewrite columns_of_done|constructor]).
  apply Z.ltb_lt in Hlt.
  destruct (mapM _ (range (rConfig.height e))) as [line|] eqn:Hline;
    cbn [obind] in Hrun; [|discriminate].
  destruct (_baseRender_columns fuel e cb ws hs (Px + rConfig.xSkip e))
    as [rest|] eqn:Hrest; cbn [obind] in Hrun; [|discriminate].
  injection Hrun as <-.
  destruct (IH _ _ Hrest) as [Hcols Hall].
  split.
  - rewrite columns_of_next by assumption. cbn. now rewrite Hcols.
  - constructor; [|exact Hall]. cbn. split; [|reflexivity].
    rewrite (mapM_length _ _ _ Hline). apply range_length.
Qed.

(** With a stride of zero or less the loop over [Px] never ends once it is
    entered. *)
Lemma _baseRender_columns_diverges (e : rConfig.t num) (cb : bool) (ws hs : num) :
  rConfig.xSkip e <= 0 ->
  forall (fuel : nat) (Px : Z),
    Px < rConfig.width e ->
    _baseRender_columns fuel e cb ws hs Px = None.
Proof.
  intros Hs. induction fuel as [|fuel IH]; intros Px Hlt;
    cbn [_baseRender_columns];
    replace (Px <? rConfig.width e) with true by (symmetry; apply Z.ltb_lt; lia);
    [reflexivity|].
  destruct (mapM _ (range (rConfig.height e))); cbn [obind]; [|reflexivity].
  rewrite IH by lia. reflexivity.
Qed.

End MessageFacts.



(** X2.  With a stride of zero or less and a first column below [width],
    [_baseRender] never returns: no amount of fuel ends its loop over [Px]. *)
Theorem nonpositive_stride_diverges {num : Type} {N : Number num}
    (e : rConfig.t num) (cb : bool) (x : Z) (fuel : nat) :
  rConfig.xSkip e <= 0 ->
  rConfig.xInit e = Some x ->
  x < rConfig.width e ->
  _baseRender fuel e cb = None.
Proof.
  intros Hs Hx Hlt. unfold _baseRender. rewrite Hx.
  now apply _baseRender_columns_diverges.
Qed.

Lemma nonpositive_stride_diverges_witness :
  let e := rConfig.set_xInit 0 (rConfig.set_xSkip 0 striped_config) in
  rConfig.xSkip e <= 0
  /\ rConfig.xInit e = Some 0
  /\ 0 < rConfig.width e
  /\ _baseRender 1000 e false = None.
Proof.
  intros e.
  assert (Hs : rConfig.xSkip e <= 0) by discriminate.
  assert (Hx : rConfig.xInit e = Some 0) by reflexivity.
  assert (Hlt : 0 < rConfig.width e) by reflexivity.
  exact (conj Hs (conj Hx (conj Hlt
           (nonpositive_stride_diverges e false 0 1000 Hs Hx Hlt)))).
Defined.

(** ** The escape-time loop over exact reals *)

Section EscapeOverReals.
Import XR.
Local Open Scope R_scope.

Lemma orbit_step_fin (x0 y0 a b : R) :
  orbit_step (Fin x0) (Fin y0) (Fin a, Fin b)
  = (Fin (a * a + - (b * b) + x0), Fin (2 * a * b + y0)).
Proof. reflexivity. Qed.

Lemma inside_fin (a b : R) :
  inside (Fin a, Fin b) = true <-> a * a + b * b < 4.
Proof. unfold inside. cbn. apply XRFacts.xltb_fin. Qed.

(** Within a quarter of the origin the orbit stays within a half of it. *)
Lemma orbit_small (x0 y0 : R) :
  x0 * x0 + y0 * y0 <= 1 / 16 ->
  forall j : nat,
    exists a b : R,
      orbit (Fin x0) (Fin y0) j (Fin 0, Fin 0) = (Fin a, Fin b)
      /\ a * a + b * b <= 1 / 4.
Proof.
  intros Hc. induction j as [|j (a & b & Hj & Hab)].
  - exists 0, 0. split; [reflexivity|lra].
  - rewrite orbit_S, Hj, orbit_step_fin.
    eexists. eexists. split; [reflexivity|].
    set (p := a * a + - (b * b)). set (q := 2 * a * b).
    assert (Hpq : p * p + q * q = (a * a + b * b) * (a * a + b * b))
      by (unfold p, q; ring).
    assert (Hsq : (a * a + b * b) * (a * a + b * b) <= 1 / 16).
    { set (t := a * a + b * b) in *.
      assert (0 <= t) by (unfold t; nra).
      nra. }
    clearbody p q.
    pose proof (Rle_0_sqr (p - x0)) as Hp. pose proof (Rle_0_sqr (q - y0)) as Hq.
    unfold Rsqr in Hp, Hq. nra.
Qed.

End EscapeOverReals.

(** The point of [guard_sum_rounds_to_4], read over exact reals: the guard
    still holds after the first iteration. *)
Example guard_sum_below_4_exactly :
  inside (orbit (XR.Fin (9007199254740991 / 4503599627370496))
            (XR.Fin (7 / 268435456)) 1 (XR.Fin 0, XR.Fin 0)) = true.
Proof.
  cbn [orbit]. rewrite orbit_step_fin. apply inside_fin. lra.
Qed.

(** X3.  Over exact reals, a point at distance 2 or more from the origin
    leaves the loop after its first iteration: its intensity is [1/K] for
    every cap [K >= 2] (and 0 for [K = 1], the cap being reached). *)
Theorem outside_disc_escapes_at_once (x0 y0 : R) (K : Z) (fuel : nat) :
  (1 <= K)%Z ->
  (Z.to_nat K <= fuel)%nat ->
  (4 <= x0 * x0 + y0 * y0)%R ->
  escape_intensity fuel (XR.Fin x0) (XR.Fin y0) K
  = Some (if (K =? 1)%Z then XR.Fin 0 else XR.Fin (1 / IZR K)).
Proof.
  intros HK Hfuel Hout.
  destruct (escape_while_spec (XR.Fin x0) (XR.Fin y0) K fuel
              (XR.Fin 0) (XR.Fin 0) 0%Z)
    as (n & Hrun & Hcap & Hin & Hstop); [lia|rewrite Z.sub_0_r; exact Hfuel|].
  rewrite Z.add_0_l in Hrun, Hcap, Hstop.
  assert (Hfirst : inside (orbit (XR.Fin x0) (XR.Fin y0) 1 (XR.Fin 0, XR.Fin 0))
                   = false).
  { cbn [orbit]. rewrite orbit_step_fin.
    match goal with |- ?b = false => destruct b eqn:E end; [|reflexivity].
    apply inside_fin in E. nra. }
  assert (Hn : n = 1%nat).
  { destruct n as [|[|n]]; [|reflexivity|].
    - assert (H0 : inside (XR.Fin 0, XR.Fin 0) = false) by (apply Hstop; lia).
      rewrite XRFacts.inside_origin in H0. discriminate.
    - rewrite (Hin 1%nat) in Hfirst by lia. discriminate. }
  subst n. unfold escape_intensity.
  change (@of_Z XR.xreal XR.number 0) with (XR.Fin 0).
  rewrite Hrun. cbn [obind]. f_equal.
  change (Z.of_nat 1) with 1%Z. rewrite (Z.eqb_sym 1 K).
  assert (HKR : IZR K <> 0%R) by (apply not_0_IZR; lia).
  destruct (K =? 1)%Z; cbn [of_Z div XR.number];
    rewrite XRFacts.xdiv_fin by exact HKR; [f_equal; unfold Rdiv; ring|reflexivity].
Qed.

Lemma outside_disc_escapes_at_once_witness :
  (1 <= 50)%Z /\ (Z.to_nat 50 <= 50)%nat /\ (4 <= 2 * 2 + 1 * 1)%R
  /\ escape_intensity 50 (XR.Fin 2) (XR.Fin 1) 50
     = Some (if (50 =? 1)%Z then XR.Fin 0 else XR.Fin (1 / IZR 50)).
Proof.
  assert (H1 : (1 <= 50)%Z) by lia.
  assert (H2 : (Z.to_nat 50 <= 50)%nat) by (simpl; lia).
  assert (H3 : (4 <= 2 * 2 + 1 * 1)%R) by lra.
  exact (conj H1 (conj H2 (conj H3
           (outside_disc_escapes_at_once 2 1 50 50 H1 H2 H3)))).
Defined.

(** X4.  Over exact reals, a point within a quarter of the origin never
    leaves the loop: for every cap [K >= 1] all [K] iterations run and the
    intensity is 0. *)
Theorem near_origin_never_escapes (x0 y0 : R) (K : Z) (fuel : nat) :
  (1 <= K)%Z ->
  (Z.to_nat K <= fuel)%nat ->
  (x0 * x0 + y0 * y0 <= 1 / 16)%R ->
  escape_while fuel (XR.Fin x0) (XR.Fin y0) (XR.Fin 0) (XR.Fin 0) 0 K = Some K
  /\ escape_intensity fuel (XR.Fin x0) (XR.Fin y0) K = Some (XR.Fin 0).
Proof.
  intros HK Hfuel Hc.
  destruct (escape_while_spec (XR.Fin x0) (XR.Fin y0) K fuel
              (XR.Fin 0) (XR.Fin 0) 0%Z)
    as (n & Hrun & Hcap & _ & Hstop); [lia|rewrite Z.sub_0_r; exact Hfuel|].
  rewrite Z.add_0_l in Hrun, Hcap, Hstop.
  assert (Hn : Z.of_nat n = K).
  { destruct (Z.eq_dec (Z.of_nat n) K) as [E|E]; [exact E|exfalso].
    assert (Hlt : (Z.of_nat n < K)%Z) by lia.
    specialize (Hstop Hlt).
    destruct (orbit_small x0 y0 Hc n) as (a & b & Horb & Hab).
    rewrite Horb in Hstop.
    assert (Hin : inside (XR.Fin a, XR.Fin b) = true) by (apply inside_fin; lra).
    rewrite Hin in Hstop. discriminate. }
  rewrite Hn in Hrun. split; [exact Hrun|].
  unfold escape_intensity.
  change (@of_Z XR.xreal XR.number 0) with (XR.Fin 0).
  rewrite Hrun. cbn [obind]. rewrite Z.eqb_refl. f_equal.
  cbn [of_Z div XR.number]. rewrite XRFacts.xdiv_fin by (apply not_0_IZR; lia).
  f_equal. unfold Rdiv. ring.
Qed.

Lemma near_origin_never_escapes_witness :
  (1 <= 50)%Z /\ (Z.to_nat 50 <= 50)%nat
  /\ (1 / 8 * (1 / 8) + 1 / 8 * (1 / 8) <= 1 / 16)%R
  /\ escape_while 50 (XR.Fin (1 / 8)) (XR.Fin (1 / 8)) (XR.Fin 0) (XR.Fin 0) 0 50
     = Some 50%Z
  /\ escape_intensity 50 (XR.Fin (1 / 8)) (XR.Fin (1 / 8)) 50 = Some (XR.Fin 0).
Proof.
  assert (H1 : (1 <= 50)%Z) by lia.
  assert (H2 : (Z.to_nat 50 <= 50)%nat) by (simpl; lia).
  assert (H3 : (1 / 8 * (1 / 8) + 1 / 8 * (1 / 8) <= 1 / 16)%R) by lra.
  exact (conj H1 (conj H2 (conj H3
           (near_origin_never_escapes (1 / 8) (1 / 8) 50 50 H1 H2 H3)))).
Defined.

(** X5.  A cap of zero or less: the loop is not entered, for any point and
    any value of the numbers.  With [K = 0] the intensity is [0/0], that is
    NaN; with [K < 0] it is [0/K = 0]. *)
Theorem nonpositive_cap_intensity (x0 y0 : XR.xreal) (K : Z) (fuel : nat) :
  (K <= 0)%Z ->
  escape_while fuel x0 y0 (XR.Fin 0) (XR.Fin 0) 0 K = Some 0%Z
  /\ escape_intensity fuel x0 y0 K
     = Some (if (K =? 0)%Z then XR.NaN else XR.Fin 0).
Proof.
  intros HK.
  assert (Hrun : escape_while fuel x0 y0 (XR.Fin 0) (XR.Fin 0) 0 K = Some 0%Z).
  { destruct fuel; cbn [escape_while];
      replace (0 <? K)%Z with false by (symmetry; apply Z.ltb_ge; lia);
      now rewrite andb_false_r. }
  split; [exact Hrun|].
  unfold escape_intensity.
  change (@of_Z XR.xreal XR.number 0) with (XR.Fin 0).
  rewrite Hrun. cbn [obind]. f_equal.
  destruct (Z.eqb_spec 0 K) as [<-|Hne].
  - cbn. now rewrite XRFacts.sgn_zero.
  - replace (K =? 0)%Z with false by (symmetry; apply Z.eqb_neq; lia).
    cbn [of_Z div XR.number].
    rewrite XRFacts.xdiv_fin by (apply not_0_IZR; lia).
    f_equal. unfold Rdiv. ring.
Qed.

Lemma nonpositive_cap_intensity_witness :
  (0 <= 0)%Z
  /\ escape_while 0 (XR.Fin 1) XR.NaN (XR.Fin 0) (XR.Fin 0) 0 0 = Some 0%Z
  /\ escape_intensity 0 (XR.Fin 1) XR.NaN 0 = Some XR.NaN.
Proof.
  assert (H : (0 <= 0)%Z) by lia.
  exact (conj H (nonpositive_cap_intensity (XR.Fin 1) XR.NaN 0 0 H)).
Defined.

(** ** Drawing *)

Section DrawFacts.
Context {num : Type} {N : Number num} {M : MathLib num}.

(** A known mode never raises, and its result lands where [xy_of] says. *)
Lemma _pixelShader_known (stack : nat) (defaultShader Px Py : Z)
      (intensity : num) (mode : Z) :
  known mode ->
  exists p,
    _pixelShader stack defaultShader Px Py intensity mode = Normal p
    /\ pixel_xy p = xy_of mode Px Py.
Proof.
  intros [-> | [-> | [-> | ->]]]; destruct stack; eexists; split; reflexivity.
Qed.

(** One column drawn under a known mode: no exception, one write per entry
    of the line, at rows [idx, idx+1, ...] of column [Px]. *)
Lemma draw_line_known (gen : nat) (Px : Z) (line : list num) :
  forall (idx : Z) (w : World.t num),
    known (Mandelbrot.shader (World.this w)) ->
    snd (draw_line gen Px idx line w) = None
    /\ map (fun entry => pixel_xy (snd entry))
           (Canvas2D.buffer (World.canvas2d (fst (draw_line gen Px idx line w))))
       = rev (map (fun j => xy_of (Mandelbrot.shader (World.this w)) Px
                              (idx + Z.of_nat j))
                  (seq 0 (List.length line)))
         ++ map (fun entry => pixel_xy (snd entry))
                (Canvas2D.buffer (World.canvas2d w)).
Proof.
  induction line as [|intensity rest IH]; intros idx w Hknown; cbn [draw_line].
  - split; reflexivity.
  - destruct (_pixelShader_known (World.stack_limit w)
                (Mandelbrot.defaultShader (World.this w)) Px idx intensity
                (Mandelbrot.shader (World.this w)) Hknown) as (p & -> & Hxy).
    destruct (IH (idx + 1)
                 (World.set_canvas2d
                    (Canvas2D.drawBufferedPixel gen p (World.canvas2d w)) w)
                 Hknown) as [Hok Hbuf].
    split; [exact Hok|]. rewrite Hbuf.
    cbn [List.length seq map rev]. rewrite <- seq_shift, map_map.
    cbn [World.set_canvas2d World.this World.canvas2d Canvas2D.drawBufferedPixel
         Canvas2D.buffer map snd].
    rewrite Hxy, <- app_assoc. cbn [app]. f_equal.
    + f_equal. apply map_ext. intros j. f_equal. lia.
    + now rewrite Z.add_0_r.
Qed.

Lemma last_Some {A : Type} (l : list A) (a : A) :
  exists x, last (map Some (a :: l)) None = Some x /\ In x (a :: l).
Proof.
  revert a. induction l as [|b l IH]; intros a.
  - exists a. split; [reflexivity|now left].
  - destruct (IH b) as (x & Hx & Hin). exists x. split; [exact Hx|now right].
Qed.

(** The columns of the callback under a known mode: no exception, the writes
    of every message in turn, and [heightScalar] left as the last message had
    it. *)
Lemma draw_columns_known (msgs : list (Msg.t num)) :
  forall w : World.t num,
    known (Mandelbrot.shader (World.this w)) ->
    snd (draw_columns msgs w) = None
    /\ map (fun entry => pixel_xy (snd entry))
           (Canvas2D.buffer (World.canvas2d (fst (draw_columns msgs w))))
       = rev (flat_map
                (fun m => map (fun j => xy_of (Mandelbrot.shader (World.this w))
                                          (Msg.Px m) (Z.of_nat j))
                              (seq 0 (List.length (Msg.line m))))
                msgs)
         ++ map (fun entry => pixel_xy (snd entry))
                (Canvas2D.buffer (World.canvas2d w))
    /\ Mandelbrot.heightScalar (World.this (fst (draw_columns msgs w)))
       = match last (map Some msgs) None with
         | Some m => received_heightScalar m
         | None => Mandelbrot.heightScalar (World.this w)
         end.
Proof.
  induction msgs as [|m rest IH]; intros w Hknown; cbn [draw_columns].
  - repeat split.
  - destruct (draw_line_known (World.generation w) (Msg.Px m) (Msg.line m) 0 w Hknown)
      as [Hok Hbuf].
    pose proof (draw_line_frame (World.generation w) (Msg.Px m) (Msg.line m) 0 w)
      as Hframe. cbn zeta in Hframe.
    destruct (draw_line (World.generation w) (Msg.Px m) 0 (Msg.line m) w)
      as [w1 r]. cbn [fst snd] in *. subst r.
    destruct Hframe as (Hthis & _).
    set (w2 := World.set_this
                 (Mandelbrot.set_heightScalar (received_heightScalar m)
                    (World.this w1)) w1).
    assert (Hshader : Mandelbrot.shader (World.this w2)
                      = Mandelbrot.shader (World.this w))
      by (unfold w2; cbn; now rewrite Hthis).
    destruct (IH w2) as (Hok2 & Hbuf2 & Hhs2); [rewrite Hshader; exact Hknown|].
    split; [exact Hok2|]. split.
    + rewrite Hbuf2, Hshader. unfold w2. cbn [World.set_this World.canvas2d].
      rewrite Hbuf. cbn [flat_map]. rewrite rev_app_distr, <- app_assoc.
      reflexivity.
    + rewrite Hhs2. destruct rest as [|m' rest']; [reflexivity|].
      destruct (last_Some rest' m') as (x & Hx & _).
      change (last (map Some (m :: m' :: rest')) None)
        with (last (map Some (m' :: rest')) None).
      now rewrite Hx.
Qed.

End DrawFacts.

(** ** The sequential strategy, end to end *)

Section SequentialFacts.
Context {num : Type} {N : Number num} {M : MathLib num}.

Lemma columns_of_unit (W : Z) : columns_of 0 1 W = range W.
Proof.
  unfold columns_of, range.
  replace ((W - 0 + 1 - 1) / 1) with W by (rewrite Z.div_1_r; lia).
  apply map_ext. intros k. lia.
Qed.

Lemma prepared_facts (w : World.t num) :
  same_view (World.this w) (World.this (prepared w))
  /\ Mandelbrot.shader (World.this (prepared w)) = Mandelbrot.shader (World.this w)
  /\ Mandelbrot.heightScalar (World.this (prepared w))
     = Mandelbrot.heightScalar (World.this w)
  /\ Mandelbrot.width (World.this (prepared w))
     = Some (Canvas2D.getWidth (World.canvas2d w))
  /\ Mandelbrot.height (World.this (prepared w))
     = Some (Canvas2D.getHeight (World.canvas2d w))
  /\ Canvas2D.buffer (World.canvas2d (prepared w)) = []
  /\ same_screen (World.canvas2d w) (World.canvas2d (prepared w))
  /\ World.timers (prepared w) = World.timers w
  /\ World.uncaught (prepared w) = World.uncaught w
  /\ World.generation (prepared w) = S (World.generation w).
Proof.
  destruct (synced_facts w) as (Hview & _ & Hhs & Hwd & Hht).
  unfold prepared. cbn.
  split; [exact Hview|]. split; [apply Hview|].
  repeat split; assumption.
Qed.

(** The messages of the single task of [_renderDirect]: one per column
    [0 .. width-1], each with [height] entries and no [heightScalar]. *)
Lemma direct_messages (w : World.t num) :
  exists msgs,
    _baseRender
      (columns_fuel (rConfig.set_xInit 0 (rConfig.set_xSkip 1 (render_config w))))
      (rConfig.set_xInit 0 (rConfig.set_xSkip 1 (render_config w))) true
    = Some msgs
    /\ map Msg.Px msgs = range (Canvas2D.getWidth (World.canvas2d w))
    /\ Forall (fun m =>
                 List.length (Msg.line m)
                 = Z.to_nat (Canvas2D.getHeight (World.canvas2d w))
                 /\ Msg.heightScalar m = None)
              msgs.
Proof.
  set (e := rConfig.set_xInit 0 (rConfig.set_xSkip 1 (render_config w))).
  assert (Hs : 1 <= rConfig.xSkip e) by (cbn; lia).
  destruct (_baseRender_total e true Hs) as [msgs Hrun].
  exists msgs. split; [exact Hrun|].
  unfold _baseRender in Hrun. cbn [e rConfig.set_xInit rConfig.xInit] in Hrun.
  destruct (_baseRender_columns_shape e true _ _ Hs _ _ _ Hrun) as [Hcols Hall].
  split; [rewrite Hcols; apply columns_of_unit|exact Hall].
Qed.

(** A clock that never runs more than 50 ms past the start of the call
    schedules nothing. *)
Lemma _renderDirect_columns_slow (clock : nat -> Z) (timeout : Z) :
  (forall k, clock k - timeout <= 50) ->
  forall (msgs : list (Msg.t num)) (k : nat) (w : World.t num),
    _renderDirect_columns clock msgs timeout k w = draw_columns msgs w.
Proof.
  intros Hslow. induction msgs as [|m rest IH]; intros k w;
    cbn [_renderDirect_columns draw_columns]; [reflexivity|].
  destruct (draw_line (World.generation w) (Msg.Px m) 0 (Msg.line m) w)
    as [w1 [e|]]; [reflexivity|].
  replace (clock k - timeout >? 50) with false
    by (symmetry; rewrite Z.gtb_ltb; apply Z.ltb_ge, Hslow).
  apply IH.
Qed.


End SequentialFacts.

Section SequentialRender.
Context {num : Type} {N : Number num} {M : MathLib num}.

Lemma render_sequential_known (clock : nat -> Z) (w : World.t num) :
  sequential_strategy w ->
  known (Mandelbrot.shader (World.this w)) ->
  exists (msgs : list (Msg.t num)) (n : nat),
    map Msg.Px msgs = range (Canvas2D.getWidth (World.canvas2d w))
    /\ Forall (fun m =>
                 List.length (Msg.line m)
                 = Z.to_nat (Canvas2D.getHeight (World.canvas2d w))
                 /\ Msg.heightScalar m = None)
              msgs
    /\ snd (draw_columns msgs (prepared w)) = None
    /\ render clock w = World.set_timers n (fst (draw_columns msgs (prepared w))).
Proof.
  intros Hseq Hknown.
  destruct (direct_messages w) as (msgs & Hrun & Hcols & Hall).
  destruct (prepared_facts w) as (_ & Hshader & _).
  destruct (draw_columns_known msgs (prepared w)) as (Hok & _);
    [rewrite Hshader; exact Hknown|].
  destruct (_renderDirect_clock clock (render_config w) (prepared w)) as [n Hn].
  exists msgs, n. split; [exact Hcols|]. split; [exact Hall|].
  split; [exact Hok|].
  rewrite render_unfold. unfold sequential_strategy in Hseq. rewrite Hseq, Hn.
  unfold direct_columns. rewrite Hrun, Hok. reflexivity.
Qed.

End SequentialRender.



(** X7.  After a sequential render of a canvas at least one column wide,
    under a shader mode that does not raise, [this.heightScalar] is
    [undefined]: the callback reads a property that its message does not
    have. *)
Theorem sequential_render_loses_heightScalar {num : Type} {N : Number num}
    {M : MathLib num} (clock : nat -> Z) (w : World.t num) :
  sequential_strategy w ->
  known (Mandelbrot.shader (World.this w)) ->
  1 <= Canvas2D.getWidth (World.canvas2d w) ->
  Mandelbrot.heightScalar (World.this (render clock w)) = Undefined.
Proof.
  intros Hseq Hknown Hwide.
  destruct (render_sequential_known clock w Hseq Hknown)
    as (msgs & n & Hcols & Hall & _ & ->).
  destruct (prepared_facts w) as (_ & Hshader & _).
  destruct (draw_columns_known msgs (prepared w)) as (_ & _ & Hhs);
    [rewrite Hshader; exact Hknown|].
  cbn [World.set_timers World.this]. rewrite Hhs.
  destruct msgs as [|m0 rest].
  - exfalso. apply (f_equal (@List.length Z)) in Hcols.
    rewrite range_length in Hcols. cbn in Hcols. lia.
  - destruct (last_Some rest m0) as (m & Hm & Hin). rewrite Hm.
    rewrite Forall_forall in Hall. destruct (Hall m Hin) as [_ Hnone].
    unfold received_heightScalar. now rewrite Hnone.
Qed.

Lemma sequential_render_loses_heightScalar_witness :
  sequential_strategy sequential_world
  /\ known (Mandelbrot.shader (World.this sequential_world))
  /\ 1 <= Canvas2D.getWidth (World.canvas2d sequential_world)
  /\ Mandelbrot.heightScalar
       (World.this (render (fun _ => 0) sequential_world)) = Undefined.
Proof.
  assert (Hseq : sequential_strategy sequential_world) by reflexivity.
  assert (Hknown : known (Mandelbrot.shader (World.this sequential_world)))
    by (left; reflexivity).
  assert (Hwide : 1 <= Canvas2D.getWidth (World.canvas2d sequential_world))
    by discriminate.
  exact (conj Hseq (conj Hknown (conj Hwide
           (sequential_render_loses_heightScalar (fun _ => 0) sequential_world
              Hseq Hknown Hwide)))).
Defined.



(** X9.  Under the sequential strategy, when the clock never reads more
    than 50 ms past its first value, [render] neither flushes nor schedules a
    flush: what the screen shows is what it showed before, whatever was
    computed, and no timer is added. *)
Theorem quick_sequential_render_is_not_shown {num : Type} {N : Number num}
    {M : MathLib num} (clock : nat -> Z) (w : World.t num) :
  sequential_strategy w ->
  (forall k, clock k - clock O <= 50) ->
  same_screen (World.canvas2d w) (World.canvas2d (render clock w))
  /\ World.timers (render clock w) = World.timers w.
Proof.
  intros Hseq Hslow.
  destruct (prepared_facts w)
    as (_ & _ & _ & _ & _ & _ & Hscreen & Htimers & _).
  rewrite render_unfold. unfold sequential_strategy in Hseq. rewrite Hseq.
  unfold _renderDirect.
  destruct (_baseRender _ _ true) as [msgs|].
  - rewrite (_renderDirect_columns_slow clock (clock O) Hslow).
    destruct (draw_columns_frame msgs (prepared w))
      as (_ & _ & _ & _ & Hscreen' & _ & _ & _ & Htimers' & _).
    cbn zeta in Hscreen', Htimers'.
    destruct (draw_columns msgs (prepared w)) as [w' [e|]];
      cbn [fst] in Hscreen', Htimers'; cbn;
      (split; [exact (same_screen_trans _ _ _ Hscreen Hscreen')|congruence]).
  - split; [exact Hscreen|exact Htimers].
Qed.

Lemma quick_sequential_render_is_not_shown_witness :
  sequential_strategy sequential_world
  /\ (forall k : nat, (fun _ : nat => 0) k - (fun _ : nat => 0) O <= 50)
  /\ same_screen (World.canvas2d sequential_world)
       (World.canvas2d (render (fun _ => 0) sequential_world))
  /\ World.timers (render (fun _ => 0) sequential_world)
     = World.timers sequential_world.
Proof.
  assert (Hseq : sequential_strategy sequential_world) by reflexivity.
  assert (Hslow : forall k : nat, (fun _ : nat => 0) k - (fun _ : nat => 0) O <= 50)
    by (intros k; simpl; lia).
  exact (conj Hseq (conj Hslow
           (quick_sequential_render_is_not_shown (fun _ => 0) sequential_world
              Hseq Hslow))).
Defined.

(** X10.  [render] assigns none of the fields that describe the view
    (iterations, scale, pan, parallelism, shader modes, strategy): it reads
    them.  After it, [this.width] and [this.height] hold the size of the
    canvas, whatever they held before, and the canvas keeps its size. *)
Theorem render_keeps_view {num : Type} {N : Number num} {M : MathLib num}
    (clock : nat -> Z) (w : World.t num) :
  same_view (World.this w) (World.this (render clock w))
  /\ Mandelbrot.width (World.this (render clock w))
     = Some (Canvas2D.getWidth (World.canvas2d w))
  /\ Mandelbrot.height (World.this (render clock w))
     = Some (Canvas2D.getHeight (World.canvas2d w))
  /\ Canvas2D.getWidth (World.canvas2d (render clock w))
     = Canvas2D.getWidth (World.canvas2d w)
  /\ Canvas2D.getHeight (World.canvas2d (render clock w))
     = Canvas2D.getHeight (World.canvas2d w).
Proof.
  destruct (prepared_facts w)
    as (Hview & _ & _ & Hwd & Hht & _ & (Hgw & Hgh & _) & _).
  rewrite render_unfold.
  destruct (World.window_Worker w && Mandelbrot.renderParallel (World.this w)).
  - unfold _renderWorkers. cbn.
    split; [exact Hview|]. repeat split; assumption.
  - destruct (_renderDirect_clock clock (render_config w) (prepared w)) as [n ->].
    assert (Hcols : exists msgs,
               direct_columns (render_config w) (prepared w)
               = draw_columns msgs (prepared w)).
    { unfold direct_columns. destruct (_baseRender _ _ true) as [msgs|].
      - now exists msgs.
      - now exists []. }
    destruct Hcols as [msgs ->].
    destruct (draw_columns_frame msgs (prepared w))
      as (Hview' & _ & Hwd' & Hht' & (Hgw' & Hgh' & _) & _).
    cbn zeta in Hview', Hwd', Hht', Hgw', Hgh'.
    destruct (draw_columns msgs (prepared w)) as [w' [e|]];
      cbn [fst snd] in *; cbn;
      (split; [exact (same_view_trans _ _ _ Hview Hview')|]);
      repeat split; congruence.
Qed.

Section HandlerOfPostedColumn.
Context {num : Type} {N : Number num} {M : MathLib num}.

(** What a task started by [_renderWorkers] posts. *)
Lemma spawn_messages (gen : nat) (c : rConfig.t num) (i : Z) :
  1 <= rConfig.xSkip c ->
  Forall (fun m =>
            Msg.Px m < rConfig.width c
            /\ List.length (Msg.line m) = Z.to_nat (rConfig.height c)
            /\ Msg.heightScalar m
               = Some (ViewportTransform.heightScalar (rConfig.width c)
                         (rConfig.height c) (rConfig.scale c)))
         (Worker.outbox (spawn gen c i)).
Proof.
  intros Hs. apply Forall_forall. intros m Hm.
  destruct (spawn_columns gen c i Hs) as [Hcols _]. cbn zeta in Hcols.
  assert (HPx : Msg.Px m < rConfig.width c).
  { destruct (proj1 (Hcols (Msg.Px m))) as (k & _ & _ & Hlt);
      [now apply in_map|exact Hlt]. }
  split; [exact HPx|].
  unfold spawn in Hm. cbn [Worker.outbox] in Hm.
  destruct (_baseRender _ (rConfig.set_xInit i c) false) as [msgs|] eqn:Hrun;
    [|contradiction].
  unfold _baseRender in Hrun. cbn [rConfig.set_xInit rConfig.xInit] in Hrun.
  destruct (_baseRender_columns_shape (rConfig.set_xInit i c) false _ _ Hs _ _ _ Hrun)
    as [_ Hall].
  rewrite Forall_forall in Hall. exact (Hall m Hm).
Qed.

(** A posted column is below [width], and the handler's [i] is [xSkip]. *)
Lemma handler_column_is_not_last (gen : nat) (c : rConfig.t num) (i : Z)
      (m : Msg.t num) :
  1 <= rConfig.xSkip c ->
  In m (Worker.outbox (spawn gen c i)) ->
  last_column (rConfig.width c) (rConfig.xSkip c) (rConfig.xSkip c) (Msg.Px m)
  = false.
Proof.
  intros Hs Hm.
  pose proof (spawn_messages gen c i Hs) as Hall.
  rewrite Forall_forall in Hall. destruct (Hall m Hm) as (HPx & _).
  unfold last_column. rewrite Z.geb_leb. apply Z.leb_gt. lia.
Qed.

End HandlerOfPostedColumn.

(** X11.  The handler of a worker never reaches its [terminate] call on a
    column that the worker posts: all handlers of one [_renderWorkers] call
    share its [var i], which holds [xSkip] by the time a message arrives, so
    the test of line 100 reads [Px >= width].  The worker table and
    [this.renderThreads] are as they were, whatever the shader does. *)
Theorem handler_never_terminates {num : Type} {N : Number num} {M : MathLib num}
    (gen : nat) (c : rConfig.t num) (i : Z) (m : Msg.t num) (w : World.t num) :
  1 <= rConfig.xSkip c ->
  In m (Worker.outbox (spawn gen c i)) ->
  let wk := spawn gen c i in
  last_column (Worker.width wk) (Worker.xSkip wk) (Worker.i wk) (Msg.Px m) = false
  /\ World.workers (onmessage wk m w) = World.workers w
  /\ Mandelbrot.renderThreads (World.this (onmessage wk m w))
     = Mandelbrot.renderThreads (World.this w).
Proof.
  intros Hs Hm wk.
  assert (Hlast : last_column (Worker.width wk) (Worker.xSkip wk) (Worker.i wk)
                    (Msg.Px m) = false)
    by exact (handler_column_is_not_last gen c i m Hs Hm).
  split; [exact Hlast|].
  unfold onmessage. rewrite Hlast.
  pose proof (draw_line_frame (Worker.gen wk) (Msg.Px m) (Msg.line m) 0 w) as Hframe.
  cbn zeta in Hframe.
  destruct (draw_line (Worker.gen wk) (Msg.Px m) 0 (Msg.line m) w) as [w1 r].
  cbn [fst] in Hframe. destruct Hframe as (Hthis & Hws & _).
  destruct r as [e|]; [|destruct (flush_due _ _ _)]; cbn;
    rewrite ?Hthis; split; assumption || reflexivity.
Qed.

Lemma handler_never_terminates_witness :
  let M := F64.math (fun x => x) in
  1 <= rConfig.xSkip striped_config
  /\ In striped_message (Worker.outbox (spawn 1 striped_config 0))
  /\ last_column (Worker.width striped_worker) (Worker.xSkip striped_worker)
       (Worker.i striped_worker) (Msg.Px striped_message) = false
  /\ World.workers (onmessage striped_worker striped_message (fresh_world 5 1))
     = World.workers (fresh_world 5 1)
  /\ Mandelbrot.renderThreads
       (World.this (onmessage striped_worker striped_message (fresh_world 5 1)))
     = Mandelbrot.renderThreads (World.this (fresh_world 5 1)).
Proof.
  intros M.
  assert (Hs : 1 <= rConfig.xSkip striped_config) by discriminate.
  assert (Hm : In striped_message (Worker.outbox (spawn 1 striped_config 0)))
    by (vm_compute; left; reflexivity).
  exact (conj Hs (conj Hm
           (handler_never_terminates 1 striped_config 0 striped_message
              (fresh_world 5 1) Hs Hm))).
Defined.

(** X12.  The handler on a column that its worker posted, under a shader
    mode that does not raise: it raises nothing, writes one entry per row of
    that column, sets [this.heightScalar] to [(3.5*height/width)/scale] of the
    configuration the worker was given, and flushes exactly when the test of
    line 98 holds. *)
Theorem handler_of_posted_column {num : Type} {N : Number num} {M : MathLib num}
    (gen : nat) (c : rConfig.t num) (i : Z) (m : Msg.t num) (w : World.t num) :
  1 <= rConfig.xSkip c ->
  In m (Worker.outbox (spawn gen c i)) ->
  known (Mandelbrot.shader (World.this w)) ->
  let w' := onmessage (spawn gen c i) m w in
  World.uncaught w' = World.uncaught w
  /\ map (fun entry => pixel_xy (snd entry)) (Canvas2D.buffer (World.canvas2d w'))
     = rev (map (xy_of (Mandelbrot.shader (World.this w)) (Msg.Px m))
                (range (rConfig.height c)))
       ++ map (fun entry => pixel_xy (snd entry))
              (Canvas2D.buffer (World.canvas2d w))
  /\ Mandelbrot.heightScalar (World.this w')
     = Num (ViewportTransform.heightScalar (rConfig.width c) (rConfig.height c)
              (rConfig.scale c))
  /\ Canvas2D.flushes (World.canvas2d w')
     = (if flush_due (rConfig.width c) (rConfig.xSkip c) (Msg.Px m)
        then S (Canvas2D.flushes (World.canvas2d w))
        else Canvas2D.flushes (World.canvas2d w)).
Proof.
  intros Hs Hm Hknown w'. subst w'.
  pose proof (spawn_messages gen c i Hs) as Hall.
  rewrite Forall_forall in Hall. destruct (Hall m Hm) as (_ & Hlen & Hhs).
  pose proof (handler_column_is_not_last gen c i m Hs Hm) as Hlast.
  destruct (draw_line_known gen (Msg.Px m) (Msg.line m) 0 w Hknown) as [Hok Hbuf].
  pose proof (draw_line_frame gen (Msg.Px m) (Msg.line m) 0 w) as Hframe.
  cbn zeta in Hframe.
  unfold onmessage.
  change (Worker.gen (spawn gen c i)) with gen.
  change (Worker.width (spawn gen c i)) with (rConfig.width c).
  change (Worker.xSkip (spawn gen c i)) with (rConfig.xSkip c).
  change (Worker.i (spawn gen c i)) with (rConfig.xSkip c).
  destruct (draw_line gen (Msg.Px m) 0 (Msg.line m) w) as [w1 r].
  cbn [fst snd] in *. subst r.
  destruct Hframe as (_ & _ & _ & _ & _ & _ & Hunc & _ & _ & _ & Hfl & _).
  rewrite Hlast.
  assert (Hrows : map (fun entry => pixel_xy (snd entry))
                      (Canvas2D.buffer (World.canvas2d w1))
                  = rev (map (xy_of (Mandelbrot.shader (World.this w)) (Msg.Px m))
                             (range (rConfig.height c)))
                    ++ map (fun entry => pixel_xy (snd entry))
                           (Canvas2D.buffer (World.canvas2d w))).
  { rewrite Hbuf, Hlen. unfold range. now rewrite map_map. }
  unfold received_heightScalar. rewrite Hhs.
  destruct (flush_due _ _ _); cbn; rewrite Hunc, Hfl; repeat split; exact Hrows.
Qed.

Lemma handler_of_posted_column_witness :
  let M := F64.math (fun x => x) in
  let c := striped_config in
  let m := striped_message in
  let w := fresh_world 5 1 in
  1 <= rConfig.xSkip c
  /\ In m (Worker.outbox (spawn 1 c 0))
  /\ known (Mandelbrot.shader (World.this w))
  /\ let w' := onmessage (spawn 1 c 0) m w in
     World.uncaught w' = World.uncaught w
     /\ map (fun entry => pixel_xy (snd entry)) (Canvas2D.buffer (World.canvas2d w'))
        = rev (map (xy_of (Mandelbrot.shader (World.this w)) (Msg.Px m))
                   (range (rConfig.height c)))
          ++ map (fun entry => pixel_xy (snd entry))
                 (Canvas2D.buffer (World.canvas2d w))
     /\ Mandelbrot.heightScalar (World.this w')
        = Num (ViewportTransform.heightScalar (rConfig.width c) (rConfig.height c)
                 (rConfig.scale c))
     /\ Canvas2D.flushes (World.canvas2d w')
        = (if flush_due (num := float) (rConfig.width c) (rConfig.xSkip c) (Msg.Px m)
           then S (Canvas2D.flushes (World.canvas2d w))
           else Canvas2D.flushes (World.canvas2d w)).
Proof.
  intros M c m w.
  assert (Hs : 1 <= rConfig.xSkip c) by discriminate.
  assert (Hm : In m (Worker.outbox (spawn 1 c 0)))
    by (vm_compute; left; reflexivity).
  assert (Hknown : known (Mandelbrot.shader (World.this w)))
    by (left; reflexivity).
  exact (conj Hs (conj Hm (conj Hknown
           (handler_of_posted_column 1 c 0 m w Hs Hm Hknown)))).
Defined.

(** ** The worker table *)

Section WorkerTableFacts.
Context {num : Type} {N : Number num} {M : MathLib num}.

(** The callback of [_renderDirect] touches neither the workers nor
    [this.renderThreads], and it does not flush. *)
Lemma _renderDirect_columns_frame (clock : nat -> Z) (msgs : list (Msg.t num)) :
  forall (timeout : Z) (k : nat) (w : World.t num),
    let w' := fst (_renderDirect_columns clock msgs timeout k w) in
    Mandelbrot.renderThreads (World.this w')
    = Mandelbrot.renderThreads (World.this w)
    /\ World.workers w' = World.workers w
    /\ same_screen (World.canvas2d w) (World.canvas2d w').
Proof.
  induction msgs as [|m rest IH]; intros timeout k w;
    cbn [_renderDirect_columns].
  - cbn. repeat split.
  - pose proof (draw_line_frame (World.generation w) (Msg.Px m) (Msg.line m) 0 w)
      as Hline. cbn zeta in Hline.
    destruct (draw_line (World.generation w) (Msg.Px m) 0 (Msg.line m) w)
      as [w1 [e|]]; cbn [fst] in Hline;
      destruct Hline as (H1 & H2 & _ & _ & _ & _ & _ & H8 & H9 & H10 & H11 & _).
    + cbn [fst]. rewrite H1, H2. repeat split; assumption.
    + set (w2 := World.set_this
                   (Mandelbrot.set_heightScalar (received_heightScalar m)
                      (World.this w1)) w1).
      assert (Hw2 : Mandelbrot.renderThreads (World.this w2)
                    = Mandelbrot.renderThreads (World.this w)
                    /\ World.workers w2 = World.workers w
                    /\ same_screen (World.canvas2d w) (World.canvas2d w2)).
      { unfold w2. cbn. rewrite H1, H2. repeat split; assumption. }
      destruct Hw2 as (T2 & W2 & S2).
      destruct (clock k - timeout >? 50).
      * destruct (IH (clock (S k)) (S (S k))
                    (World.set_timers (S (World.timers w2)) w2))
          as (T3 & W3 & S3).
        cbn zeta in T3, W3, S3. cbn zeta.
        rewrite T3, W3. cbn [World.set_timers World.this World.workers].
        split; [exact T2|]. split; [exact W2|].
        exact (same_screen_trans _ _ _ S2 S3).
      * destruct (IH timeout (S k) w2) as (T3 & W3 & S3).
        cbn zeta in T3, W3, S3. cbn zeta.
        rewrite T3, W3.
        split; [exact T2|]. split; [exact W2|].
        exact (same_screen_trans _ _ _ S2 S3).
Qed.

(** [_renderWorkers] terminates the workers listed in [this.renderThreads]
    and lists the ones it starts. *)
Lemma _renderWorkers_tracked (c : rConfig.t num) (w : World.t num) :
  tracked w -> tracked (_renderWorkers c w).
Proof.
  intros Htr h wk Hnth Halive.
  unfold _renderWorkers in *. cbn in Hnth |- *.
  set (killed := fold_left _ _ _) in *.
  destruct (Nat.lt_ge_cases h (List.length killed)) as [Hlt|Hge].
  - exfalso. subst killed. rewrite nth_error_app1 in Hnth by exact Hlt.
    destruct (kill_nth _ _ _ _ Hnth) as [Hdead Hkeep].
    pose proof (Htr h wk (Hkeep Halive) Halive) as Hin.
    rewrite Hdead in Halive; [discriminate|]. now apply in_rev in Hin.
  - rewrite nth_error_app2 in Hnth by exact Hge.
    assert (Hbound : (h - List.length killed
                      < List.length
                          (map (spawn (World.generation w) c)
                             (range (rConfig.xSkip c))))%nat)
      by (apply nth_error_Some; congruence).
    apply in_map_iff. exists (h - List.length killed)%nat.
    split; [lia|]. apply in_seq. split; [lia|exact Hbound].
Qed.

(** [render] never flushes, and it keeps every live worker listed. *)
Lemma render_screen_tracked (clock : nat -> Z) (w : World.t num) :
  same_screen (World.canvas2d w) (World.canvas2d (render clock w))
  /\ (tracked w -> tracked (render clock w)).
Proof.
  destruct (prepared_facts w) as (_ & _ & _ & _ & _ & _ & Hscreen & _).
  destruct (synced_facts w) as (_ & Hthreads & _).
  assert (Hprep : tracked w -> tracked (prepared w)).
  { intros Htr h wk Hnth Halive. unfold prepared. cbn.
    rewrite Hthreads. exact (Htr h wk Hnth Halive). }
  rewrite render_unfold.
  destruct (World.window_Worker w && Mandelbrot.renderParallel (World.this w)).
  - split; [exact Hscreen|].
    intros Htr. apply _renderWorkers_tracked, Hprep, Htr.
  - unfold _renderDirect.
    destruct (_baseRender _ _ true) as [msgs|].
    + destruct (_renderDirect_columns_frame clock msgs (clock O) 1%nat (prepared w))
        as (T & W & S).
      cbn zeta in T, W, S.
      destruct (_renderDirect_columns clock msgs (clock O) 1 (prepared w))
        as [w' [e|]]; cbn [fst] in T, W, S;
        (split; [exact (same_screen_trans _ _ _ Hscreen S)|]);
        intros Htr h wk Hnth Halive; cbn in Hnth |- *;
        rewrite T; rewrite W in Hnth; exact (Hprep Htr h wk Hnth Halive).
    + split; [exact Hscreen|exact Hprep].
Qed.

Lemma update_nth_tracked (w : World.t num) (h : nat)
      (f : Worker.t num -> Worker.t num) :
  (forall wk, Worker.alive (f wk) = true -> Worker.alive wk = true) ->
  tracked w ->
  tracked (World.set_workers (update_nth h f (World.workers w)) w).
Proof.
  intros Hf Htr k wk Hnth Halive. cbn in Hnth |- *.
  rewrite update_nth_nth in Hnth.
  destruct (k =? h)%nat; [|exact (Htr k wk Hnth Halive)].
  destruct (nth_error (World.workers w) k) as [wk0|] eqn:Hk; [|discriminate].
  injection Hnth as <-. exact (Htr k wk0 Hk (Hf wk0 Halive)).
Qed.

Lemma onmessage_tracked (wk : Worker.t num) (m : Msg.t num) (w : World.t num) :
  tracked w -> tracked (onmessage wk m w).
Proof.
  intros Htr. unfold onmessage.
  pose proof (draw_line_frame (Worker.gen wk) (Msg.Px m) (Msg.line m) 0 w) as Hframe.
  cbn zeta in Hframe.
  destruct (draw_line (Worker.gen wk) (Msg.Px m) 0 (Msg.line m) w) as [w1 r].
  cbn [fst] in Hframe. destruct Hframe as (Hthis & Hws & _).
  assert (Htr1 : tracked w1).
  { intros k wk0 Hnth Halive. rewrite Hthis. rewrite Hws in Hnth.
    exact (Htr k wk0 Hnth Halive). }
  assert (Hclose : forall w' : World.t num,
            Mandelbrot.renderThreads (World.this w')
              = Mandelbrot.renderThreads (World.this w1) ->
            (World.workers w' = World.workers w1
             \/ exists h', World.workers w'
                           = update_nth h' Worker.terminate (World.workers w1)) ->
            tracked w').
  { intros w' ET Ews k wk0 Hnth Halive. rewrite ET.
    destruct Ews as [Ews|[h' Ews]]; rewrite Ews in Hnth.
    - exact (Htr1 k wk0 Hnth Halive).
    - apply (update_nth_tracked w1 h' Worker.terminate
               (fun wk1 => proj2 (terminate_benign wk1)) Htr1 k wk0).
      + exact Hnth.
      + exact Halive. }
  destruct r as [e|].
  - apply Hclose; [reflexivity|now left].
  - destruct (flush_due _ _ _);
      (destruct (last_column _ _ _ _);
       [destruct (if Worker.i wk <? 0 then None else _) as [h'|]|]);
      apply Hclose; try reflexivity;
      first [now left | right; eexists; reflexivity].
Qed.

Lemma step_tracked (w : World.t num) (ev : event num) :
  tracked w -> tracked (step w ev).
Proof.
  intros Htr.
  destruct ev as [clock|h| |it sc dx dy par sh rp|wd ht]; cbn [step].
  - now apply render_screen_tracked.
  - unfold deliver.
    destruct (nth_error (World.workers w) h) as [wk|]; [|exact Htr].
    destruct (Worker.alive wk); [|exact Htr].
    destruct (Worker.outbox wk) as [|m rest]; [exact Htr|].
    apply onmessage_tracked, update_nth_tracked; [|exact Htr].
    intros wk0 H. exact H.
  - destruct (World.timers w); exact Htr.
  - exact Htr.
  - exact Htr.
Qed.

Lemma page_step_tracked (p : Page.t num) (ev : page_event num) :
  tracked (Page.world p) -> tracked (Page.world (page_step p ev)).
Proof.
  intros Htr. destruct ev as [e|clock e|e]; cbn [page_step].
  - unfold _mousedown. destruct (MouseEvent.buttons e =? 1); exact Htr.
  - unfold _mouseup.
    destruct (Page._mouseStart p) as [[startX startY]|];
      [destruct (dragged e (Some (startX, startY)))|];
      cbn [Page.world]; apply render_screen_tracked; exact Htr.
  - cbn [Page.world]. now apply step_tracked.
Qed.

(** Whatever happened since the page was loaded, every live worker is
    listed in [this.renderThreads]. *)
Lemma page_run_tracked (evs : list (page_event num)) :
  forall p : Page.t num,
    tracked (Page.world p) -> tracked (Page.world (page_run p evs)).
Proof.
  induction evs as [|ev evs IH]; intros p Htr; cbn [page_run fold_left].
  - exact Htr.
  - apply IH, page_step_tracked, Htr.
Qed.

End WorkerTableFacts.

(** X13.  In whatever state the page is, however it got there since it was
    loaded (renders under either strategy, message arrivals, timers,
    resizes, assignments, mouse events): when [Worker] is available,
    [renderParallel] is set and the parallelism is zero or less, [render]
    clears the buffer, terminates every live worker and starts none, so that
    no message can arrive any more. *)
Theorem nonpositive_parallelism_renders_nothing {num : Type} {N : Number num}
    {M : MathLib num} (clock : nat -> Z) (c : Canvas2D.t num)
    (has_Worker : bool) (stack : nat) (evs : list (page_event num)) :
  let w := Page.world (page_run (Page.load (World.init c has_Worker stack)) evs) in
  parallel_strategy w ->
  Mandelbrot.parallelism (World.this w) <= 0 ->
  let w' := render clock w in
  Mandelbrot.renderThreads (World.this w') = []
  /\ Canvas2D.buffer (World.canvas2d w') = []
  /\ World.uncaught w' = World.uncaught w
  /\ (forall h wk, nth_error (World.workers w') h = Some wk ->
                   Worker.alive wk = false)
  /\ forall h, deliver h w' = w'.
Proof.
  intros w Hpar Hzero w'.
  assert (Htr : tracked w).
  { apply page_run_tracked. intros [|h] wk Hnth; discriminate. }
  assert (Htr' : tracked w') by (apply render_screen_tracked; exact Htr).
  destruct Hpar as [HW HP].
  destruct (render_parallel clock w HW HP) as (m' & _ & _ & Hrun).
  assert (Hthreads : Mandelbrot.renderThreads (World.this w') = []).
  { apply length_zero_iff_nil. subst w'. rewrite Hrun, _renderWorkers_threads.
    cbn. lia. }
  assert (Hdead : forall h wk, nth_error (World.workers w') h = Some wk ->
                               Worker.alive wk = false).
  { intros h wk Hwk. destruct (Worker.alive wk) eqn:Halive; [|reflexivity].
    pose proof (Htr' h wk Hwk Halive) as Hin.
    rewrite Hthreads in Hin. contradiction. }
  split; [exact Hthreads|].
  split; [subst w'; rewrite Hrun; reflexivity|].
  split; [subst w'; rewrite Hrun; reflexivity|].
  split; [exact Hdead|].
  intros h. unfold deliver.
  destruct (nth_error (World.workers w') h) as [wk|] eqn:Hwk; [|reflexivity].
  now rewrite (Hdead h wk Hwk).
Qed.

Lemma nonpositive_parallelism_renders_nothing_witness :
  let M := F64.math (fun x => x) in
  let w := Page.world (page_run (Page.load (fresh_world 1 1)) idle_trace) in
  let w' := render (fun _ => 0) w in
  parallel_strategy w
  /\ Mandelbrot.parallelism (World.this w) <= 0
  /\ ~ isolated w
  /\ Mandelbrot.renderThreads (World.this w') = []
  /\ Canvas2D.buffer (World.canvas2d w') = []
  /\ World.uncaught w' = World.uncaught w
  /\ (forall h wk, nth_error (World.workers w') h = Some wk ->
                   Worker.alive wk = false)
  /\ forall h, deliver h w' = w'.
Proof.
  intros M w w'.
  assert (Hpar : parallel_strategy w) by (split; vm_compute; reflexivity).
  assert (Hzero : Mandelbrot.parallelism (World.this w) <= 0)
    by (vm_compute; discriminate).
  assert (Hstale : ~ isolated w).
  { intros [Hown _].
    assert (Hw : exists wk, nth_error (World.workers w) 0 = Some wk
                            /\ Worker.alive wk = true
                            /\ Worker.gen wk = 1%nat
                            /\ World.generation w = 2%nat)
      by (eexists; vm_compute; repeat split).
    destruct Hw as (wk & Hnth & Halive & Hgen & Hgen2).
    destruct (Hown 0%nat wk Hnth Halive) as [Heq _]. congruence. }
  exact (conj Hpar (conj Hzero (conj Hstale
           (nonpositive_parallelism_renders_nothing (fun _ => 0)
              (Canvas2D.mk (num := float) 1 1 [] [] O) true 8%nat idle_trace
              Hpar Hzero)))).
Defined.

(** X21.  [render] itself never calls [flushBuffer], under either strategy
    and whatever the clock reads: after it the canvas has the size it had,
    shows what it showed and has been flushed as often as before. *)
Theorem render_never_flushes {num : Type} {N : Number num} {M : MathLib num}
    (clock : nat -> Z) (w : World.t num) :
  Canvas2D.flushes (World.canvas2d (render clock w))
  = Canvas2D.flushes (World.canvas2d w)
  /\ Canvas2D.shown (World.canvas2d (render clock w))
     = Canvas2D.shown (World.canvas2d w)
  /\ same_screen (World.canvas2d w) (World.canvas2d (render clock w)).
Proof.
  destruct (render_screen_tracked clock w) as [Hscreen _].
  split; [apply Hscreen|]. split; [apply Hscreen|exact Hscreen].
Qed.

Section PageFacts.
Context {num : Type} {N : Number num} {M : MathLib num}.

(** Assigning the view keeps the state isolated. *)
Lemma configure_isolated (w : World.t num) (m' : Mandelbrot.t num) :
  Mandelbrot.renderThreads m' = Mandelbrot.renderThreads (World.this w) ->
  isolated w -> isolated (World.set_this m' w).
Proof.
  intros Hthreads [Hown Hbuf]. split; cbn; [rewrite Hthreads|]; assumption.
Qed.

Lemma _mouseup_isolated (clock : nat -> Z) (ev : MouseEvent.t num) (p : Page.t num) :
  parallel_strategy (Page.world p) ->
  isolated (Page.world p) ->
  isolated (Page.world (_mouseup clock ev p))
  /\ parallel_strategy (Page.world (_mouseup clock ev p))
  /\ World.generation (Page.world (_mouseup clock ev p))
     = S (World.generation (Page.world p)).
Proof.
  intros [HW HP] Hiso. unfold _mouseup.
  destruct (Page._mouseStart p) as [[startX startY]|];
    [destruct (dragged ev (Some (startX, startY)))|];
    cbn [Page.world];
    match goal with
    | |- context [render clock ?w0] =>
        exact (render_isolated clock w0 (conj HW HP)
                 (configure_isolated (Page.world p) (World.this w0) eq_refl Hiso))
    end.
Qed.

End PageFacts.

(** X14.  From the page as loaded, with [Worker] available, whatever the
    order of mouse presses and releases, renders, message arrivals, timer
    callbacks, resizes and assignments that leave [renderParallel] set: every
    write in the buffer comes from the latest [render] call, and every live
    worker was started by it. *)
Theorem page_runs_isolated {num : Type} {N : Number num} {M : MathLib num}
    (c : Canvas2D.t num) (stack : nat) (evs : list (page_event num)) :
  Canvas2D.buffer c = [] ->
  Forall page_keeps_parallel evs ->
  isolated (Page.world (page_run (Page.load (World.init c true stack)) evs))
  /\ parallel_strategy
       (Page.world (page_run (Page.load (World.init c true stack)) evs)).
Proof.
  intros Hc Hevs.
  destruct (init_isolated c stack Hc) as [Hiso Hpar].
  change (World.init c true stack)
    with (Page.world (Page.load (World.init c true stack))) in Hiso, Hpar.
  revert Hiso Hpar. generalize (Page.load (World.init c true stack)).
  induction Hevs as [|ev evs Hev _ IH]; intros p Hiso Hpar;
    cbn [page_run fold_left]; [now split|].
  apply IH.
  - destruct ev as [e|clock e|e]; cbn [page_step].
    + unfold _mousedown. destruct (MouseEvent.buttons e =? 1); exact Hiso.
    + apply (_mouseup_isolated clock e p Hpar Hiso).
    + apply (step_isolated (Page.world p) e Hev Hpar Hiso).
  - destruct ev as [e|clock e|e]; cbn [page_step].
    + unfold _mousedown. destruct (MouseEvent.buttons e =? 1); exact Hpar.
    + apply (_mouseup_isolated clock e p Hpar Hiso).
    + apply (step_isolated (Page.world p) e Hev Hpar Hiso).
Qed.

Lemma page_runs_isolated_witness :
  let M := F64.math (fun x => x) in
  let c := Canvas2D.mk (num := float) 1 1 [] [] O in
  let evs := [ Mouseup (fun _ => 0) (MouseEvent.mk 1 (F64.of_int 0) (F64.of_int 0));
               Inner (Deliver 0);
               Mousedown (MouseEvent.mk 1 (F64.of_int 0) (F64.of_int 0));
               Mouseup (fun _ => 0) (MouseEvent.mk 1 (F64.of_int 5) (F64.of_int 0)) ] in
  Canvas2D.buffer c = []
  /\ Forall page_keeps_parallel evs
  /\ isolated (Page.world (page_run (Page.load (World.init c true 8%nat)) evs))
  /\ parallel_strategy
       (Page.world (page_run (Page.load (World.init c true 8%nat)) evs)).
Proof.
  intros M c evs.
  assert (Hc : Canvas2D.buffer c = []) by reflexivity.
  assert (Hevs : Forall page_keeps_parallel evs)
    by (repeat constructor).
  exact (conj Hc (conj Hevs (page_runs_isolated c 8%nat evs Hc Hevs))).
Defined.

(** ** The mouse handlers *)

Section MouseFacts.
Context {num : Type} {N : Number num} {M : MathLib num}.

(** What [render] does to the fields a mouse handler has just assigned. *)
Lemma render_frame (clock : nat -> Z) (w : World.t num) :
  same_view (World.this w) (World.this (render clock w))
  /\ World.generation (render clock w) = S (World.generation w).
Proof.
  destruct (prepared_facts w)
    as (Hview & _ & _ & _ & _ & _ & _ & _ & _ & Hgen).
  rewrite render_unfold.
  destruct (World.window_Worker w && Mandelbrot.renderParallel (World.this w)).
  - unfold _renderWorkers. cbn. split; [exact Hview|reflexivity].
  - destruct (_renderDirect_clock clock (render_config w) (prepared w)) as [n ->].
    unfold direct_columns.
    destruct (_baseRender _ _ true) as [msgs|];
      [|cbn; split; [exact Hview|exact Hgen]].
    destruct (draw_columns_frame msgs (prepared w))
      as (Hview' & _ & _ & _ & _ & _ & _ & _ & _ & Hgen' & _).
    cbn zeta in Hview', Hgen'.
    destruct (draw_columns msgs (prepared w)) as [w' [e|]];
      cbn [fst snd] in *; cbn;
      (split; [exact (same_view_trans _ _ _ Hview Hview')|congruence]).
Qed.

(** A release that the test of line 226 does not take for a drag. *)
Lemma _mouseup_zoom (clock : nat -> Z) (ev : MouseEvent.t num) (p : Page.t num) :
  dragged ev (Page._mouseStart p) = false ->
  let m := World.this (Page.world p) in
  let m' := World.this (Page.world (_mouseup clock ev p)) in
  Mandelbrot.scale m' = (Mandelbrot.scale m * of_Z 2)%js
  /\ Mandelbrot.xDelta m'
     = (Mandelbrot.xDelta m
        + (size_number (Mandelbrot.width m) / of_Z 2 - MouseEvent.clientX ev)
          / Mandelbrot.scale m)%js
  /\ Mandelbrot.yDelta m'
     = (Mandelbrot.yDelta m
        + (size_number (Mandelbrot.height m) / of_Z 2 - MouseEvent.clientY ev)
          / Mandelbrot.scale m)%js
  /\ Page.console (_mouseup clock ev p)
     = "Zoom to mouse"%string :: Page.console p
  /\ World.generation (Page.world (_mouseup clock ev p))
     = S (World.generation (Page.world p)).
Proof.
  intros Hstill m m'. subst m m'. unfold _mouseup.
  assert (Hmoved :
            match Page._mouseStart p with
            | Some (startX, startY) =>
                if dragged ev (Page._mouseStart p)
                then Some (Mandelbrot.configure
                             (Mandelbrot.iterations (World.this (Page.world p)))
                             (Mandelbrot.scale (World.this (Page.world p)))
                             (Mandelbrot.xDelta (World.this (Page.world p))
                              + (MouseEvent.clientX ev - startX)
                                / Mandelbrot.scale (World.this (Page.world p)))%js
                             (Mandelbrot.yDelta (World.this (Page.world p))
                              + (MouseEvent.clientY ev - startY)
                                / Mandelbrot.scale (World.this (Page.world p)))%js
                             (Mandelbrot.parallelism (World.this (Page.world p)))
                             (Mandelbrot.shader (World.this (Page.world p)))
                             (Mandelbrot.renderParallel (World.this (Page.world p)))
                             (World.this (Page.world p)))
                else None
            | None => None
            end = None).
  { rewrite Hstill. now destruct (Page._mouseStart p) as [[? ?]|]. }
  cbn zeta. rewrite Hmoved. cbn [Page.world Page.console].
  match goal with
  | |- context [render clock ?w0] =>
      destruct (render_frame clock w0) as ((_ & Hs & Hx & Hy & _) & Hgen)
  end.
  rewrite Hs, Hx, Hy, Hgen. repeat split.
Qed.

(** A release that the test of line 226 takes for a drag. *)
Lemma _mouseup_translate (clock : nat -> Z) (ev : MouseEvent.t num)
      (w : World.t num) (startX startY : num) (console : list string) :
  dragged ev (Some (startX, startY)) = true ->
  let m := World.this w in
  let p' := _mouseup clock ev (Page.mk w (Some (startX, startY)) console) in
  let m' := World.this (Page.world p') in
  Mandelbrot.scale m' = Mandelbrot.scale m
  /\ Mandelbrot.xDelta m'
     = (Mandelbrot.xDelta m
        + (MouseEvent.clientX ev - startX) / Mandelbrot.scale m)%js
  /\ Mandelbrot.yDelta m'
     = (Mandelbrot.yDelta m
        + (MouseEvent.clientY ev - startY) / Mandelbrot.scale m)%js
  /\ Page.console p' = "Translate"%string :: console
  /\ World.generation (Page.world p') = S (World.generation w).
Proof.
  intros Hdrag m p' m'. subst m p' m'. unfold _mouseup.
  cbn [Page._mouseStart Page.world Page.console]. rewrite Hdrag.
  match goal with
  | |- context [render clock ?w0] =>
      destruct (render_frame clock w0) as ((_ & Hs & Hx & Hy & _) & Hgen)
  end.
  cbn [Page.world Page.console]. rewrite Hs, Hx, Hy, Hgen. repeat split.
Qed.

End MouseFacts.

Section MouseOverReals.
Import XR.
Local Open Scope R_scope.

Lemma dragged_fin (buttons : Z) (sx sy cx cy : R) :
  dragged (MouseEvent.mk buttons (Fin cx) (Fin cy)) (Some (Fin sx, Fin sy)) = true
  <-> 2 < cx - sx \/ 2 < cy - sy.
Proof.
  change (dragged (MouseEvent.mk buttons (Fin cx) (Fin cy)) (Some (Fin sx, Fin sy)))
    with (xltb (Fin 2) (Fin (cx - sx)) || xltb (Fin 2) (Fin (cy - sy)))%bool.
  rewrite orb_true_iff, !XRFacts.xltb_fin. reflexivity.
Qed.

Lemma nan_is_NaN : nan (num := xreal) = NaN.
Proof. unfold nan. cbn. now rewrite XRFacts.sgn_zero. Qed.

End MouseOverReals.

(** X15.  Over exact reals: a release that is not more than 2 pixels to the
    right of, nor more than 2 pixels below, the recorded press is taken for a
    click, however far to the left or upward the pointer went.  The scale is
    doubled, the pan moves by [((size/2) - client)/scale] on each axis with
    the scale as it was, "Zoom to mouse" is logged and [render] runs once. *)
Theorem release_left_or_up_zooms {M : MathLib XR.xreal} (clock : nat -> Z)
    (w : World.t XR.xreal) (sx sy cx cy : R) (buttons : Z) (console : list string) :
  (cx - sx <= 2)%R ->
  (cy - sy <= 2)%R ->
  let m := World.this w in
  let ev := MouseEvent.mk buttons (XR.Fin cx) (XR.Fin cy) in
  let p' := _mouseup clock ev (Page.mk w (Some (XR.Fin sx, XR.Fin sy)) console) in
  let m' := World.this (Page.world p') in
  Mandelbrot.scale m' = (Mandelbrot.scale m * of_Z 2)%js
  /\ Mandelbrot.xDelta m'
     = (Mandelbrot.xDelta m
        + (size_number (Mandelbrot.width m) / of_Z 2 - XR.Fin cx)
          / Mandelbrot.scale m)%js
  /\ Mandelbrot.yDelta m'
     = (Mandelbrot.yDelta m
        + (size_number (Mandelbrot.height m) / of_Z 2 - XR.Fin cy)
          / Mandelbrot.scale m)%js
  /\ Page.console p' = "Zoom to mouse"%string :: console
  /\ World.generation (Page.world p') = S (World.generation w).
Proof.
  intros Hx Hy m ev p' m'.
  assert (Hstill : dragged ev (Some (XR.Fin sx, XR.Fin sy)) = false).
  { destruct (dragged ev (Some (XR.Fin sx, XR.Fin sy))) eqn:E; [|reflexivity].
    apply dragged_fin in E. lra. }
  exact (_mouseup_zoom clock ev (Page.mk w (Some (XR.Fin sx, XR.Fin sy)) console)
           Hstill).
Qed.

Lemma release_left_or_up_zooms_witness :
  let w := sequential_world in
  let m := World.this w in
  let ev := MouseEvent.mk 1 (XR.Fin 10) (XR.Fin 40) in
  let p' := _mouseup (fun _ => 0) ev
              (Page.mk w (Some (XR.Fin 300, XR.Fin 40)) []) in
  let m' := World.this (Page.world p') in
  (10 - 300 <= 2)%R
  /\ (40 - 40 <= 2)%R
  /\ Mandelbrot.scale m' = (Mandelbrot.scale m * of_Z 2)%js
  /\ Mandelbrot.xDelta m'
     = (Mandelbrot.xDelta m
        + (size_number (Mandelbrot.width m) / of_Z 2 - XR.Fin 10)
          / Mandelbrot.scale m)%js
  /\ Mandelbrot.yDelta m'
     = (Mandelbrot.yDelta m
        + (size_number (Mandelbrot.height m) / of_Z 2 - XR.Fin 40)
          / Mandelbrot.scale m)%js
  /\ Page.console p' = ["Zoom to mouse"%string]
  /\ World.generation (Page.world p') = S (World.generation w).
Proof.
  intros w m ev p' m'.
  assert (Hx : (10 - 300 <= 2)%R) by lra.
  assert (Hy : (40 - 40 <= 2)%R) by lra.
  exact (conj Hx (conj Hy
           (release_left_or_up_zooms (fun _ => 0) w 300 40 10 40 1 [] Hx Hy))).
Defined.

(** X16.  Over exact reals: a release more than 2 pixels to the right of, or
    more than 2 pixels below, the recorded press moves the pan by the
    difference divided by the scale on both axes, leaves the scale as it is,
    logs "Translate" and runs [render] once. *)
Theorem drag_translates {M : MathLib XR.xreal} (clock : nat -> Z)
    (w : World.t XR.xreal) (sx sy cx cy : R) (buttons : Z) (console : list string) :
  (2 < cx - sx \/ 2 < cy - sy)%R ->
  let m := World.this w in
  let ev := MouseEvent.mk buttons (XR.Fin cx) (XR.Fin cy) in
  let p' := _mouseup clock ev (Page.mk w (Some (XR.Fin sx, XR.Fin sy)) console) in
  let m' := World.this (Page.world p') in
  Mandelbrot.scale m' = Mandelbrot.scale m
  /\ Mandelbrot.xDelta m'
     = (Mandelbrot.xDelta m + XR.Fin (cx - sx) / Mandelbrot.scale m)%js
  /\ Mandelbrot.yDelta m'
     = (Mandelbrot.yDelta m + XR.Fin (cy - sy) / Mandelbrot.scale m)%js
  /\ Page.console p' = "Translate"%string :: console
  /\ World.generation (Page.world p') = S (World.generation w).
Proof.
  intros Hdrag m ev p' m'.
  assert (Hmoved : dragged ev (Some (XR.Fin sx, XR.Fin sy)) = true)
    by (apply dragged_fin; exact Hdrag).
  exact (_mouseup_translate clock ev w (XR.Fin sx) (XR.Fin sy) console Hmoved).
Qed.

Lemma drag_translates_witness :
  let w := sequential_world in
  let m := World.this w in
  let ev := MouseEvent.mk 1 (XR.Fin 10) (XR.Fin 45) in
  let p' := _mouseup (fun _ => 0) ev (Page.mk w (Some (XR.Fin 300, XR.Fin 40)) []) in
  let m' := World.this (Page.world p') in
  (2 < 10 - 300 \/ 2 < 45 - 40)%R
  /\ Mandelbrot.scale m' = Mandelbrot.scale m
  /\ Mandelbrot.xDelta m'
     = (Mandelbrot.xDelta m + XR.Fin (10 - 300) / Mandelbrot.scale m)%js
  /\ Mandelbrot.yDelta m'
     = (Mandelbrot.yDelta m + XR.Fin (45 - 40) / Mandelbrot.scale m)%js
  /\ Page.console p' = ["Translate"%string]
  /\ World.generation (Page.world p') = S (World.generation w).
Proof.
  intros w m ev p' m'.
  assert (Hdrag : (2 < 10 - 300 \/ 2 < 45 - 40)%R) by (right; lra).
  exact (conj Hdrag
           (drag_translates (fun _ => 0) w 300 40 10 45 1 [] Hdrag)).
Defined.

(** X17.  Over exact reals: a release on the page as loaded, before any
    [render] and any press, is taken for a click while [this.width] and
    [this.height] are still [undefined]: both pans become NaN, whatever the
    pointer position, and the scale becomes 2. *)
Theorem release_before_first_render {M : MathLib XR.xreal} (clock : nat -> Z)
    (c : Canvas2D.t XR.xreal) (has_Worker : bool) (stack : nat)
    (ev : MouseEvent.t XR.xreal) :
  let p' := _mouseup clock ev (Page.load (World.init c has_Worker stack)) in
  let m' := World.this (Page.world p') in
  Mandelbrot.xDelta m' = XR.NaN
  /\ Mandelbrot.yDelta m' = XR.NaN
  /\ Mandelbrot.scale m' = XR.Fin (1 * 2)
  /\ Page.console p' = ["Zoom to mouse"%string].
Proof.
  intros p' m'.
  destruct (_mouseup_zoom clock ev (Page.load (World.init c has_Worker stack))
              eq_refl) as (Hs & Hx & Hy & Hlog & _).
  fold p' in Hs, Hx, Hy, Hlog. fold m' in Hs, Hx, Hy.
  rewrite Hs, Hx, Hy, Hlog.
  cbn [Page.load Page.world World.init World.this Mandelbrot.constructor
       Mandelbrot.width Mandelbrot.height Mandelbrot.scale Mandelbrot.xDelta
       Mandelbrot.yDelta size_number Page.console].
  rewrite nan_is_NaN. repeat split.
Qed.

(** ** A pan that is not a number *)

Section NaNFacts.
Import XR.

Lemma xadd_NaN_l (a : xreal) : xadd NaN a = NaN.
Proof. reflexivity. Qed.

Lemma xadd_NaN_r (a : xreal) : xadd a NaN = NaN.
Proof. now destruct a. Qed.

Lemma xmul_NaN_r (a : xreal) : xmul a NaN = NaN.
Proof. now destruct a. Qed.

Lemma xsub_NaN_l (a : xreal) : xsub NaN a = NaN.
Proof. reflexivity. Qed.

Lemma xsub_NaN_r (a : xreal) : xsub a NaN = NaN.
Proof. unfold xsub. cbn [xopp]. apply xadd_NaN_r. Qed.

(** The guard of the loop fails as soon as one coordinate is NaN. *)
Lemma escape_while_NaN (fuel : nat) (x0 y0 x y : xreal) (iteration K : Z) :
  x = NaN \/ y = NaN ->
  escape_while fuel x0 y0 x y iteration K = Some iteration.
Proof.
  intros Hxy.
  assert (Hguard : (x * x + y * y <? of_Z 4)%js = false).
  { cbn [add mul ltb number].
    destruct Hxy as [-> | ->]; [|rewrite xmul_NaN_r, xadd_NaN_r]; reflexivity. }
  destruct fuel; cbn [escape_while]; now rewrite Hguard.
Qed.

End NaNFacts.

(** X18.  Over exact reals with the IEEE special values: when either pan of
    the rendering configuration is NaN, every pixel leaves the loop after its
    first iteration, whatever the scale and the canvas size; with a cap
    [K >= 1] its intensity is [1/K], or [0] when [K = 1].  The picture is one
    flat colour. *)
Theorem nan_pan_gives_flat_picture (e : rConfig.t XR.xreal) (ws hs : XR.xreal)
    (Px Py : Z) (fuel : nat) :
  rConfig.xDelta e = XR.NaN \/ rConfig.yDelta e = XR.NaN ->
  (1 <= rConfig.iterations e)%Z ->
  (1 <= fuel)%nat ->
  _baseRender_pixel fuel e ws hs Px Py
  = Some (XR.Fin (if (rConfig.iterations e =? 1)%Z then 0
                  else 1 / IZR (rConfig.iterations e))).
Proof.
  intros Hpan HK Hfuel.
  unfold _baseRender_pixel.
  set (K := rConfig.iterations e) in *.
  set (x0 := (ws / of_Z (rConfig.width e)
              * (of_Z Px - rConfig.xDelta e * rConfig.scale e)
              - ws / lit 14 1)%js).
  set (y0 := (hs / of_Z (rConfig.height e)
              * (of_Z Py - rConfig.yDelta e * rConfig.scale e)
              - hs / of_Z 2)%js).
  assert (Hpoint : x0 = XR.NaN \/ y0 = XR.NaN).
  { destruct Hpan as [H|H]; [left; unfold x0|right; unfold y0]; rewrite H;
      cbn [add sub mul XR.number]; cbn [XR.xmul];
      now rewrite xsub_NaN_r, xmul_NaN_r, xsub_NaN_l. }
  destruct fuel as [|fuel]; [lia|].
  unfold escape_intensity. cbn [escape_while].
  change ((of_Z 0 * of_Z 0 + of_Z 0 * of_Z 0 <? of_Z 4)%js)
    with (inside (XR.Fin 0, XR.Fin 0)).
  rewrite XRFacts.inside_origin.
  replace (0 <? K)%Z with true by (symmetry; apply Z.ltb_lt; lia).
  cbn [andb].
  rewrite escape_while_NaN.
  - cbn [obind]. f_equal. rewrite Z.add_0_l, (Z.eqb_sym 1 K).
    cbn [of_Z div XR.number].
    rewrite XRFacts.xdiv_fin by (apply not_0_IZR; lia).
    destruct (Z.eqb_spec K 1) as [HK1|_]; [|reflexivity].
    rewrite HK1. f_equal. lra.
  - cbn [add sub mul XR.number].
    destruct Hpoint as [-> | ->]; [left; apply xadd_NaN_r|right; apply xadd_NaN_r].
Qed.

Lemma nan_pan_gives_flat_picture_witness :
  let e := rConfig.mk Null 256 (XR.Fin 2) 640 480 XR.NaN (XR.Fin 0) 2 (Some 0%Z) in
  (rConfig.xDelta e = XR.NaN \/ rConfig.yDelta e = XR.NaN)
  /\ (1 <= rConfig.iterations e)%Z
  /\ (1 <= 256)%nat
  /\ _baseRender_pixel 256 e (XR.Fin 1) (XR.Fin 1) 7 9
     = Some (XR.Fin (if (rConfig.iterations e =? 1)%Z then 0
                     else 1 / IZR (rConfig.iterations e))).
Proof.
  intros e.
  assert (H1 : rConfig.xDelta e = XR.NaN \/ rConfig.yDelta e = XR.NaN)
    by (left; reflexivity).
  assert (H2 : (1 <= rConfig.iterations e)%Z) by (cbn; lia).
  assert (H3 : (1 <= 256)%nat) by lia.
  exact (conj H1 (conj H2 (conj H3
           (nan_pan_gives_flat_picture e (XR.Fin 1) (XR.Fin 1) 7 9 256 H1 H2 H3)))).
Defined.

(** ** The range of the [BLUE] channels *)

Section BlueRange.
Import XR.
Local Open Scope R_scope.

(** The [BLUE] pixel of a finite intensity below 1, with its channels as
    reals. *)
Lemma _pixelShader_BLUE_fin (stack : nat) (defaultShader Px Py : Z) (i : R) :
  0 <= i < 1 ->
  _pixelShader stack defaultShader Px Py (Fin i) BLUE
  = Normal (Some (Pixel.mk Px Py
      (Fin (255 * (i * (-1 / 4 * ln (- 1000000 / 11112347 * i + 9 / 100)
                        - 25 / 100))))
      (Fin (255 * (i * (-1 / 4 * ln (- 1000000 / 11112347 * i + 9 / 100)
                        - 25 / 100))))
      (Fin (255 * (i * (1 - 24 / 10 * ln (i + 1 / 10000000000)))))
      (Fin 255))).
Proof.
  intros Hi.
  assert (Hshade : _pixelShader stack defaultShader Px Py (Fin i) BLUE
            = Normal (Some (Pixel.mk Px Py
                (of_Z 255 * (Fin i * ((of_Z (-1) / of_Z 4)
                     * Math_log (blue_log_arg1 (Fin i)) - lit 25 2)))%js
                (of_Z 255 * (Fin i * ((of_Z (-1) / of_Z 4)
                     * Math_log (blue_log_arg1 (Fin i)) - lit 25 2)))%js
                (of_Z 255 * (Fin i * (of_Z 1 - lit 24 1
                     * Math_log (blue_log_arg2 (Fin i)))))%js
                (of_Z 255))))
    by (destruct stack; reflexivity).
  rewrite Hshade, blue_log_arg1_fin, blue_log_arg2_fin, !lit_fin.
  cbn [Math_log math]. rewrite !XRFacts.xlog_fin by lra.
  cbn [div of_Z number]. rewrite XRFacts.xdiv_fin by lra.
  change (10 ^ Z.of_nat 2)%Z with 100%Z. change (10 ^ Z.of_nat 1)%Z with 10%Z.
  reflexivity.
Qed.

Lemma ln_below_tangent (x : R) : 0 < x -> x <> 1 -> ln x < x - 1.
Proof.
  intros Hx Hne.
  assert (Hexp : 1 + (x - 1) < exp (x - 1)) by (apply exp_ineq1; lra).
  rewrite <- (ln_exp (x - 1)). apply ln_increasing; lra.
Qed.

End BlueRange.

(** X19.  Over exact reals: a pixel of intensity 0, which is what a point
    that reaches the cap gets, is opaque black under both [BLUE] and
    [WHITE]: the logarithms of the [BLUE] case are finite at 0. *)
Theorem capped_point_is_black (stack : nat) (defaultShader Px Py : Z) :
  _pixelShader stack defaultShader Px Py (XR.Fin 0) BLUE
  = Normal (Some (Pixel.mk Px Py (XR.Fin 0) (XR.Fin 0) (XR.Fin 0) (XR.Fin 255)))
  /\ _pixelShader stack defaultShader Px Py (XR.Fin 0) WHITE
     = Normal (Some (Pixel.mk Px Py (XR.Fin 0) (XR.Fin 0) (XR.Fin 0)
                              (XR.Fin 255))).
Proof.
  split.
  - rewrite _pixelShader_BLUE_fin by lra.
    do 2 f_equal. f_equal; f_equal; ring.
  - rewrite _pixelShader_WHITE. do 2 f_equal.
    cbn [mul of_Z XR.number XR.xmul]. f_equal; f_equal; ring.
Qed.

(** X20.  Over exact reals: for an intensity between 1/2 and 9/10 the blue
    channel of the [BLUE] pixel is a finite number above 255, outside the
    range of a colour byte. *)
Theorem blue_channel_exceeds_255 (stack : nat) (defaultShader Px Py : Z) (i : R) :
  (1 / 2 <= i <= 9 / 10)%R ->
  exists (p : Pixel.t XR.xreal) (b : R),
    _pixelShader stack defaultShader Px Py (XR.Fin i) BLUE = Normal (Some p)
    /\ Pixel.b p = XR.Fin b
    /\ (255 < b)%R.
Proof.
  intros Hi.
  eexists. eexists. split; [apply _pixelShader_BLUE_fin; lra|].
  split; [reflexivity|].
  pose proof (ln_below_tangent (i + 1 / 10000000000)%R) as Hln.
  set (L := ln (i + 1 / 10000000000)) in *.
  assert (HL : (L < i + 1 / 10000000000 - 1)%R) by (apply Hln; lra).
  clearbody L. clear Hln.
  assert (Hprod : (0 < i * (i + 1 / 10000000000 - 1 - L))%R)
    by (apply Rmult_lt_0_compat; lra).
  assert (Hends : (0 <= (i - 1 / 2) * (9 / 10 - i))%R)
    by (apply Rmult_le_pos; lra).
  nra.
Qed.

Lemma blue_channel_exceeds_255_witness :
  (1 / 2 <= 1 / 2 <= 9 / 10)%R
  /\ exists (p : Pixel.t XR.xreal) (b : R),
       _pixelShader 8 BLUE 3 4 (XR.Fin (1 / 2)) BLUE = Normal (Some p)
       /\ Pixel.b p = XR.Fin b
       /\ (255 < b)%R.
Proof.
  assert (H : (1 / 2 <= 1 / 2 <= 9 / 10)%R) by lra.
  exact (conj H (blue_channel_exceeds_255 8 BLUE 3 4 (1 / 2) H)).
Defined.
